(** * Voice-assistant orchestration core: a shallow embedding

    The development follows the Python sources
      - [src/llm/qwen.py]              (module [Qwen]),
      - [src/pipeline/intent.py]       (module [Intent]),
      - [src/pipeline/orchestrator.py] (module [Pipeline]),
      - [src/agents/orchestrator.py]   (module [Agents]),
      - [src/translation/indictrans.py] (module [Translation]),
      - [src/tts/tts_engine.py]        (module [Tts]),
    and proves, in the modules of facts that follow the definitions, what
    the specification says about them and what the code shows besides.

    Python [str] values are represented by their UTF-8 bytes ([string]).
    Substring search, prefix tests, splitting and replacing on ASCII
    separators are exact on that representation.  The two Unicode-aware
    primitives [str.lower] and [str.strip] are kept abstract in the class
    [TextOps]: every general statement holds for any choice of them.
    [ascii_text] is the instance that agrees with Python on ASCII text; it
    is used for concrete runs only.

    Floating-point durations are represented by rationals, read from a
    clock that belongs to the outside world.  Log messages and progress
    messages are not modelled.

    An import that a method makes from another package of the repository
    ([..asr], [..translation], [..llm], [..tts]) is a question to the
    world, which may raise.  The import of [.intent] inside the package
    [pipeline] finds a module that the package has loaded itself
    ([pipeline/__init__.py] imports it) and is not modelled; the imports
    of third-party libraries are taken to succeed. *)

From Stdlib Require Import String Ascii List ZArith QArith Bool Lia.
Import ListNotations.

Local Open Scope string_scope.
Local Open Scope list_scope.

(* ------------------------------------------------------------------ *)
(** ** Python string primitives *)

Module PyStr.

Class TextOps : Type := {
    lower : string -> string;   (* str.lower() *)
    strip : string -> string    (* str.strip() *)
  }.

(** [needle in hay] *)
Fixpoint contains (needle hay : string) : bool :=
  String.prefix needle hay ||
  match hay with
  | EmptyString => false
  | String _ rest => contains needle rest
  end.

(** [s.startswith(p)] *)
Definition startswith (s p : string) : bool := String.prefix p s.

(** [s.replace(old, new)], scanning left to right over non-overlapping
    occurrences; [skip] counts the bytes of a matched occurrence that are
    still to be dropped.  Every call site passes a non-empty [old]. *)
Fixpoint replace_from (old new : string) (skip : nat) (s : string) : string :=
  match s with
  | EmptyString => EmptyString
  | String c rest =>
      match skip with
      | S k => replace_from old new k rest
      | O =>
          if String.prefix old s
          then new ++ replace_from old new (String.length old - 1) rest
          else String c (replace_from old new 0 rest)
      end
  end.

Definition replace (s old new : string) : string := replace_from old new 0 s.

(** [s.split(sep)] for a one-character separator: always at least one
    piece, the pieces in order. *)
Fixpoint split (s : string) (sep : ascii) : list string :=
  match s with
  | EmptyString => [EmptyString]
  | String c rest =>
      if Ascii.eqb c sep then EmptyString :: split rest sep
      else match split rest sep with
           | piece :: pieces => String c piece :: pieces
           | [] => [String c EmptyString]
           end
  end.

(** [s.split(sep, 1)] read as the pair [k, v = ...]: the text before the
    first separator and the text after it ([None] when [sep] does not
    occur, where the unpacking would fail). *)
Fixpoint split_once (s : string) (sep : ascii) : option (string * string) :=
  match s with
  | EmptyString => None
  | String c rest =>
      if Ascii.eqb c sep then Some (EmptyString, rest)
      else match split_once rest sep with
           | Some (k, v) => Some (String c k, v)
           | None => None
           end
  end.

(** [sep.join(pieces)] *)
Definition join (sep : string) (pieces : list string) : string :=
  String.concat sep pieces.

(** Truth value of a [str] and of an [Optional[str]]. *)
Definition truthy (s : string) : bool :=
  match s with EmptyString => false | _ => true end.

Definition truthy_opt (o : option string) : bool :=
  match o with Some s => truthy s | None => false end.

(** The [str] held by an [Optional[str]] that was tested truthy. *)
Definition the (o : option string) : string :=
  match o with Some s => s | None => EmptyString end.

(** *** The ASCII instance *)

Definition ascii_lower_char (c : ascii) : ascii :=
  let n := nat_of_ascii c in
  if (65 <=? n)%nat && (n <=? 90)%nat then ascii_of_nat (n + 32) else c.

Fixpoint ascii_lower (s : string) : string :=
  match s with
  | EmptyString => EmptyString
  | String c rest => String (ascii_lower_char c) (ascii_lower rest)
  end.

(** The ASCII characters for which [str.isspace] holds. *)
Definition is_space (c : ascii) : bool :=
  let n := nat_of_ascii c in
  ((9 <=? n)%nat && (n <=? 13)%nat) ||
  ((28 <=? n)%nat && (n <=? 32)%nat).

Fixpoint lstrip (s : string) : string :=
  match s with
  | EmptyString => EmptyString
  | String c rest => if is_space c then lstrip rest else s
  end.

Fixpoint rstrip (s : string) : string :=
  match s with
  | EmptyString => EmptyString
  | String c rest =>
      match rstrip rest with
      | EmptyString => if is_space c then EmptyString else String c EmptyString
      | kept => String c kept
      end
  end.

Definition ascii_strip (s : string) : string := rstrip (lstrip s).

Definition ascii_text : TextOps :=
  {| lower := ascii_lower; strip := ascii_strip |}.

End PyStr.

(* ------------------------------------------------------------------ *)
(** ** Insertion-ordered dictionaries (Python [dict]) *)

Module PyDict.

Definition dict (V : Type) : Type := list (string * V).

Fixpoint get {V} (d : dict V) (k : string) : option V :=
  match d with
  | [] => None
  | (k', v) :: rest => if String.eqb k' k then Some v else get rest k
  end.

(** [d[k] = v]: an existing key keeps its position, a new key goes last. *)
Fixpoint set {V} (d : dict V) (k : string) (v : V) : dict V :=
  match d with
  | [] => [(k, v)]
  | (k', v') :: rest =>
      if String.eqb k' k then (k', v) :: rest else (k', v') :: set rest k v
  end.

Definition mem {V} (d : dict V) (k : string) : bool :=
  match get d k with Some _ => true | None => false end.

Definition keys {V} (d : dict V) : list string := map fst d.

End PyDict.

(* ------------------------------------------------------------------ *)
(** ** Effects: exceptions, mutable objects and the external engines

    A computation runs on a mutable object of type [S] and on the history of
    calls made so far to the external world (model runtimes, the clock).  It
    ends either with a value or with a raised exception; in both cases the
    mutations and calls made so far stay.  The exceptions are those of
    class [Exception], the class every handler of the sources catches; one
    is represented by the text [str(e)], the only part of it the sources
    look at. *)

Module Eff.

Inductive Outcome (A : Type) : Type :=
  | Ok (a : A)
  | Raised (msg : string).
Arguments Ok {A} a.
Arguments Raised {A} msg.

(** [Message] of [llm/qwen.py]. *)
Record Message : Type := mkMessage { role : string; content : string }.

(** Synthesised audio: a sample buffer or the path it was written to. *)
Inductive AudioOut : Type :=
  | Samples (data : list Z)
  | SavedTo (path : string).

(** One call to the outside world. *)
Inductive Call : Type :=
  | CPerfCounter
  | CWhisperLoad (model_size device : string)
  | CTranscribe (audio : string)
  | CTranslatorLoad (directions : list string)
  | CTranslate (text source_lang target_lang : string)
  | CQwenLoad (model_id device : string)
  | CQwenGenerate (messages : list Message) (max_new_tokens : Z)
  | CSynthesize (text language : string) (output_path : option string)
  | CDetect (text english_text : string).

Definition Trace : Type := list Call.

(** The external collaborators.  Each answer may depend on everything that
    happened before (the engines are stateful and not deterministic). *)
Record World : Type := {
    perf_counter : Trace -> Q;
    whisper_load : Trace -> string -> string -> Outcome unit;
    whisper_transcribe : Trace -> string -> Outcome string;
    translator_load : Trace -> list string -> Outcome unit;
    translator_translate : Trace -> string -> string -> string -> Outcome string;
    (* loads tokenizer and weights; answers the device the model ended on *)
    qwen_load : Trace -> string -> string -> Outcome string;
    (* chat template, generation and decoding; answers the stripped reply
       and the number of new tokens *)
    qwen_generate : Trace -> list Message -> Z -> Outcome (string * Z);
    tts_synthesize : Trace -> string -> string -> option string -> Outcome AudioOut;
    (* [from <module> import <name>] of one of the repository's packages;
       raises [ImportError] when the package does not provide the name *)
    import_from : Trace -> string -> Outcome unit
  }.

Definition M (S A : Type) : Type := S -> Trace -> Outcome A * S * Trace.

Definition ret {S A} (a : A) : M S A := fun s tr => (Ok a, s, tr).

Definition bind {S A B} (m : M S A) (k : A -> M S B) : M S B :=
  fun s tr =>
    match m s tr with
    | (Ok a, s', tr') => k a s' tr'
    | (Raised e, s', tr') => (Raised e, s', tr')
    end.

Definition raise {S A} (msg : string) : M S A := fun s tr => (Raised msg, s, tr).

(** [try: m  except Exception as e: handler e] *)
Definition try_except {S A} (m : M S A) (handler : string -> M S A) : M S A :=
  fun s tr =>
    match m s tr with
    | (Ok a, s', tr') => (Ok a, s', tr')
    | (Raised e, s', tr') => handler e s' tr'
    end.

Definition get {S} : M S S := fun s tr => (Ok s, s, tr).
Definition modify {S} (f : S -> S) : M S unit := fun s tr => (Ok tt, f s, tr).

(** A call to the world: the answer is computed from the history, then the
    call is recorded. *)
Definition call {S A} (c : Call) (answer : Trace -> Outcome A) : M S A :=
  fun s tr => (answer tr, s, tr ++ [c]).

(** A question to the environment that is no engine call (an [import]
    statement): it is answered from the history and leaves no entry in it. *)
Definition ask {S A} (answer : Trace -> Outcome A) : M S A :=
  fun s tr => (answer tr, s, tr).

(** [time.perf_counter()] *)
Definition clock {S} (W : World) : M S Q :=
  call CPerfCounter (fun tr => Ok (perf_counter W tr)).

(** [(time.perf_counter() - start) * 1000], the second reading given. *)
Definition elapsed_ms (start now : Q) : Q := (now - start) * 1000.

(** Run a method of a sub-object held in a field. *)
Definition zoom {S T A} (proj : S -> T) (upd : S -> T -> S) (m : M T A) : M S A :=
  fun s tr =>
    match m (proj s) tr with
    | (r, t', tr') => (r, upd s t', tr')
    end.

(** Run a method [meth] of the object held in an optional field; on [None]
    Python raises [AttributeError]. *)
Definition on_handle {S T A} (proj : S -> option T) (upd : S -> option T -> S)
           (meth : string) (m : M T A) : M S A :=
  fun s tr =>
    match proj s with
    | Some t =>
        match m t tr with
        | (r, t', tr') => (r, upd s (Some t'), tr')
        end
    | None =>
        (Raised ("'NoneType' object has no attribute '" ++ meth ++ "'"), s, tr)
    end.

(** Python slice [l[start:]]. *)
Definition slice_from {A} (start : Z) (l : list A) : list A :=
  let n := Z.of_nat (List.length l) in
  let i := if (start <? 0)%Z then Z.max (n + start) 0 else Z.min start n in
  skipn (Z.to_nat i) l.

(** [emits P m]: a run of [m] only adds calls to the history, and each
    added call satisfies [P]. *)
Definition emits {S A} (P : Call -> Prop) (m : M S A) : Prop :=
  forall s tr r s' tr',
    m s tr = (r, s', tr') -> exists new, tr' = tr ++ new /\ Forall P new.

Module Notations.
Notation "x <- m ;; k" := (bind m (fun x => k))
  (at level 61, m at next level, right associativity).
Notation "' pat <- m ;; k" := (bind m (fun x => match x with pat => k end))
  (at level 61, pat pattern, m at next level, right associativity).
Notation "m ;; k" := (bind m (fun _ => k))
  (at level 61, right associativity).
End Notations.

End Eff.

Import Eff Eff.Notations.

(* ------------------------------------------------------------------ *)
(** ** [llm/qwen.py]: the response-generation wrapper *)

Module Qwen.

Record ChatResponse : Type := {
    content : string;
    tokens_used : Z;
    generation_time_ms : Q
  }.

Record QwenLLM : Type := {
    model_size : string;
    device : string;
    system_prompt : string;
    max_memory_messages : Z;
    model_loaded : bool;                      (* [self.model is not None] *)
    conversation_history : list Message
  }.

Definition MODELS : PyDict.dict string :=
  [ ("0.5b", "Qwen/Qwen2.5-0.5B-Instruct");
    ("1.5b", "Qwen/Qwen2.5-1.5B-Instruct");
    ("3b", "Qwen/Qwen2.5-3B-Instruct");
    ("7b", "Qwen/Qwen2.5-7B-Instruct") ].

Definition DEFAULT_SYSTEM_PROMPT : string :=
"You are a helpful voice assistant. You provide concise, friendly responses suitable for spoken conversation. Keep responses brief and natural - typically 1-3 sentences unless more detail is needed. You can help with:
- Answering questions
- Providing information
- Casual conversation
- Task assistance

Respond naturally as if speaking to someone.".

(** [QwenLLM.__init__] *)
Definition init (model_size device : string) (system_prompt : option string)
           (max_memory_messages : Z) : QwenLLM :=
  {| model_size := model_size;
     device := device;
     system_prompt :=
       match system_prompt with
       | Some p => if PyStr.truthy p then p else DEFAULT_SYSTEM_PROMPT
       | None => DEFAULT_SYSTEM_PROMPT
       end;
     max_memory_messages := max_memory_messages;
     model_loaded := false;
     conversation_history := [] |}.

Definition with_history (h : list Message) (self : QwenLLM) : QwenLLM :=
  {| model_size := model_size self; device := device self;
     system_prompt := system_prompt self;
     max_memory_messages := max_memory_messages self;
     model_loaded := model_loaded self;
     conversation_history := h |}.

Definition with_system_prompt (p : string) (self : QwenLLM) : QwenLLM :=
  {| model_size := model_size self; device := device self;
     system_prompt := p;
     max_memory_messages := max_memory_messages self;
     model_loaded := model_loaded self;
     conversation_history := conversation_history self |}.

Definition with_model_on (dev : string) (self : QwenLLM) : QwenLLM :=
  {| model_size := model_size self; device := dev;
     system_prompt := system_prompt self;
     max_memory_messages := max_memory_messages self;
     model_loaded := true;
     conversation_history := conversation_history self |}.

Section Methods.
Variable W : World.

(** [QwenLLM.load_model] *)
Definition load_model : M QwenLLM unit :=
  self <- get ;;
  match PyDict.get MODELS (model_size self) with
  | None =>
      raise ("Unknown model size: " ++ model_size self
             ++ ". Options: ['0.5b', '1.5b', '3b', '7b']")
  | Some model_id =>
      try_except
        (dev <- call (CQwenLoad model_id (device self))
                     (fun tr => qwen_load W tr model_id (device self)) ;;
         modify (with_model_on dev))
        (fun e => raise e)
  end.

(** [QwenLLM._build_messages] *)
Definition _build_messages (self : QwenLLM) (user_input : string) : list Message :=
  [ mkMessage "system" (system_prompt self) ]
  ++ slice_from (- max_memory_messages self) (conversation_history self)
  ++ [ mkMessage "user" (user_input) ].

(** [QwenLLM.chat]; the sampling parameters [temperature] and [top_p] go
    to the model runtime unchanged and are left to the world. *)
Definition chat (user_input : string) (max_new_tokens : Z) (remember : bool)
  : M QwenLLM ChatResponse :=
  self <- get ;;
  (if model_loaded self then ret tt else load_model) ;;
  self <- get ;;
  let messages := _build_messages self user_input in
  try_except
    (start_time <- clock W ;;
     '(response_text, tokens_generated) <-
        call (CQwenGenerate messages max_new_tokens)
             (fun tr => qwen_generate W tr messages max_new_tokens) ;;
     now <- clock W ;;
     let generation_time := elapsed_ms start_time now in
     (* Update conversation history *)
     (if remember then
        modify (fun self =>
          with_history (conversation_history self
                        ++ [ mkMessage "user" (user_input) ]
                        ++ [ mkMessage "assistant" (response_text) ])
                       self) ;;
        (* Trim history if too long *)
        self <- get ;;
        if (Z.of_nat (List.length (conversation_history self))
            >? max_memory_messages self * 2)%Z
        then modify (fun self =>
               with_history (slice_from (- max_memory_messages self * 2)
                                        (conversation_history self)) self)
        else ret tt
      else ret tt) ;;
     ret {| content := response_text;
            tokens_used := tokens_generated;
            generation_time_ms := generation_time |})
    (fun e => raise e).

(** [QwenLLM.clear_history] *)
Definition clear_history : M QwenLLM unit := modify (with_history []).

(** [QwenLLM.set_system_prompt] *)
Definition set_system_prompt (prompt : string) : M QwenLLM unit :=
  modify (with_system_prompt prompt).

End Methods.

End Qwen.

(* ------------------------------------------------------------------ *)
(** ** [pipeline/intent.py]: the two-tier intent detector *)

Module Intent.

(** [IntentType], in declaration order. *)
Inductive IntentType : Type :=
  | GREETING | QUESTION | COMMAND | INFORMATION | TASK | WEATHER
  | TIME | REMINDER | CALCULATION | TRANSLATION | GENERAL | UNKNOWN.

Definition all_types : list IntentType :=
  [ GREETING; QUESTION; COMMAND; INFORMATION; TASK; WEATHER;
    TIME; REMINDER; CALCULATION; TRANSLATION; GENERAL; UNKNOWN ].

Definition value (t : IntentType) : string :=
  match t with
  | GREETING => "greeting" | QUESTION => "question" | COMMAND => "command"
  | INFORMATION => "information" | TASK => "task" | WEATHER => "weather"
  | TIME => "time" | REMINDER => "reminder" | CALCULATION => "calculation"
  | TRANSLATION => "translation" | GENERAL => "general" | UNKNOWN => "unknown"
  end.

Definition eqb (a b : IntentType) : bool := String.eqb (value a) (value b).

(** [IntentType(s)]: the member with that value; [None] stands for the
    [ValueError] of an unknown value. *)
Definition of_value (s : string) : option IntentType :=
  find (fun t => String.eqb (value t) s) all_types.

Record Intent : Type := {
    type : IntentType;
    confidence : Q;
    entities : PyDict.dict string;
    original_text : string;
    english_text : string;
    description : string
  }.

(** [IntentDetector.INTENT_PATTERNS], in the order the table is written. *)
Definition INTENT_PATTERNS : list (IntentType * list string) :=
  [ (GREETING, [ "hello"; "hi"; "hey"; "good morning"; "good evening";
                 "namaste"; "how are you"; "what's up" ]);
    (WEATHER, [ "weather"; "temperature"; "rain"; "sunny"; "cloudy";
                "forecast"; "climate"; "hot"; "cold" ]);
    (TIME, [ "time"; "what time"; "clock"; "hour"; "date"; "today";
             "day"; "month"; "year" ]);
    (REMINDER, [ "remind"; "reminder"; "alarm"; "schedule"; "appointment";
                 "notify"; "alert"; "set reminder" ]);
    (CALCULATION, [ "calculate"; "math"; "plus"; "minus"; "multiply"; "divide";
                    "sum"; "total"; "percentage"; "how much is" ]);
    (QUESTION, [ "what"; "who"; "where"; "when"; "why"; "how"; "which";
                 "is it"; "are you"; "can you"; "could you"; "tell me" ]);
    (COMMAND, [ "turn on"; "turn off"; "switch"; "open"; "close";
                "start"; "stop"; "play"; "pause"; "set" ]) ].

Definition dquote : string := String (ascii_of_nat 34) EmptyString.
Definition newline : ascii := ascii_of_nat 10.

Definition INTENT_SYSTEM_PROMPT : string :=
"You are an intent classifier. Given a user message, identify:
1. The primary intent (greeting, question, command, weather, time, reminder, calculation, information, task, general)
2. Key entities mentioned (names, numbers, locations, times)
3. A brief description of what the user wants

Respond in this exact format:
INTENT: <intent_type>
ENTITIES: <key: value pairs or " ++ dquote ++ "none" ++ dquote ++ ">
DESCRIPTION: <brief description>".

Record IntentDetector : Type := {
    use_llm : bool;
    _llm : option Qwen.QwenLLM
  }.

(** [IntentDetector.__init__] *)
Definition init (use_llm : bool) : IntentDetector :=
  {| use_llm := use_llm; _llm := None |}.

Definition with_llm (self : IntentDetector) (l : option Qwen.QwenLLM) : IntentDetector :=
  {| use_llm := use_llm self; _llm := l |}.

(** The [scores] dictionary of [_keyword_detect], keyed by intent type. *)
Definition Scores : Type := list (IntentType * nat).

Fixpoint scores_get (scores : Scores) (t : IntentType) : option nat :=
  match scores with
  | [] => None
  | (t', n) :: rest => if eqb t' t then Some n else scores_get rest t
  end.

Fixpoint scores_set (scores : Scores) (t : IntentType) (n : nat) : Scores :=
  match scores with
  | [] => [(t, n)]
  | (t', n') :: rest =>
      if eqb t' t then (t', n) :: rest else (t', n') :: scores_set rest t n
  end.

(** [max(iterable, key=key)] on a non-empty iterable [first :: rest]: the
    running maximum is replaced only by a strictly greater key. *)
Fixpoint py_max_from {A} (key : A -> option nat) (best : A) (rest : list A) : A :=
  match rest with
  | [] => best
  | x :: xs =>
      match key x, key best with
      | Some kx, Some kb =>
          if (kb <? kx)%nat then py_max_from key x xs else py_max_from key best xs
      | _, _ => py_max_from key best xs
      end
  end.

(** The running maximum over a list of scored keys, the scores given
    with the keys. *)
Fixpoint pairs_max (best : IntentType * nat) (rest : Scores) : IntentType * nat :=
  match rest with
  | [] => best
  | (x, n) :: xs =>
      if (snd best <? n)%nat then pairs_max (x, n) xs else pairs_max best xs
  end.

(** [descriptions.get(intent_type, "General query")] *)
Definition _get_intent_description (intent_type : IntentType) (text : string) : string :=
  match intent_type with
  | GREETING => "User is greeting or starting a conversation"
  | WEATHER => "User is asking about weather or climate"
  | TIME => "User is asking about time or date"
  | REMINDER => "User wants to set a reminder or alarm"
  | CALCULATION => "User wants to perform a calculation"
  | QUESTION => "User is asking a question"
  | COMMAND => "User is giving a command or instruction"
  | GENERAL => "General conversation or query"
  | _ => "General query"
  end.

Definition general_intent (conf : Q) (descr original english : string) : Intent :=
  {| type := GENERAL; confidence := conf; entities := [];
     original_text := original; english_text := english;
     description := descr |}.

Section Methods.
Context {text_ops : PyStr.TextOps}.
Variable W : World.

(** [sum(1 for kw in keywords if kw in text_lower)] *)
Definition score (keywords : list string) (text_lower : string) : nat :=
  List.length (filter (fun kw => PyStr.contains kw text_lower) keywords).

(** The loop of [_keyword_detect] filling [scores]. *)
Definition collect_scores (text_lower : string) : Scores :=
  fold_left
    (fun scores '(intent_type, keywords) =>
       let s := score keywords text_lower in
       if (0 <? s)%nat then scores_set scores intent_type s else scores)
    INTENT_PATTERNS [].

(** [IntentDetector._keyword_detect] *)
Definition _keyword_detect (text : string) : option IntentType :=
  let text_lower := PyStr.lower text in
  let scores := collect_scores text_lower in
  match map fst scores with
  | [] => None
  | first :: rest => Some (py_max_from (scores_get scores) first rest)
  end.

(** *** The scoring rule as the specification words it

    Every category is scored by the number of its trigger keywords that
    occur in the lower-cased text; the category with the highest
    non-zero score wins, and among equal scores the first in [order]. *)

Definition pattern_order : list IntentType := map fst INTENT_PATTERNS.

Definition category_keywords (t : IntentType) : list string :=
  match find (fun '(t', _) => eqb t' t) INTENT_PATTERNS with
  | Some (_, keywords) => keywords
  | None => []
  end.

Definition category_score (text_lower : string) (t : IntentType) : nat :=
  score (category_keywords t) text_lower.

Definition best_category (order : list IntentType) (text_lower : string)
  : option IntentType :=
  let best := list_max (map (category_score text_lower) order) in
  if (best =? 0)%nat then None
  else find (fun t => (category_score text_lower t =? best)%nat) order.

(** The intent type held by the accumulator of the line loop. *)
Definition acc_type (acc : IntentType * PyDict.dict string * string) : IntentType :=
  fst (fst acc).

(** One round of the line loop of [_parse_llm_response]. *)
Definition parse_entities (entities : PyDict.dict string) (entities_str : string)
  : PyDict.dict string :=
  fold_left
    (fun entities pair =>
       if PyStr.contains ":" pair then
         match PyStr.split_once pair ":" with
         | Some (k, v) => PyDict.set entities (PyStr.strip k) (PyStr.strip v)
         | None => entities
         end
       else entities)
    (PyStr.split entities_str ",") entities.

Definition parse_line (acc : IntentType * PyDict.dict string * string) (line : string)
  : IntentType * PyDict.dict string * string :=
  let '(intent_type, entities, description) := acc in
  let line := PyStr.strip line in
  if PyStr.startswith line "INTENT:" then
    let intent_str := PyStr.lower (PyStr.strip (PyStr.replace line "INTENT:" "")) in
    match of_value intent_str with
    | Some t => (t, entities, description)
    | None => (GENERAL, entities, description)
    end
  else if PyStr.startswith line "ENTITIES:" then
    let entities_str := PyStr.strip (PyStr.replace line "ENTITIES:" "") in
    if negb (String.eqb (PyStr.lower entities_str) "none")
    then (intent_type, parse_entities entities entities_str, description)
    else (intent_type, entities, description)
  else if PyStr.startswith line "DESCRIPTION:" then
    (intent_type, entities, PyStr.strip (PyStr.replace line "DESCRIPTION:" ""))
  else acc.

(** [IntentDetector._parse_llm_response] *)
Definition _parse_llm_response (response original_text english_text : string) : Intent :=
  let lines := PyStr.split (PyStr.strip response) newline in
  let '(intent_type, entities, description) :=
    fold_left parse_line lines (GENERAL, ([] : PyDict.dict string), "General query") in
  {| type := intent_type; confidence := 85 # 100; entities := entities;
     original_text := original_text; english_text := english_text;
     description := description |}.

(** A line of the model output that names no member of [IntentType]:
    it is no [INTENT:] line, or its label is not a value of the
    enumeration. *)
Definition unrecognized_line (line : string) : bool :=
  let line := PyStr.strip line in
  if PyStr.startswith line "INTENT:" then
    match of_value (PyStr.lower (PyStr.strip (PyStr.replace line "INTENT:" ""))) with
    | Some _ => false
    | None => true
    end
  else true.

(** A model output with no recognized intent label at all. *)
Definition no_recognized_intent (response : string) : bool :=
  forallb unrecognized_line (PyStr.split (PyStr.strip response) newline).

(** The model handle [_get_llm] answers on a detector that uses the
    model: the one it holds, or the one it constructs. *)
Definition fallback_llm (self : IntentDetector) : Qwen.QwenLLM :=
  match _llm self with
  | Some llm => llm
  | None => Qwen.with_system_prompt INTENT_SYSTEM_PROMPT
              (Qwen.init "1.5b" "cuda" None 10)
  end.

(** The prompt [_llm_detect] sends. *)
Definition classify_prompt (english_text : string) : string :=
  "Classify this user message: " ++ dquote ++ english_text ++ dquote.

(** [IntentDetector._get_llm] *)
Definition _get_llm : M IntentDetector (option Qwen.QwenLLM) :=
  self <- get ;;
  (match _llm self with
   | None =>
       if use_llm self then
         ask (fun tr => import_from W tr "..llm") ;;
         modify (fun self =>
           with_llm self
             (Some (Qwen.with_system_prompt INTENT_SYSTEM_PROMPT
                      (Qwen.init "1.5b" "cuda" None 10))))
       else ret tt
   | Some _ => ret tt
   end) ;;
  self <- get ;;
  ret (_llm self).

(** What the import of [_get_llm] answers, on a detector that uses the
    model: nothing is imported when a model object is held already. *)
Definition model_import (self : IntentDetector) (tr : Trace) : Outcome unit :=
  match _llm self with
  | Some _ => Ok tt
  | None => import_from W tr "..llm"
  end.

(** [IntentDetector._llm_detect] *)
Definition _llm_detect (original_text english_text : string) : M IntentDetector Intent :=
  llm <- _get_llm ;;
  match llm with
  | None => ret (general_intent (5 # 10) "General query" original_text english_text)
  | Some _ =>
      try_except
        (response <-
           on_handle _llm with_llm "chat"
             (Qwen.chat W (classify_prompt english_text) 100 false) ;;
         (* Parse LLM response *)
         ret (_parse_llm_response (Qwen.content response) original_text english_text))
        (fun e =>
           ret (general_intent (5 # 10) "General query" original_text english_text))
  end.

(** [english_text or text] *)
Definition or_text (english_text : option string) (text : string) : string :=
  match english_text with
  | Some e => if PyStr.truthy e then e else text
  | None => text
  end.

(** [IntentDetector.detect] *)
Definition detect (text : string) (english_text : option string)
  : M IntentDetector Intent :=
  (* Use English text for detection if available *)
  let analysis_text :=
    match english_text with
    | Some e => if PyStr.truthy e then PyStr.lower e else PyStr.lower text
    | None => PyStr.lower text
    end in
  (* Try keyword-based detection first *)
  let detected_intent := _keyword_detect analysis_text in
  let fallback : M IntentDetector Intent :=
    self <- get ;;
    if use_llm self then _llm_detect text (or_text english_text text)
    else ret (general_intent (5 # 10) "General conversation or query"
                             text (or_text english_text text)) in
  match detected_intent with
  | Some t =>
      if negb (eqb t UNKNOWN) then
        ret {| type := t; confidence := 8 # 10; entities := [];
               original_text := text;
               english_text := or_text english_text text;
               description := _get_intent_description t analysis_text |}
      else fallback
  | None => fallback
  end.

(** The import a call of [detect] depends on: that of [_get_llm], reached
    when the keyword tier finds nothing on a detector that uses the model. *)
Definition detect_import (text : string) (english_text : option string)
           (self : IntentDetector) (tr : Trace) : Outcome unit :=
  match _keyword_detect (PyStr.lower (or_text english_text text)) with
  | Some _ => Ok tt
  | None => if use_llm self then model_import self tr else Ok tt
  end.

End Methods.

End Intent.

(* ------------------------------------------------------------------ *)
(** ** [pipeline/orchestrator.py]: the pipeline orchestrator *)

Module Pipeline.

(** [PipelineResult] *)
Record PipelineResult : Type := {
    audio_input : option string;
    malayalam_text : string;
    asr_time_ms : Q;
    english_text : string;
    translation_ml_en_time_ms : Q;
    intent_type : string;
    intent_description : string;
    intent_confidence : Q;
    intent_entities : PyDict.dict string;
    english_response : string;
    llm_time_ms : Q;
    malayalam_response : string;
    translation_en_ml_time_ms : Q;
    audio_output : option AudioOut;
    tts_time_ms : Q;
    total_time_ms : Q;
    success : bool;
    error : option string
  }.

(** Assignments [result.<field> = v]. *)
Definition set_malayalam_text (v : string) (r : PipelineResult) : PipelineResult :=
  {| audio_input := audio_input r; malayalam_text := v; asr_time_ms :=
     asr_time_ms r; english_text := english_text r;
     translation_ml_en_time_ms := translation_ml_en_time_ms r; intent_type
     := intent_type r; intent_description := intent_description r;
     intent_confidence := intent_confidence r; intent_entities :=
     intent_entities r; english_response := english_response r;
     llm_time_ms := llm_time_ms r; malayalam_response :=
     malayalam_response r; translation_en_ml_time_ms :=
     translation_en_ml_time_ms r; audio_output := audio_output r;
     tts_time_ms := tts_time_ms r; total_time_ms := total_time_ms r;
     success := success r; error := error r |}.

Definition set_asr_time_ms (v : Q) (r : PipelineResult) : PipelineResult :=
  {| audio_input := audio_input r; malayalam_text := malayalam_text r;
     asr_time_ms := v; english_text := english_text r;
     translation_ml_en_time_ms := translation_ml_en_time_ms r; intent_type
     := intent_type r; intent_description := intent_description r;
     intent_confidence := intent_confidence r; intent_entities :=
     intent_entities r; english_response := english_response r;
     llm_time_ms := llm_time_ms r; malayalam_response :=
     malayalam_response r; translation_en_ml_time_ms :=
     translation_en_ml_time_ms r; audio_output := audio_output r;
     tts_time_ms := tts_time_ms r; total_time_ms := total_time_ms r;
     success := success r; error := error r |}.

Definition set_english_text (v : string) (r : PipelineResult) : PipelineResult :=
  {| audio_input := audio_input r; malayalam_text := malayalam_text r;
     asr_time_ms := asr_time_ms r; english_text := v;
     translation_ml_en_time_ms := translation_ml_en_time_ms r; intent_type
     := intent_type r; intent_description := intent_description r;
     intent_confidence := intent_confidence r; intent_entities :=
     intent_entities r; english_response := english_response r;
     llm_time_ms := llm_time_ms r; malayalam_response :=
     malayalam_response r; translation_en_ml_time_ms :=
     translation_en_ml_time_ms r; audio_output := audio_output r;
     tts_time_ms := tts_time_ms r; total_time_ms := total_time_ms r;
     success := success r; error := error r |}.

Definition set_translation_ml_en_time_ms (v : Q) (r : PipelineResult) : PipelineResult :=
  {| audio_input := audio_input r; malayalam_text := malayalam_text r;
     asr_time_ms := asr_time_ms r; english_text := english_text r;
     translation_ml_en_time_ms := v; intent_type := intent_type r;
     intent_description := intent_description r; intent_confidence :=
     intent_confidence r; intent_entities := intent_entities r;
     english_response := english_response r; llm_time_ms := llm_time_ms r;
     malayalam_response := malayalam_response r; translation_en_ml_time_ms
     := translation_en_ml_time_ms r; audio_output := audio_output r;
     tts_time_ms := tts_time_ms r; total_time_ms := total_time_ms r;
     success := success r; error := error r |}.

Definition set_intent_type (v : string) (r : PipelineResult) : PipelineResult :=
  {| audio_input := audio_input r; malayalam_text := malayalam_text r;
     asr_time_ms := asr_time_ms r; english_text := english_text r;
     translation_ml_en_time_ms := translation_ml_en_time_ms r; intent_type
     := v; intent_description := intent_description r; intent_confidence
     := intent_confidence r; intent_entities := intent_entities r;
     english_response := english_response r; llm_time_ms := llm_time_ms r;
     malayalam_response := malayalam_response r; translation_en_ml_time_ms
     := translation_en_ml_time_ms r; audio_output := audio_output r;
     tts_time_ms := tts_time_ms r; total_time_ms := total_time_ms r;
     success := success r; error := error r |}.

Definition set_intent_description (v : string) (r : PipelineResult) : PipelineResult :=
  {| audio_input := audio_input r; malayalam_text := malayalam_text r;
     asr_time_ms := asr_time_ms r; english_text := english_text r;
     translation_ml_en_time_ms := translation_ml_en_time_ms r; intent_type
     := intent_type r; intent_description := v; intent_confidence :=
     intent_confidence r; intent_entities := intent_entities r;
     english_response := english_response r; llm_time_ms := llm_time_ms r;
     malayalam_response := malayalam_response r; translation_en_ml_time_ms
     := translation_en_ml_time_ms r; audio_output := audio_output r;
     tts_time_ms := tts_time_ms r; total_time_ms := total_time_ms r;
     success := success r; error := error r |}.

Definition set_intent_confidence (v : Q) (r : PipelineResult) : PipelineResult :=
  {| audio_input := audio_input r; malayalam_text := malayalam_text r;
     asr_time_ms := asr_time_ms r; english_text := english_text r;
     translation_ml_en_time_ms := translation_ml_en_time_ms r; intent_type
     := intent_type r; intent_description := intent_description r;
     intent_confidence := v; intent_entities := intent_entities r;
     english_response := english_response r; llm_time_ms := llm_time_ms r;
     malayalam_response := malayalam_response r; translation_en_ml_time_ms
     := translation_en_ml_time_ms r; audio_output := audio_output r;
     tts_time_ms := tts_time_ms r; total_time_ms := total_time_ms r;
     success := success r; error := error r |}.

Definition set_intent_entities (v : PyDict.dict string) (r : PipelineResult) : PipelineResult :=
  {| audio_input := audio_input r; malayalam_text := malayalam_text r;
     asr_time_ms := asr_time_ms r; english_text := english_text r;
     translation_ml_en_time_ms := translation_ml_en_time_ms r; intent_type
     := intent_type r; intent_description := intent_description r;
     intent_confidence := intent_confidence r; intent_entities := v;
     english_response := english_response r; llm_time_ms := llm_time_ms r;
     malayalam_response := malayalam_response r; translation_en_ml_time_ms
     := translation_en_ml_time_ms r; audio_output := audio_output r;
     tts_time_ms := tts_time_ms r; total_time_ms := total_time_ms r;
     success := success r; error := error r |}.

Definition set_english_response (v : string) (r : PipelineResult) : PipelineResult :=
  {| audio_input := audio_input r; malayalam_text := malayalam_text r;
     asr_time_ms := asr_time_ms r; english_text := english_text r;
     translation_ml_en_time_ms := translation_ml_en_time_ms r; intent_type
     := intent_type r; intent_description := intent_description r;
     intent_confidence := intent_confidence r; intent_entities :=
     intent_entities r; english_response := v; llm_time_ms := llm_time_ms
     r; malayalam_response := malayalam_response r;
     translation_en_ml_time_ms := translation_en_ml_time_ms r;
     audio_output := audio_output r; tts_time_ms := tts_time_ms r;
     total_time_ms := total_time_ms r; success := success r; error :=
     error r |}.

Definition set_llm_time_ms (v : Q) (r : PipelineResult) : PipelineResult :=
  {| audio_input := audio_input r; malayalam_text := malayalam_text r;
     asr_time_ms := asr_time_ms r; english_text := english_text r;
     translation_ml_en_time_ms := translation_ml_en_time_ms r; intent_type
     := intent_type r; intent_description := intent_description r;
     intent_confidence := intent_confidence r; intent_entities :=
     intent_entities r; english_response := english_response r;
     llm_time_ms := v; malayalam_response := malayalam_response r;
     translation_en_ml_time_ms := translation_en_ml_time_ms r;
     audio_output := audio_output r; tts_time_ms := tts_time_ms r;
     total_time_ms := total_time_ms r; success := success r; error :=
     error r |}.

Definition set_malayalam_response (v : string) (r : PipelineResult) : PipelineResult :=
  {| audio_input := audio_input r; malayalam_text := malayalam_text r;
     asr_time_ms := asr_time_ms r; english_text := english_text r;
     translation_ml_en_time_ms := translation_ml_en_time_ms r; intent_type
     := intent_type r; intent_description := intent_description r;
     intent_confidence := intent_confidence r; intent_entities :=
     intent_entities r; english_response := english_response r;
     llm_time_ms := llm_time_ms r; malayalam_response := v;
     translation_en_ml_time_ms := translation_en_ml_time_ms r;
     audio_output := audio_output r; tts_time_ms := tts_time_ms r;
     total_time_ms := total_time_ms r; success := success r; error :=
     error r |}.

Definition set_translation_en_ml_time_ms (v : Q) (r : PipelineResult) : PipelineResult :=
  {| audio_input := audio_input r; malayalam_text := malayalam_text r;
     asr_time_ms := asr_time_ms r; english_text := english_text r;
     translation_ml_en_time_ms := translation_ml_en_time_ms r; intent_type
     := intent_type r; intent_description := intent_description r;
     intent_confidence := intent_confidence r; intent_entities :=
     intent_entities r; english_response := english_response r;
     llm_time_ms := llm_time_ms r; malayalam_response :=
     malayalam_response r; translation_en_ml_time_ms := v; audio_output :=
     audio_output r; tts_time_ms := tts_time_ms r; total_time_ms :=
     total_time_ms r; success := success r; error := error r |}.

Definition set_audio_output (v : option AudioOut) (r : PipelineResult) : PipelineResult :=
  {| audio_input := audio_input r; malayalam_text := malayalam_text r;
     asr_time_ms := asr_time_ms r; english_text := english_text r;
     translation_ml_en_time_ms := translation_ml_en_time_ms r; intent_type
     := intent_type r; intent_description := intent_description r;
     intent_confidence := intent_confidence r; intent_entities :=
     intent_entities r; english_response := english_response r;
     llm_time_ms := llm_time_ms r; malayalam_response :=
     malayalam_response r; translation_en_ml_time_ms :=
     translation_en_ml_time_ms r; audio_output := v; tts_time_ms :=
     tts_time_ms r; total_time_ms := total_time_ms r; success := success
     r; error := error r |}.

Definition set_tts_time_ms (v : Q) (r : PipelineResult) : PipelineResult :=
  {| audio_input := audio_input r; malayalam_text := malayalam_text r;
     asr_time_ms := asr_time_ms r; english_text := english_text r;
     translation_ml_en_time_ms := translation_ml_en_time_ms r; intent_type
     := intent_type r; intent_description := intent_description r;
     intent_confidence := intent_confidence r; intent_entities :=
     intent_entities r; english_response := english_response r;
     llm_time_ms := llm_time_ms r; malayalam_response :=
     malayalam_response r; translation_en_ml_time_ms :=
     translation_en_ml_time_ms r; audio_output := audio_output r;
     tts_time_ms := v; total_time_ms := total_time_ms r; success :=
     success r; error := error r |}.

Definition set_total_time_ms (v : Q) (r : PipelineResult) : PipelineResult :=
  {| audio_input := audio_input r; malayalam_text := malayalam_text r;
     asr_time_ms := asr_time_ms r; english_text := english_text r;
     translation_ml_en_time_ms := translation_ml_en_time_ms r; intent_type
     := intent_type r; intent_description := intent_description r;
     intent_confidence := intent_confidence r; intent_entities :=
     intent_entities r; english_response := english_response r;
     llm_time_ms := llm_time_ms r; malayalam_response :=
     malayalam_response r; translation_en_ml_time_ms :=
     translation_en_ml_time_ms r; audio_output := audio_output r;
     tts_time_ms := tts_time_ms r; total_time_ms := v; success := success
     r; error := error r |}.

Definition set_success (v : bool) (r : PipelineResult) : PipelineResult :=
  {| audio_input := audio_input r; malayalam_text := malayalam_text r;
     asr_time_ms := asr_time_ms r; english_text := english_text r;
     translation_ml_en_time_ms := translation_ml_en_time_ms r; intent_type
     := intent_type r; intent_description := intent_description r;
     intent_confidence := intent_confidence r; intent_entities :=
     intent_entities r; english_response := english_response r;
     llm_time_ms := llm_time_ms r; malayalam_response :=
     malayalam_response r; translation_en_ml_time_ms :=
     translation_en_ml_time_ms r; audio_output := audio_output r;
     tts_time_ms := tts_time_ms r; total_time_ms := total_time_ms r;
     success := v; error := error r |}.

Definition set_error (v : option string) (r : PipelineResult) : PipelineResult :=
  {| audio_input := audio_input r; malayalam_text := malayalam_text r;
     asr_time_ms := asr_time_ms r; english_text := english_text r;
     translation_ml_en_time_ms := translation_ml_en_time_ms r; intent_type
     := intent_type r; intent_description := intent_description r;
     intent_confidence := intent_confidence r; intent_entities :=
     intent_entities r; english_response := english_response r;
     llm_time_ms := llm_time_ms r; malayalam_response :=
     malayalam_response r; translation_en_ml_time_ms :=
     translation_en_ml_time_ms r; audio_output := audio_output r;
     tts_time_ms := tts_time_ms r; total_time_ms := total_time_ms r;
     success := success r; error := v |}.

(** [PipelineResult(audio_input=audio_path)]: every other field at its
    declared default. *)
Definition new_result (audio_path : option string) : PipelineResult :=
  {| audio_input := audio_path;
     malayalam_text := ""; asr_time_ms := 0;
     english_text := ""; translation_ml_en_time_ms := 0;
     intent_type := ""; intent_description := ""; intent_confidence := 0;
     intent_entities := [];
     english_response := ""; llm_time_ms := 0;
     malayalam_response := ""; translation_en_ml_time_ms := 0;
     audio_output := None; tts_time_ms := 0;
     total_time_ms := 0; success := true; error := None |}.

(** Handles of the external engines: what their constructors store. *)
Record WhisperASR : Type := { whisper_model_size : string; whisper_device : string }.
Record IndicTranslator : Type := { translator_device : string }.
Record TTSEngine : Type := { backend : string; tts_device : string }.

(** What [self._intent_detector] refers to: the repository's
    [IntentDetector], or any other object with a [detect] method that was
    put in the attribute (a test double, for one). *)
Inductive Detector : Type :=
  | RepoDetector (d : Intent.IntentDetector)
  | OtherDetector (answer : Trace -> string -> string -> Outcome Intent.Intent).

Record VoiceAssistantPipeline : Type := {
    asr_engine : string;
    asr_model_size : string;
    llm_model_size : string;
    tts_engine : string;
    device : string;
    detect_intent : bool;
    _asr : option WhisperASR;
    _translator : option IndicTranslator;
    _llm : option Qwen.QwenLLM;
    _tts : option TTSEngine;
    _intent_detector : option Detector
  }.

(** [VoiceAssistantPipeline.__init__] *)
Definition init (asr_engine asr_model_size llm_model_size tts_engine device : string)
           (detect_intent : bool) : VoiceAssistantPipeline :=
  {| asr_engine := asr_engine; asr_model_size := asr_model_size;
     llm_model_size := llm_model_size; tts_engine := tts_engine;
     device := device; detect_intent := detect_intent;
     _asr := None; _translator := None; _llm := None; _tts := None;
     _intent_detector := None |}.

(** The constructor with its default arguments. *)
Definition init_default (detect_intent : bool) : VoiceAssistantPipeline :=
  init "whisper" "base" "1.5b" "mms" "cuda" detect_intent.

Definition set_asr (p : VoiceAssistantPipeline) (h : option WhisperASR) :=
  {| asr_engine := asr_engine p; asr_model_size := asr_model_size p;
     llm_model_size := llm_model_size p; tts_engine := tts_engine p;
     device := device p; detect_intent := detect_intent p;
     _asr := h; _translator := _translator p; _llm := _llm p; _tts := _tts p;
     _intent_detector := _intent_detector p |}.

Definition set_translator (p : VoiceAssistantPipeline) (h : option IndicTranslator) :=
  {| asr_engine := asr_engine p; asr_model_size := asr_model_size p;
     llm_model_size := llm_model_size p; tts_engine := tts_engine p;
     device := device p; detect_intent := detect_intent p;
     _asr := _asr p; _translator := h; _llm := _llm p; _tts := _tts p;
     _intent_detector := _intent_detector p |}.

Definition set_llm (p : VoiceAssistantPipeline) (h : option Qwen.QwenLLM) :=
  {| asr_engine := asr_engine p; asr_model_size := asr_model_size p;
     llm_model_size := llm_model_size p; tts_engine := tts_engine p;
     device := device p; detect_intent := detect_intent p;
     _asr := _asr p; _translator := _translator p; _llm := h; _tts := _tts p;
     _intent_detector := _intent_detector p |}.

Definition set_tts (p : VoiceAssistantPipeline) (h : option TTSEngine) :=
  {| asr_engine := asr_engine p; asr_model_size := asr_model_size p;
     llm_model_size := llm_model_size p; tts_engine := tts_engine p;
     device := device p; detect_intent := detect_intent p;
     _asr := _asr p; _translator := _translator p; _llm := _llm p; _tts := h;
     _intent_detector := _intent_detector p |}.

Definition set_intent_detector (p : VoiceAssistantPipeline) (h : option Detector) :=
  {| asr_engine := asr_engine p; asr_model_size := asr_model_size p;
     llm_model_size := llm_model_size p; tts_engine := tts_engine p;
     device := device p; detect_intent := detect_intent p;
     _asr := _asr p; _translator := _translator p; _llm := _llm p; _tts := _tts p;
     _intent_detector := h |}.

Definition VOICE_SYSTEM_PROMPT : string :=
"You are a helpful voice assistant that speaks Malayalam. You provide concise, friendly responses suitable for spoken conversation. Keep responses brief (1-3 sentences) and natural. Respond in English - your response will be translated to Malayalam.

You can help with:
- Answering questions
- Providing information
- Casual conversation
- Simple tasks

Be conversational and helpful.".

(** The running call of [process]: the orchestrator and the local
    [result] it fills. *)
Record Frame : Type := { self : VoiceAssistantPipeline; result : PipelineResult }.

Definition set_self (f : Frame) (p : VoiceAssistantPipeline) : Frame :=
  {| self := p; result := result f |}.

(** Truth value of an object attribute: [None] is false, any engine or
    detector object is true. *)
Definition is_set {A} (h : option A) : bool :=
  match h with Some _ => true | None => false end.

Definition assign (upd : PipelineResult -> PipelineResult) : M Frame unit :=
  modify (fun f => {| self := self f; result := upd (result f) |}).

(** The stages of [process], in the order of the source. *)
Inductive Stage : Type :=
  | ASR | TranslateIn | IntentDetection | LLM | TranslateOut | TTS.

Definition all_stages : list Stage :=
  [ASR; TranslateIn; IntentDetection; LLM; TranslateOut; TTS].

Definition stages_before (k : Stage) : list Stage :=
  match k with
  | ASR => []
  | TranslateIn => [ASR]
  | IntentDetection => [ASR; TranslateIn]
  | LLM => [ASR; TranslateIn; IntentDetection]
  | TranslateOut => [ASR; TranslateIn; IntentDetection; LLM]
  | TTS => [ASR; TranslateIn; IntentDetection; LLM; TranslateOut]
  end.

Definition stages_from (k : Stage) : list Stage :=
  match k with
  | ASR => [ASR; TranslateIn; IntentDetection; LLM; TranslateOut; TTS]
  | TranslateIn => [TranslateIn; IntentDetection; LLM; TranslateOut; TTS]
  | IntentDetection => [IntentDetection; LLM; TranslateOut; TTS]
  | LLM => [LLM; TranslateOut; TTS]
  | TranslateOut => [TranslateOut; TTS]
  | TTS => [TTS]
  end.

(** The fields of the record a stage writes: [same_fields k r1 r2] says
    that [r1] and [r2] agree on the fields of stage [k]. *)
Definition same_fields (k : Stage) (r1 r2 : PipelineResult) : Prop :=
  match k with
  | ASR =>
      malayalam_text r1 = malayalam_text r2 /\ asr_time_ms r1 = asr_time_ms r2
  | TranslateIn =>
      english_text r1 = english_text r2
      /\ translation_ml_en_time_ms r1 = translation_ml_en_time_ms r2
  | IntentDetection =>
      intent_type r1 = intent_type r2
      /\ intent_description r1 = intent_description r2
      /\ intent_confidence r1 = intent_confidence r2
      /\ intent_entities r1 = intent_entities r2
  | LLM =>
      english_response r1 = english_response r2 /\ llm_time_ms r1 = llm_time_ms r2
  | TranslateOut =>
      malayalam_response r1 = malayalam_response r2
      /\ translation_en_ml_time_ms r1 = translation_en_ml_time_ms r2
  | TTS =>
      audio_output r1 = audio_output r2 /\ tts_time_ms r1 = tts_time_ms r2
  end.

(** The fields no stage writes. *)
Definition same_status (r1 r2 : PipelineResult) : Prop :=
  audio_input r1 = audio_input r2 /\ total_time_ms r1 = total_time_ms r2
  /\ success r1 = success r2 /\ error r1 = error r2.

(** Calls to the translation engine: any, and those from Malayalam to
    English ([ml_to_en]). *)
Definition is_translation (c : Call) : bool :=
  match c with
  | CTranslate _ _ _ => true
  | _ => false
  end.

Definition is_ml_to_en (c : Call) : bool :=
  match c with
  | CTranslate _ source_lang target_lang =>
      String.eqb source_lang "ml" && String.eqb target_lang "en"
  | _ => false
  end.

(** The error field holds a non-empty text. *)
Definition error_nonempty (r : PipelineResult) : bool :=
  match error r with
  | Some msg => PyStr.truthy msg
  | None => false
  end.

(** The configuration of an orchestrator, as [__init__] stores it. *)
Definition same_config (p p' : VoiceAssistantPipeline) : Prop :=
  asr_engine p' = asr_engine p /\ asr_model_size p' = asr_model_size p /\
  llm_model_size p' = llm_model_size p /\ tts_engine p' = tts_engine p /\
  device p' = device p /\ detect_intent p' = detect_intent p.

(** [grows p p']: the configuration is the same and every handle that is
    set in [p] is set in [p']. *)
Definition grows (p p' : VoiceAssistantPipeline) : Prop :=
  same_config p p' /\
  (is_set (_asr p) = true -> is_set (_asr p') = true) /\
  (is_set (_translator p) = true -> is_set (_translator p') = true) /\
  (is_set (_llm p) = true -> is_set (_llm p') = true) /\
  (is_set (_tts p) = true -> is_set (_tts p') = true) /\
  (is_set (_intent_detector p) = true -> is_set (_intent_detector p') = true).

(** The five durations of the stages and the overall one are not negative. *)
Definition times_nonneg (r : PipelineResult) : Prop :=
  (0 <= asr_time_ms r /\ 0 <= translation_ml_en_time_ms r /\ 0 <= llm_time_ms r /\
   0 <= translation_en_ml_time_ms r /\ 0 <= tts_time_ms r)%Q.

(** A clock that never runs backwards. *)
Definition monotone_clock (W : World) : Prop :=
  forall tr new, (perf_counter W tr <= perf_counter W (tr ++ new))%Q.

(** The history and the bound of the model object, if there is one; a
    model object made by [_load_llm] starts empty, with the default
    bound. *)
Definition history_of (p : VoiceAssistantPipeline) : list Message :=
  match _llm p with Some m => Qwen.conversation_history m | None => [] end.

Definition bound_of (p : VoiceAssistantPipeline) : Z :=
  match _llm p with Some m => Qwen.max_memory_messages m | None => 10%Z end.

Section Methods.
Context {text_ops : PyStr.TextOps}.
Variable W : World.

(** *** Engine methods the orchestrator calls *)

(** [WhisperASR.load_model] *)
Definition whisper_load_model : M WhisperASR unit :=
  h <- get ;;
  call (CWhisperLoad (whisper_model_size h) (whisper_device h))
       (fun tr => whisper_load W tr (whisper_model_size h) (whisper_device h)).

(** [WhisperASR.transcribe(audio)["text"]] *)
Definition transcribe_text (audio : string) : M WhisperASR string :=
  call (CTranscribe audio) (fun tr => whisper_transcribe W tr audio).

(** [IndicTranslator.load_models] *)
Definition load_models (directions : list string) : M IndicTranslator unit :=
  call (CTranslatorLoad directions) (fun tr => translator_load W tr directions).

(** [IndicTranslator.translate] *)
Definition translate (text source_lang target_lang : string) : M IndicTranslator string :=
  call (CTranslate text source_lang target_lang)
       (fun tr => translator_translate W tr text source_lang target_lang).

(** [IndicTranslator.ml_to_en] and [IndicTranslator.en_to_ml] *)
Definition ml_to_en (text : string) : M IndicTranslator string := translate text "ml" "en".
Definition en_to_ml (text : string) : M IndicTranslator string := translate text "en" "ml".

(** [TTSEngine.synthesize(...).audio] *)
Definition synthesize_audio (text language : string) (output_path : option string)
  : M TTSEngine AudioOut :=
  call (CSynthesize text language output_path)
       (fun tr => tts_synthesize W tr text language output_path).

(** [detect] on whatever the detector attribute holds. *)
Definition detector_detect (text english_text : string) : M Detector Intent.Intent :=
  fun d tr =>
    match d with
    | RepoDetector det =>
        match Intent.detect W text (Some english_text) det tr with
        | (r, det', tr') => (r, RepoDetector det', tr')
        end
    | OtherDetector answer =>
        (answer tr text english_text, d, tr ++ [CDetect text english_text])
    end.

(** *** Lazy loaders *)

(** [_load_asr] *)
Definition _load_asr : M VoiceAssistantPipeline unit :=
  p <- get ;;
  match _asr p with
  | Some _ => ret tt
  | None =>
      if String.eqb (asr_engine p) "whisper" then
        ask (fun tr => import_from W tr "..asr") ;;
        modify (fun p =>
          set_asr p (Some {| whisper_model_size := asr_model_size p;
                             whisper_device := device p |})) ;;
        on_handle _asr set_asr "load_model" whisper_load_model
      else raise ("Unknown ASR engine: " ++ asr_engine p)
  end.

(** [_load_translator] *)
Definition _load_translator : M VoiceAssistantPipeline unit :=
  p <- get ;;
  match _translator p with
  | Some _ => ret tt
  | None =>
      ask (fun tr => import_from W tr "..translation") ;;
      modify (fun p => set_translator p (Some {| translator_device := device p |})) ;;
      (* Pre-load both directions *)
      on_handle _translator set_translator "load_models"
                (load_models ["indic-en"; "en-indic"])
  end.

(** [_load_llm] *)
Definition _load_llm : M VoiceAssistantPipeline unit :=
  p <- get ;;
  match _llm p with
  | Some _ => ret tt
  | None =>
      ask (fun tr => import_from W tr "..llm") ;;
      modify (fun p => set_llm p (Some (Qwen.init (llm_model_size p) (device p) None 10))) ;;
      on_handle _llm set_llm "set_system_prompt"
                (Qwen.set_system_prompt VOICE_SYSTEM_PROMPT) ;;
      on_handle _llm set_llm "load_model" (Qwen.load_model W)
  end.

(** [_load_tts] *)
Definition _load_tts : M VoiceAssistantPipeline unit :=
  p <- get ;;
  match _tts p with
  | Some _ => ret tt
  | None =>
      ask (fun tr => import_from W tr "..tts") ;;
      modify (fun p => set_tts p (Some {| backend := tts_engine p; tts_device := device p |}))
  end.

(** [_load_intent_detector] *)
Definition _load_intent_detector : M VoiceAssistantPipeline unit :=
  p <- get ;;
  match _intent_detector p with
  | Some _ => ret tt
  | None =>
      (* Use keyword-based for speed *)
      modify (fun p => set_intent_detector p (Some (RepoDetector (Intent.init false))))
  end.

(** [load_components] (the progress messages are not modelled) *)
Definition load_components : M VoiceAssistantPipeline unit :=
  _load_asr ;;
  _load_translator ;;
  _load_llm ;;
  _load_tts ;;
  p <- get ;;
  (if detect_intent p then _load_intent_detector else ret tt).

(** *** The six stages of [process], as the source marks them *)

Definition on_self {A} (m : M VoiceAssistantPipeline A) : M Frame A :=
  zoom self set_self m.

(** Stage 1: ASR (if audio provided) *)
Definition stage_asr (audio_path text_input : option string) : M Frame unit :=
  if PyStr.truthy_opt audio_path then
    start <- clock W ;;
    on_self _load_asr ;;
    asr_text <- on_self (on_handle _asr set_asr "transcribe"
                           (transcribe_text (PyStr.the audio_path))) ;;
    assign (set_malayalam_text asr_text) ;;
    now <- clock W ;;
    assign (set_asr_time_ms (elapsed_ms start now))
  else if PyStr.truthy_opt text_input then
    assign (set_malayalam_text (PyStr.the text_input)) ;;
    assign (set_asr_time_ms 0)
  else raise "Either audio_path or text_input must be provided".

(** Stage 2: Translate ML -> EN (if input is Malayalam) *)
Definition stage_translate_in (input_language : string) : M Frame unit :=
  if String.eqb input_language "ml" then
    start <- clock W ;;
    on_self _load_translator ;;
    f <- get ;;
    en <- on_self (on_handle _translator set_translator "ml_to_en"
                             (ml_to_en (malayalam_text (result f)))) ;;
    assign (set_english_text en) ;;
    now <- clock W ;;
    assign (set_translation_ml_en_time_ms (elapsed_ms start now))
  else
    f <- get ;;
    assign (set_english_text (malayalam_text (result f))) ;;
    assign (set_translation_ml_en_time_ms 0).

(** Stage 3: Intent Detection *)
Definition stage_intent : M Frame unit :=
  f <- get ;;
  if detect_intent (self f) && is_set (_intent_detector (self f)) then
    f <- get ;;
    (if negb (is_set (_intent_detector (self f))) then
       on_self (modify (fun p =>
         set_intent_detector p (Some (RepoDetector (Intent.init false)))))
     else ret tt) ;;
    f <- get ;;
    intent <- on_self (on_handle _intent_detector set_intent_detector "detect"
                         (detector_detect (malayalam_text (result f))
                                          (english_text (result f)))) ;;
    assign (set_intent_type (Intent.value (Intent.type intent))) ;;
    assign (set_intent_description (Intent.description intent)) ;;
    assign (set_intent_confidence (Intent.confidence intent)) ;;
    assign (set_intent_entities (Intent.entities intent))
  else ret tt.

(** Stage 4: LLM Response *)
Definition stage_llm : M Frame unit :=
  start <- clock W ;;
  on_self _load_llm ;;
  f <- get ;;
  llm_response <- on_self (on_handle _llm set_llm "chat"
                             (Qwen.chat W (english_text (result f)) 256 true)) ;;
  assign (set_english_response (Qwen.content llm_response)) ;;
  now <- clock W ;;
  assign (set_llm_time_ms (elapsed_ms start now)).

(** Stage 5: Translate EN -> ML *)
Definition stage_translate_out : M Frame unit :=
  start <- clock W ;;
  on_self _load_translator ;;
  f <- get ;;
  ml <- on_self (on_handle _translator set_translator "en_to_ml"
                           (en_to_ml (english_response (result f)))) ;;
  assign (set_malayalam_response ml) ;;
  now <- clock W ;;
  assign (set_translation_en_ml_time_ms (elapsed_ms start now)).

(** Stage 6: TTS *)
Definition stage_tts (output_audio_path : option string) : M Frame unit :=
  start <- clock W ;;
  on_self _load_tts ;;
  f <- get ;;
  audio <- on_self (on_handle _tts set_tts "synthesize"
                      (synthesize_audio (malayalam_response (result f)) "ml"
                                        output_audio_path)) ;;
  assign (set_audio_output (Some audio)) ;;
  now <- clock W ;;
  assign (set_tts_time_ms (elapsed_ms start now)).

(** The body of the [try] block of [process]. *)
Definition process_body (audio_path text_input : option string)
           (input_language : string) (output_audio_path : option string)
  : M Frame unit :=
  stage_asr audio_path text_input ;;
  stage_translate_in input_language ;;
  stage_intent ;;
  stage_llm ;;
  stage_translate_out ;;
  stage_tts output_audio_path ;;
  assign (set_success true).

Definition run_stage (audio_path text_input : option string)
           (input_language : string) (output_audio_path : option string)
           (k : Stage) : M Frame unit :=
  match k with
  | ASR => stage_asr audio_path text_input
  | TranslateIn => stage_translate_in input_language
  | IntentDetection => stage_intent
  | LLM => stage_llm
  | TranslateOut => stage_translate_out
  | TTS => stage_tts output_audio_path
  end.

Fixpoint run_stages (audio_path text_input : option string)
         (input_language : string) (output_audio_path : option string)
         (ks : list Stage) : M Frame unit :=
  match ks with
  | [] => ret tt
  | k :: rest =>
      run_stage audio_path text_input input_language output_audio_path k ;;
      run_stages audio_path text_input input_language output_audio_path rest
  end.

(** [process], from the creation of [result] to [return result]. *)
Definition process_frame (audio_path text_input : option string)
           (input_language : string) (output_audio_path : option string)
  : M Frame PipelineResult :=
  total_start <- clock W ;;
  try_except
    (process_body audio_path text_input input_language output_audio_path)
    (fun e =>
       assign (set_success false) ;;
       assign (set_error (Some e))) ;;
  now <- clock W ;;
  assign (set_total_time_ms (elapsed_ms total_start now)) ;;
  f <- get ;;
  ret (result f).

(** [VoiceAssistantPipeline.process] *)
Definition process (audio_path text_input : option string)
           (input_language : string) (output_audio_path : option string)
  : M VoiceAssistantPipeline PipelineResult :=
  fun p tr =>
    match process_frame audio_path text_input input_language output_audio_path
                        {| self := p; result := new_result audio_path |} tr with
    | (r, f, tr') => (r, self f, tr')
    end.

(** [VoiceAssistantPipeline.process_text] *)
Definition process_text (text : string) (input_language : string)
           (output_audio_path : option string)
  : M VoiceAssistantPipeline PipelineResult :=
  process None (Some text) input_language output_audio_path.

(** [VoiceAssistantPipeline.clear_conversation] *)
Definition clear_conversation : M VoiceAssistantPipeline unit :=
  p <- get ;;
  match _llm p with
  | Some _ => on_handle _llm set_llm "clear_history" Qwen.clear_history
  | None => ret tt
  end.

End Methods.

End Pipeline.

(* ------------------------------------------------------------------ *)
(** ** [agents/orchestrator.py]: the agent graph *)

Module Agents.

(** The fragment a handler stores under its name: a dictionary whose keys
    are among [response], [sources] and [task_created]. *)
Record AgentOutput : Type := {
    response : option string;
    sources : option (list string);
    task_created : option bool
  }.

(** [AgentState] *)
Record AgentState : Type := {
    user_input : string;
    language : string;
    intent : option string;
    entities : list (PyDict.dict string);
    agent_outputs : PyDict.dict AgentOutput;
    final_response : option string;
    error : option string
  }.

(** [IntentType] of this module. *)
Inductive IntentType : Type :=
  | INFORMATION_QUERY | TASK_MANAGEMENT | SMART_HOME | GENERAL_CHAT | UNKNOWN.

Definition value (t : IntentType) : string :=
  match t with
  | INFORMATION_QUERY => "information_query"
  | TASK_MANAGEMENT => "task_management"
  | SMART_HOME => "smart_home"
  | GENERAL_CHAT => "general_chat"
  | UNKNOWN => "unknown"
  end.

Definition set_intent (i : option string) (st : AgentState) : AgentState :=
  {| user_input := user_input st; language := language st; intent := i;
     entities := entities st; agent_outputs := agent_outputs st;
     final_response := final_response st; error := error st |}.

Definition set_agent_outputs (o : PyDict.dict AgentOutput) (st : AgentState) : AgentState :=
  {| user_input := user_input st; language := language st; intent := intent st;
     entities := entities st; agent_outputs := o;
     final_response := final_response st; error := error st |}.

Definition set_final_response (r : option string) (st : AgentState) : AgentState :=
  {| user_input := user_input st; language := language st; intent := intent st;
     entities := entities st; agent_outputs := agent_outputs st;
     final_response := r; error := error st |}.

(** The nodes added to the workflow in [setup]. *)
Inductive Node : Type :=
  | intent_classifier | info_agent | task_agent | chat_agent | response_generator.

Definition node_name (n : Node) : string :=
  match n with
  | intent_classifier => "intent_classifier"
  | info_agent => "info_agent"
  | task_agent => "task_agent"
  | chat_agent => "chat_agent"
  | response_generator => "response_generator"
  end.

(** The compiled workflow: the table of its conditional edges (its other
    edges all lead to [response_generator], then to the end). *)
Record CompiledGraph : Type := { routes : PyDict.dict Node }.

Record AgentOrchestrator : Type := { graph : option CompiledGraph }.

(** [AgentOrchestrator.__init__] *)
Definition init : AgentOrchestrator := {| graph := None |}.

(** What [process] returns. *)
Record Reply : Type := {
    reply_response : option string;
    reply_intent : option string;
    reply_language : string
  }.

Definition FALLBACK_RESPONSE : string := "I couldn't process your request.".

Section Methods.
Context {text_ops : PyStr.TextOps}.

(** What the graph runtime does when the router names a key that the
    table of conditional edges does not hold (the runtime is not part of
    the repository). *)
Variable unrouted : option string -> AgentState -> Outcome AgentState.

(** [any(word in user_input for word in words)] *)
Definition any_in (words : list string) (user_input : string) : bool :=
  existsb (fun word => PyStr.contains word user_input) words.

(** [_classify_intent] *)
Definition _classify_intent (state : AgentState) : AgentState :=
  let user_input := PyStr.lower (user_input state) in
  let intent :=
    if any_in ["what"; "who"; "where"; "when"; "how"; "why"; "tell me"] user_input
    then value INFORMATION_QUERY
    else if any_in ["remind"; "schedule"; "task"; "todo"; "calendar"] user_input
    then value TASK_MANAGEMENT
    else if any_in ["light"; "fan"; "ac"; "door"; "temperature"] user_input
    then value SMART_HOME
    else value GENERAL_CHAT in
  set_intent (Some intent) state.

(** [_route_to_agent]: the key [intent] is always present in the state,
    so [state.get] answers its value. *)
Definition _route_to_agent (state : AgentState) : option string := intent state.

(** [_run_info_agent] *)
Definition _run_info_agent (state : AgentState) : AgentState :=
  let response := ("[Info Agent] Processing query: " ++ user_input state)%string in
  set_agent_outputs
    (PyDict.set (agent_outputs state) "info_agent"
       {| response := Some response; sources := Some []; task_created := None |})
    state.

(** [_run_task_agent] *)
Definition _run_task_agent (state : AgentState) : AgentState :=
  let response := ("[Task Agent] Processing task request: " ++ user_input state)%string in
  set_agent_outputs
    (PyDict.set (agent_outputs state) "task_agent"
       {| response := Some response; sources := None; task_created := Some false |})
    state.

(** [_run_chat_agent] *)
Definition _run_chat_agent (state : AgentState) : AgentState :=
  let response := ("[Chat Agent] I understand you said: " ++ user_input state)%string in
  set_agent_outputs
    (PyDict.set (agent_outputs state) "chat_agent"
       {| response := Some response; sources := None; task_created := None |})
    state.

(** [_generate_response]: the loop appends to [responses] in the order
    of [outputs.items()]. *)
Definition _generate_response (state : AgentState) : AgentState :=
  let outputs := agent_outputs state in
  let responses :=
    fold_left
      (fun responses '(agent_name, output) =>
         match response output with
         | Some r => responses ++ [r]
         | None => responses
         end)
      outputs [] in
  set_final_response
    (Some (match responses with
           | [] => FALLBACK_RESPONSE
           | _ => PyStr.join " " responses
           end))
    state.

(** The function a node of the workflow runs. *)
Definition node_action (n : Node) : AgentState -> AgentState :=
  match n with
  | intent_classifier => _classify_intent
  | info_agent => _run_info_agent
  | task_agent => _run_task_agent
  | chat_agent => _run_chat_agent
  | response_generator => _generate_response
  end.

(** [setup]: with the graph library installed the workflow is built and
    compiled, otherwise [_setup_simple_orchestrator] leaves no graph. *)
Definition setup (langgraph_installed : bool) (self : AgentOrchestrator)
  : AgentOrchestrator :=
  if langgraph_installed then
    {| graph := Some {| routes :=
         [ (value INFORMATION_QUERY, info_agent);
           (value TASK_MANAGEMENT, task_agent);
           (value GENERAL_CHAT, chat_agent);
           (value UNKNOWN, chat_agent) ] |} |}
  else {| graph := None |}.

(** [graph.invoke]: entry point, conditional edge, the agent, the
    response generator, end. *)
Definition invoke (g : CompiledGraph) (initial_state : AgentState) : Outcome AgentState :=
  let state := node_action intent_classifier initial_state in
  let key := _route_to_agent state in
  match key with
  | Some k =>
      match PyDict.get (routes g) k with
      | Some agent => Ok (node_action response_generator (node_action agent state))
      | None => unrouted key state
      end
  | None => unrouted key state
  end.

(** The handlers among the nodes, and the text each puts in the
        [response] field of its fragment. *)
Definition is_handler (n : Node) : bool :=
  match n with
  | info_agent | task_agent | chat_agent => true
  | _ => false
  end.

Definition handler_text (n : Node) (input : string) : string :=
  match n with
  | info_agent => "[Info Agent] Processing query: " ++ input
  | task_agent => "[Task Agent] Processing task request: " ++ input
  | chat_agent => "[Chat Agent] I understand you said: " ++ input
  | _ => ""
  end.

(** The fragment a handler stores. *)
Definition handler_output (h : Node) (input : string) : AgentOutput :=
  match h with
  | info_agent =>
      {| response := Some (handler_text h input); sources := Some []; task_created := None |}
  | task_agent =>
      {| response := Some (handler_text h input); sources := None; task_created := Some false |}
  | _ =>
      {| response := Some (handler_text h input); sources := None; task_created := None |}
  end.

(** The handlers [hs] run one after the other on a state. *)
Definition run_handlers (hs : list Node) (state : AgentState) : AgentState :=
  fold_left (fun st h => node_action h st) hs state.

(** The [response] texts of the fragments that have one, in the order of
    the dictionary. *)
Definition fragments_with_response (outputs : PyDict.dict AgentOutput) : list string :=
  flat_map (fun '(agent_name, output) =>
              match response output with
              | Some r => [r]
              | None => []
              end) outputs.

Definition initial_state (input lang : string) : AgentState :=
  {| user_input := input; language := lang; intent := None;
     entities := []; agent_outputs := []; final_response := None;
     error := None |}.

(** [AgentOrchestrator.process] *)
Definition process (self : AgentOrchestrator) (input lang : string)
  : Outcome Reply :=
  let initial_state := initial_state input lang in
  let run : Outcome AgentState :=
    match graph self with
    | Some g =>
        (* Run through LangGraph *)
        invoke g initial_state
    | None =>
        (* Simple fallback processing *)
        let result := _classify_intent initial_state in
        let result := _run_chat_agent result in
        let result := _generate_response result in
        Ok result
    end in
  match run with
  | Ok result =>
      Ok {| reply_response := final_response result;
            reply_intent := intent result;
            reply_language := language result |}
  | Raised e => Raised e
  end.

End Methods.

End Agents.

(* ------------------------------------------------------------------ *)
(** ** [translation/indictrans.py]: the translator *)

Module Translation.

(** What the translator asks of the [transformers] and [torch] libraries,
    in the order asked. *)
Inductive Event : Type :=
| ETokenizerFromPretrained (model_id : string)
| EModelFromPretrained (model_id : string)
| ECudaIsAvailable
| EModelTo (model_id device : string)
| EModelEval (model_id : string)
| EGenerate (tokenizer model input_text tgt_code : string) (max_length : Z)
            (inputs_on_cuda : bool).

Definition Log : Type := list Event.

(** The libraries: each answer may depend on what was asked before.
    [generate] stands for tokenising the tagged input with the tokenizer,
    generating with the model, the target tag forced as the first token,
    and decoding the first output. *)
Record Runtime : Type := {
    tokenizer_from_pretrained : Log -> string -> Outcome unit;
    model_from_pretrained : Log -> string -> Outcome unit;
    cuda_is_available : Log -> bool;
    model_to : Log -> string -> string -> Outcome unit;
    model_eval : Log -> string -> Outcome unit;
    generate : Log -> string -> string -> string -> string -> Z -> bool
               -> Outcome string;
    (* Python's [repr] of a [str] *)
    py_repr : string -> string
  }.

(** IndicTrans2 model IDs on HuggingFace *)
Definition MODELS : PyDict.dict string :=
  [ ("en-indic", "ai4bharat/indictrans2-en-indic-1B");
    ("indic-en", "ai4bharat/indictrans2-indic-en-1B") ].

(** Language codes for IndicTrans2 *)
Definition LANG_CODES : PyDict.dict string :=
  [ ("ml", "mal_Mlym"); ("hi", "hin_Deva"); ("ta", "tam_Taml");
    ("te", "tel_Telu"); ("bn", "ben_Beng"); ("mr", "mar_Deva");
    ("gu", "guj_Gujr"); ("kn", "kan_Knda"); ("pa", "pan_Guru");
    ("en", "eng_Latn") ].

(** The object: a loaded model and a loaded tokenizer are known by the
    model ID they were loaded from. *)
Record IndicTranslator : Type := {
    device : string;
    models : PyDict.dict string;
    tokenizers : PyDict.dict string
  }.

Definition Run (A : Type) : Type :=
  IndicTranslator -> Log -> Outcome A * IndicTranslator * Log.

(** The characters [repr] leaves as they are: printable ASCII other than
    the single quote and the backslash. *)
Definition plain_char (c : ascii) : bool :=
  let n := nat_of_ascii c in
  (32 <=? n)%nat && (n <=? 126)%nat && negb (n =? 39)%nat && negb (n =? 92)%nat.

Fixpoint plain (s : string) : bool :=
  match s with
  | EmptyString => true
  | String c rest => plain_char c && plain rest
  end.

(** [str(KeyError(key))], which is [repr(key)]: a plain key between single
    quotes, and what Python's [repr] answers on any other key. *)
Definition key_error (repr : string -> string) (key : string) : string :=
  if plain key then ("'" ++ key ++ "'")%string else repr key.

(** [s[n:]] *)
Fixpoint drop (n : nat) (s : string) : string :=
  match n, s with
  | O, _ => s
  | S k, String _ rest => drop k rest
  | S _, EmptyString => EmptyString
  end.

(** [LANG_CODES.get(lang, lang)] *)
Definition lang_code (lang : string) : string :=
  match PyDict.get LANG_CODES lang with
  | Some code => code
  | None => lang
  end.

(** The direction [translate] determines from the source language. *)
Definition direction_of (source_lang : string) : string :=
  if String.eqb source_lang "en" then "en-indic" else "indic-en".

Section Methods.
Context {text_ops : PyStr.TextOps}.
Variable R : Runtime.

(** The body of the loop of [load_models], for one direction. *)
Definition load_direction (direction : string) : Run unit :=
  fun self log =>
    if PyDict.mem (models self) direction then (Ok tt, self, log)
    else
      match PyDict.get MODELS direction with
      | None => (Raised (key_error (py_repr R) direction), self, log)
      | Some model_id =>
          (* try: ... except Exception as e: raise *)
          let log1 := log ++ [ETokenizerFromPretrained model_id] in
          match tokenizer_from_pretrained R log model_id with
          | Raised e => (Raised e, self, log1)
          | Ok _ =>
          let log2 := log1 ++ [EModelFromPretrained model_id] in
          match model_from_pretrained R log1 model_id with
          | Raised e => (Raised e, self, log2)
          | Ok _ =>
          let asked := String.eqb (device self) "cuda" in
          let log3 := if asked then log2 ++ [ECudaIsAvailable] else log2 in
          let on_cuda := asked && cuda_is_available R log2 in
          let target := if on_cuda then "cuda" else "cpu" in
          let log4 := log3 ++ [EModelTo model_id target] in
          match model_to R log3 model_id target with
          | Raised e => (Raised e, self, log4)
          | Ok _ =>
          let self1 :=
            if on_cuda then self
            else {| device := "cpu"; models := models self;
                    tokenizers := tokenizers self |} in
          let log5 := log4 ++ [EModelEval model_id] in
          match model_eval R log4 model_id with
          | Raised e => (Raised e, self1, log5)
          | Ok _ =>
              (Ok tt,
               {| device := device self1;
                  models := PyDict.set (models self1) direction model_id;
                  tokenizers := PyDict.set (tokenizers self1) direction model_id |},
               log5)
          end end end end
      end.

Fixpoint load_each (directions : list string) : Run unit :=
  fun self log =>
    match directions with
    | [] => (Ok tt, self, log)
    | direction :: rest =>
        match load_direction direction self log with
        | (Ok _, self1, log1) => load_each rest self1 log1
        | (Raised e, self1, log1) => (Raised e, self1, log1)
        end
    end.

(** [IndicTranslator.load_models] *)
Definition load_models (directions : option (list string)) : Run unit :=
  let directions :=
    match directions with
    | Some (d :: ds) => d :: ds
    | _ => ["en-indic"; "indic-en"]
    end in
  load_each directions.

(** [IndicTranslator.__init__] *)
Definition init (device : string) (load_on_init : bool) (log : Log)
  : Outcome IndicTranslator * Log :=
  let self := {| device := device; models := []; tokenizers := [] |} in
  if load_on_init then
    match load_models None self log with
    | (Ok _, self1, log1) => (Ok self1, log1)
    | (Raised e, _, log1) => (Raised e, log1)
    end
  else (Ok self, log).

(** [IndicTranslator.translate] *)
Definition translate (text source_lang target_lang : string) (max_length : Z)
  : Run string :=
  fun self log =>
    (* Determine direction *)
    let direction := direction_of source_lang in
    (* Load model if needed *)
    match (if PyDict.mem (models self) direction then (Ok tt, self, log)
           else load_models (Some [direction]) self log) with
    | (Raised e, self1, log1) => (Raised e, self1, log1)
    | (Ok _, self1, log1) =>
        match PyDict.get (models self1) direction with
        | None => (Raised (key_error (py_repr R) direction), self1, log1)
        | Some model =>
        match PyDict.get (tokenizers self1) direction with
        | None => (Raised (key_error (py_repr R) direction), self1, log1)
        | Some tokenizer =>
            (* Get language codes *)
            let src_code := lang_code source_lang in
            let tgt_code := lang_code target_lang in
            (* Prepare input with language tags *)
            let input_text := (src_code ++ " " ++ text)%string in
            let on_cuda := String.eqb (device self1) "cuda" in
            let log2 :=
              log1 ++ [EGenerate tokenizer model input_text tgt_code max_length on_cuda] in
            match generate R log1 tokenizer model input_text tgt_code max_length on_cuda with
            | Raised e => (Raised e, self1, log2)
            | Ok translated =>
                (* Remove language tag if present *)
                let translated :=
                  if PyStr.startswith translated tgt_code
                  then PyStr.strip (drop (String.length tgt_code) translated)
                  else translated in
                (Ok translated, self1, log2)
            end
        end end
    end.

(** [IndicTranslator.ml_to_en] and [IndicTranslator.en_to_ml] *)
Definition ml_to_en (text : string) : Run string := translate text "ml" "en" 256.
Definition en_to_ml (text : string) : Run string := translate text "en" "ml" 256.

End Methods.

(** Every loaded model is the one the table names for its direction, and
    its tokenizer is loaded too. *)
Definition consistent (self : IndicTranslator) : Prop :=
  forall direction model_id,
    PyDict.get (models self) direction = Some model_id ->
    PyDict.get MODELS direction = Some model_id /\
    PyDict.get (tokenizers self) direction = Some model_id.

(** [translated], with the language tag removed if present. *)
Definition without_tag {text_ops : PyStr.TextOps} (tgt_code translated : string) : string :=
  if PyStr.startswith translated tgt_code
  then PyStr.strip (drop (String.length tgt_code) translated)
  else translated.

End Translation.

(* ------------------------------------------------------------------ *)
(** ** [tts/tts_engine.py]: the unified speech engine *)

Module Tts.

(** The backend objects, by the class and the constructor arguments they
    are made with. *)
Inductive Engine : Type :=
| MMSTTS (device : string)
| CartesiaTTS (kwargs : PyDict.dict string)
| IndicTTS (device : string).

(** [getattr(engine, 'sample_rate', None)]: the constructors of [MMSTTS]
    and [CartesiaTTS] set the attribute, [IndicTTS] has none. *)
Definition sample_rate_of (engine : Engine) : option Z :=
  match engine with
  | MMSTTS _ => Some 16000%Z
  | CartesiaTTS _ => Some 24000%Z
  | IndicTTS _ => None
  end.

(** What the engine asks of its backends and of the system, in the order
    asked. *)
Inductive Event : Type :=
| EConstruct (engine : Engine)
| EPerfCounter
| ESynthesize (engine : Engine) (text language : string) (output_path : option string)
| EMkdir (dir : string).

Definition Log : Type := list Event.

(** The backends and the system: importing a backend class and running its
    constructor, the clock, the [synthesize] of a backend, and the
    directory made by [compare]; [joinpath] is the [/] of [pathlib]. *)
Record Runtime : Type := {
    construct : Log -> Engine -> Outcome unit;
    perf_counter : Log -> Q;
    engine_synthesize : Log -> Engine -> string -> string -> option string
                        -> Outcome AudioOut;
    mkdir : Log -> string -> Outcome unit;
    joinpath : string -> string -> string
  }.

Record TTSResult : Type := {
    audio : AudioOut;
    backend : string;
    language : string;
    duration_ms : Q;
    sample_rate : Z;
    text : string
  }.

Record TTSEngine : Type := {
    default_backend : string;
    device : string;
    kwargs : PyDict.dict string;
    _engines : PyDict.dict Engine
  }.

Definition Run (A : Type) : Type :=
  TTSEngine -> Log -> Outcome A * TTSEngine * Log.

Definition BACKENDS : list string := ["mms"; "cartesia"; "indic"].

(** [TTSEngine.__init__] *)
Definition init (backend device : string) (kwargs : PyDict.dict string) : TTSEngine :=
  {| default_backend := backend; device := device; kwargs := kwargs; _engines := [] |}.

Definition with_engine (self : TTSEngine) (backend : string) (engine : Engine)
  : TTSEngine :=
  {| default_backend := default_backend self; device := device self;
     kwargs := kwargs self;
     _engines := PyDict.set (_engines self) backend engine |}.

(** The class [_get_engine] constructs for a backend name. *)
Definition engine_for (self : TTSEngine) (backend : string) : option Engine :=
  if String.eqb backend "mms" then Some (MMSTTS (device self))
  else if String.eqb backend "cartesia" then Some (CartesiaTTS (kwargs self))
  else if String.eqb backend "indic" then Some (IndicTTS (device self))
  else None.

(** The backend [synthesize] uses: [backend or self.default_backend]. *)
Definition chosen (self : TTSEngine) (backend : option string) : string :=
  if PyStr.truthy_opt backend then PyStr.the backend else default_backend self.

Section Methods.
Variable R : Runtime.

(** [TTSEngine._get_engine]: lazy load and cache TTS engines. *)
Definition _get_engine (backend : string) : Run Engine :=
  fun self log =>
    match PyDict.get (_engines self) backend with
    | Some engine => (Ok engine, self, log)
    | None =>
        match engine_for self backend with
        | None => (Raised ("Unknown backend: " ++ backend)%string, self, log)
        | Some engine =>
            match construct R log engine with
            | Raised e => (Raised e, self, log ++ [EConstruct engine])
            | Ok _ => (Ok engine, with_engine self backend engine,
                       log ++ [EConstruct engine])
            end
        end
    end.

(** [TTSEngine.synthesize], without backend-specific keyword arguments. *)
Definition synthesize (text language : string) (backend output_path : option string)
  : Run TTSResult :=
  fun self log =>
    let backend := chosen self backend in
    match _get_engine backend self log with
    | (Raised e, self1, log1) => (Raised e, self1, log1)
    | (Ok engine, self1, log1) =>
        let start_time := perf_counter R log1 in
        let log2 := log1 ++ [EPerfCounter] in
        let log3 := log2 ++ [ESynthesize engine text language output_path] in
        (* try: ... except Exception as e: raise *)
        match engine_synthesize R log2 engine text language output_path with
        | Raised e => (Raised e, self1, log3)
        | Ok audio =>
            let duration_ms := elapsed_ms start_time (perf_counter R log3) in
            let sample_rate :=
              match sample_rate_of engine with
              | Some rate => rate
              | None => 22050%Z
              end in
            (Ok {| audio := audio; backend := backend; language := language;
                   duration_ms := duration_ms; sample_rate := sample_rate;
                   text := text |},
             self1, log3 ++ [EPerfCounter])
        end
    end.

(** The loop of [compare]: one backend after the other, a failure stored
    as [None]. *)
Fixpoint compare_each (text language : string) (output_dir : option string)
         (backends : list string) (results : PyDict.dict (option TTSResult))
  : TTSEngine -> Log -> PyDict.dict (option TTSResult) * TTSEngine * Log :=
  fun self log =>
    match backends with
    | [] => (results, self, log)
    | backend :: rest =>
        let output_path :=
          if PyStr.truthy_opt output_dir
          then Some (joinpath R (PyStr.the output_dir)
                              (backend ++ "_" ++ language ++ ".wav")%string)
          else None in
        match synthesize text language (Some backend) output_path self log with
        | (Ok result, self1, log1) =>
            compare_each text language output_dir rest
                         (PyDict.set results backend (Some result)) self1 log1
        | (Raised _, self1, log1) =>
            compare_each text language output_dir rest
                         (PyDict.set results backend None) self1 log1
        end
    end.

(** The backends [compare] runs: [backends or self.BACKENDS]. *)
Definition compared (backends : option (list string)) : list string :=
  match backends with
  | Some (b :: bs) => b :: bs
  | _ => BACKENDS
  end.

(** [TTSEngine.compare] *)
Definition compare (text language : string) (backends : option (list string))
           (output_dir : option string)
  : Run (PyDict.dict (option TTSResult)) :=
  fun self log =>
    let backends := compared backends in
    let made :=
      if PyStr.truthy_opt output_dir
      then (mkdir R log (PyStr.the output_dir), log ++ [EMkdir (PyStr.the output_dir)])
      else (Ok tt, log) in
    match made with
    | (Raised e, log1) => (Raised e, self, log1)
    | (Ok _, log1) =>
        match compare_each text language output_dir backends [] self log1 with
        | (results, self1, log2) => (Ok results, self1, log2)
        end
    end.

End Methods.

(** Every cached engine is the one [_get_engine] constructs for its key. *)
Definition well_keyed (self : TTSEngine) : Prop :=
  forall backend engine,
    PyDict.get (_engines self) backend = Some engine ->
    engine_for self backend = Some engine.

(** No backend is constructed in a stretch of the log. *)
Definition constructs_nothing (new : Log) : Prop :=
  Forall (fun ev => match ev with EConstruct _ => False | _ => True end) new.

End Tts.

(* ------------------------------------------------------------------ *)
(** ** Worlds and states used in concrete runs *)

Module Scenario.

(** A clock that advances by one second at every call to the world. *)
Definition ticking (tr : Trace) : Q := Z.of_nat (List.length tr) # 1.

(** A world whose engines all answer, but for the language model, whose
    generation is given. *)
Definition world (generate : Trace -> list Message -> Z -> Outcome (string * Z)) : World :=
  {| perf_counter := ticking;
     whisper_load := fun _ _ _ => Ok tt;
     whisper_transcribe := fun _ _ => Ok "namaskaram sukhamano";
     translator_load := fun _ _ => Ok tt;
     translator_translate := fun _ text _ target_lang => Ok (target_lang ++ ": " ++ text)%string;
     qwen_load := fun _ _ dev => Ok dev;
     qwen_generate := generate;
     tts_synthesize := fun _ _ _ out =>
       Ok (match out with Some path => SavedTo path | None => Samples [0; 1; 0]%Z end);
     import_from := fun _ _ => Ok tt |}.

Definition calm : World := world (fun _ _ _ => Ok ("I am fine, thank you.", 6%Z)).

Definition llm_down (msg : string) : World := world (fun _ _ _ => Raised msg).

(** A world in which the weights of the language model cannot be loaded. *)
Definition no_weights (msg : string) : World :=
  {| perf_counter := ticking;
     whisper_load := fun _ _ _ => Ok tt;
     whisper_transcribe := fun _ _ => Ok "namaskaram sukhamano";
     translator_load := fun _ _ => Ok tt;
     translator_translate := fun _ text _ target_lang => Ok (target_lang ++ ": " ++ text)%string;
     qwen_load := fun _ _ _ => Raised msg;
     qwen_generate := fun _ _ _ => Ok ("I am fine, thank you.", 6%Z);
     tts_synthesize := fun _ _ _ _ => Ok (Samples []);
     import_from := fun _ _ => Ok tt |}.

(** A world in which the speech-recognition model cannot be loaded. *)
Definition no_whisper (msg : string) : World :=
  {| perf_counter := ticking;
     whisper_load := fun _ _ _ => Raised msg;
     whisper_transcribe := fun _ _ => Ok "namaskaram sukhamano";
     translator_load := fun _ _ => Ok tt;
     translator_translate := fun _ text _ target_lang => Ok (target_lang ++ ": " ++ text)%string;
     qwen_load := fun _ _ dev => Ok dev;
     qwen_generate := fun _ _ _ => Ok ("I am fine, thank you.", 6%Z);
     tts_synthesize := fun _ _ _ _ => Ok (Samples []);
     import_from := fun _ _ => Ok tt |}.

(** The tree as shipped: the directories [llm] and [translation] have no
    [__init__.py], so the imports from them raise. *)
Definition no_llm_package (msg : string) : World :=
  {| perf_counter := ticking;
     whisper_load := fun _ _ _ => Ok tt;
     whisper_transcribe := fun _ _ => Ok "namaskaram sukhamano";
     translator_load := fun _ _ => Ok tt;
     translator_translate := fun _ text _ target_lang => Ok (target_lang ++ ": " ++ text)%string;
     qwen_load := fun _ _ dev => Ok dev;
     qwen_generate := fun _ _ _ => Ok ("I am fine, thank you.", 6%Z);
     tts_synthesize := fun _ _ _ _ => Ok (Samples []);
     import_from := fun _ name =>
       if String.eqb name "..llm" || String.eqb name "..translation"
       then Raised msg else Ok tt |}.

(** A fresh orchestrator, and one whose components were loaded. *)
Definition fresh : Pipeline.VoiceAssistantPipeline := Pipeline.init_default true.

Definition loaded : Pipeline.VoiceAssistantPipeline :=
  match Pipeline.load_components calm fresh [] with
  | (_, p, _) => p
  end.

(** An orchestrator whose detector attribute holds an object whose
    [detect] raises. *)
Definition with_failing_detector (msg : string) : Pipeline.VoiceAssistantPipeline :=
  Pipeline.set_intent_detector fresh
    (Some (Pipeline.OtherDetector (fun _ _ _ => Raised msg))).

(** Libraries that load every model, on a host with or without CUDA; the
    decoded output starts with the target tag.  The keys of the runs below
    are plain, so that [py_repr] is not consulted. *)
Definition host (cuda : bool) : Translation.Runtime :=
  {| Translation.tokenizer_from_pretrained := fun _ _ => Ok tt;
     Translation.model_from_pretrained := fun _ _ => Ok tt;
     Translation.cuda_is_available := fun _ => cuda;
     Translation.model_to := fun _ _ _ => Ok tt;
     Translation.model_eval := fun _ _ => Ok tt;
     Translation.generate := fun _ _ _ input_text tgt_code _ _ =>
       Ok (tgt_code ++ " <" ++ input_text ++ ">")%string;
     Translation.py_repr := fun key => ("repr(" ++ key ++ ")")%string |}.

(** A translator on which both directions were loaded, as
    [_load_translator] asks. *)
Definition preloaded : Translation.IndicTranslator :=
  match Translation.load_models (host true) (Some ["indic-en"; "en-indic"])
          {| Translation.device := "cuda"; Translation.models := [];
             Translation.tokenizers := [] |} [] with
  | (_, self, _) => self
  end.

(** Speech backends of which the online one cannot be reached. *)
Definition offline : Tts.Runtime :=
  {| Tts.construct := fun _ _ => Ok tt;
     Tts.perf_counter := fun log => Z.of_nat (List.length log) # 1;
     Tts.engine_synthesize := fun _ engine _ _ out =>
       match engine with
       | Tts.CartesiaTTS _ => Raised "connection refused"
       | _ => Ok (match out with Some path => SavedTo path | None => Samples [0; 1; 0]%Z end)
       end;
     Tts.mkdir := fun _ _ => Ok tt;
     Tts.joinpath := fun dir name => (dir ++ "/" ++ name)%string |}.

End Scenario.

(* ================================================================== *)
(** * Facts *)

(* ------------------------------------------------------------------ *)
(** ** Running computations *)

Module EffFacts.

(** Case analysis on a run: every [match] on a run is split, every
    equation between triples is inverted. *)
Ltac run_inv :=
  repeat match goal with
  | H : (_, _, _) = (_, _, _) |- _ => inversion H; subst; clear H
  | H : (_, _) = (_, _) |- _ => inversion H; subst; clear H
  | H : Ok _ = Ok _ |- _ => inversion H; subst; clear H
  | H : Raised _ = Raised _ |- _ => inversion H; subst; clear H
  | H : Ok _ = Raised _ |- _ => discriminate H
  | H : Raised _ = Ok _ |- _ => discriminate H
  | H : context [match ?x with _ => _ end] |- _ => destruct x eqn:?
  end.

Ltac unfold_eff_in H :=
  unfold bind, zoom, modify, clock, call, ask, get, ret, raise, try_except in H.

Ltac unfold_eff :=
  unfold bind, zoom, modify, clock, call, ask, get, ret, raise, try_except.

(** *** Calls a computation makes *)

Section Emits.
Context {S : Type} (P : Call -> Prop).

Lemma emits_ret {A} (a : A) : emits P (@ret S A a).
  Proof. intros s tr r s' tr' H. inversion H; subst. exists []. now rewrite app_nil_r. Qed.

Lemma emits_raise {A} msg : emits P (@raise S A msg).
  Proof. intros s tr r s' tr' H. inversion H; subst. exists []. now rewrite app_nil_r. Qed.

Lemma emits_get : emits P (@get S).
  Proof. intros s tr r s' tr' H. inversion H; subst. exists []. now rewrite app_nil_r. Qed.

Lemma emits_modify f : emits P (@modify S f).
  Proof. intros s tr r s' tr' H. inversion H; subst. exists []. now rewrite app_nil_r. Qed.

Lemma emits_call {A} c (answer : Trace -> Outcome A) :
    P c -> emits P (@call S A c answer).
  Proof. intros Hc s tr r s' tr' H. inversion H; subst. exists [c]. auto. Qed.

Lemma emits_ask {A} (answer : Trace -> Outcome A) : emits P (@ask S A answer).
  Proof. intros s tr r s' tr' H. inversion H; subst. exists []. now rewrite app_nil_r. Qed.

Lemma emits_clock W : P CPerfCounter -> emits P (@clock S W).
  Proof. intros Hc. now apply emits_call. Qed.

Lemma emits_bind {A B} (m : M S A) (k : A -> M S B) :
    emits P m -> (forall a, emits P (k a)) -> emits P (bind m k).
  Proof.
    intros Hm Hk s tr r s' tr' H. unfold bind in H.
    destruct (m s tr) as [[o s1] tr1] eqn:E.
    destruct (Hm _ _ _ _ _ E) as [n1 [-> F1]].
    destruct o.
    - destruct (Hk _ _ _ _ _ _ H) as [n2 [-> F2]].
      exists (n1 ++ n2). rewrite app_assoc. split; [reflexivity|].
      apply Forall_app; auto.
    - inversion H; subst. eauto.
  Qed.

Lemma emits_try {A} (m : M S A) (h : string -> M S A) :
    emits P m -> (forall e, emits P (h e)) -> emits P (try_except m h).
  Proof.
    intros Hm Hh s tr r s' tr' H. unfold try_except in H.
    destruct (m s tr) as [[o s1] tr1] eqn:E.
    destruct (Hm _ _ _ _ _ E) as [n1 [-> F1]].
    destruct o.
    - inversion H; subst. eauto.
    - destruct (Hh _ _ _ _ _ _ H) as [n2 [-> F2]].
      exists (n1 ++ n2). rewrite app_assoc. split; [reflexivity|].
      apply Forall_app; auto.
  Qed.

Lemma emits_zoom {T A} (proj : S -> T) upd (m : M T A) :
    emits P m -> emits P (zoom proj upd m).
  Proof.
    intros Hm s tr r s' tr' H. unfold zoom in H.
    destruct (m (proj s) tr) as [[o t1] tr1] eqn:E.
    inversion H; subst. eauto.
  Qed.

Lemma emits_on_handle {T A} (proj : S -> option T) upd meth (m : M T A) :
    emits P m -> emits P (on_handle proj upd meth m).
  Proof.
    intros Hm s tr r s' tr' H. unfold on_handle in H.
    destruct (proj s) as [t|].
    - destruct (m t tr) as [[o t1] tr1] eqn:E. inversion H; subst. eauto.
    - inversion H; subst. exists []. now rewrite app_nil_r.
  Qed.

End Emits.

Create HintDb emits discriminated.
#[export] Hint Resolve emits_ret emits_raise emits_get emits_modify
  emits_zoom emits_on_handle : emits.

(** Structural proof of an [emits] goal; calls are discharged by
    computation of the predicate. *)
Ltac emits_step :=
  first
    [ apply emits_ret | apply emits_raise | apply emits_get | apply emits_modify
    | apply emits_ask
    | apply emits_bind; [ | intros ]
    | apply emits_try; [ | intros ]
    | apply emits_zoom | apply emits_on_handle
    | apply emits_call; solve [ reflexivity | assumption | auto ]
    | apply emits_clock; solve [ reflexivity | assumption | auto ]
    | progress cbv beta
    | match goal with
      | |- emits _ (match ?x with _ => _ end) => destruct x
      end
    | solve [ eauto with emits ] ].

Ltac emits_auto := repeat emits_step.

End EffFacts.

(* ------------------------------------------------------------------ *)
(** ** The response-generation wrapper *)

Module QwenFacts.
Import EffFacts Qwen.

Lemma slice_from_suffix {A} (start : Z) (l : list A) :
  exists k, slice_from start l = skipn k l.
Proof. unfold slice_from. eexists; reflexivity. Qed.

Lemma slice_from_last {A} (n : Z) (l : list A) :
  (0 < n)%Z -> (n < Z.of_nat (List.length l))%Z ->
  Z.of_nat (List.length (slice_from (- n) l)) = n.
Proof.
  intros Hn Hl. unfold slice_from.
  destruct (- n <? 0)%Z eqn:E; [|apply Z.ltb_ge in E; lia].
  rewrite length_skipn. lia.
Qed.

(** [l[-0:]] is the whole list. *)
Lemma slice_from_minus_zero {A} (l : list A) : slice_from (- 0) l = l.
Proof.
  unfold slice_from. cbn [Z.opp Z.ltb Z.compare].
  replace (Z.min 0 (Z.of_nat (List.length l))) with 0%Z by lia. reflexivity.
Qed.

Section Facts.
Variable W : World.

Lemma load_model_keeps_history llm tr o llm' tr' :
  load_model W llm tr = (o, llm', tr') ->
  conversation_history llm' = conversation_history llm /\
  max_memory_messages llm' = max_memory_messages llm.
Proof.
  intros H. unfold load_model in H. unfold_eff_in H. run_inv; auto.
Qed.

(** For a positive bound [N], a remembered chat that completes leaves at
    most [2N] messages: the old history followed by the two new messages,
    cut from the oldest end. *)
Lemma chat_history_bounded user_input n llm tr r llm' tr' :
  (0 < max_memory_messages llm)%Z ->
  chat W user_input n true llm tr = (Ok r, llm', tr') ->
  max_memory_messages llm' = max_memory_messages llm /\
  (Z.of_nat (List.length (conversation_history llm')) <= 2 * max_memory_messages llm)%Z /\
  exists k,
    conversation_history llm' =
    skipn k (conversation_history llm
             ++ [mkMessage "user" user_input; mkMessage "assistant" (content r)]).
Proof.
  intros HN H. unfold chat in H. unfold bind at 1 in H. unfold get at 1 in H.
  unfold bind at 1 in H.
  destruct ((if model_loaded llm then ret tt else load_model W) llm tr)
    as [[o1 llm1] tr1] eqn:E1.
  assert (K : conversation_history llm1 = conversation_history llm /\
              max_memory_messages llm1 = max_memory_messages llm).
  { destruct (model_loaded llm).
    - inversion E1; subst; auto.
    - eapply load_model_keeps_history; eauto. }
  destruct K as [Kh Kn].
  destruct o1; [|discriminate H].
  unfold_eff_in H. unfold with_history in H. cbn [conversation_history max_memory_messages] in H.
  destruct (qwen_generate W _ _ _) as [[text tokens]|e]; [|discriminate H].
  rewrite Kh, Kn in H.
  set (h := conversation_history llm
            ++ [mkMessage "user" user_input] ++ [mkMessage "assistant" text]) in *.
  destruct (Z.of_nat (List.length h) >? max_memory_messages llm * 2)%Z eqn:Cmp;
    inversion H; subst; clear H; cbn [conversation_history max_memory_messages content].
  - split; [reflexivity|]. apply Z.gtb_lt in Cmp. split.
    + replace (- max_memory_messages llm * 2)%Z with (- (max_memory_messages llm * 2))%Z by lia.
      rewrite slice_from_last; lia.
    + apply slice_from_suffix.
  - split; [reflexivity|]. split.
    + destruct (Z.gtb_spec (Z.of_nat (List.length h)) (max_memory_messages llm * 2));
        [discriminate|lia].
    + exists 0%nat. reflexivity.
Qed.

(** For the bound 0 nothing is ever cut: [history[-0:]] is the whole
    history. *)
Lemma chat_history_untrimmed_at_zero user_input n llm tr r llm' tr' :
  max_memory_messages llm = 0%Z ->
  chat W user_input n true llm tr = (Ok r, llm', tr') ->
  conversation_history llm' =
  conversation_history llm
  ++ [mkMessage "user" user_input; mkMessage "assistant" (content r)].
Proof.
  intros HN H. unfold chat in H. unfold bind at 1 in H. unfold get at 1 in H.
  unfold bind at 1 in H.
  destruct ((if model_loaded llm then ret tt else load_model W) llm tr)
    as [[o1 llm1] tr1] eqn:E1.
  assert (K : conversation_history llm1 = conversation_history llm /\
              max_memory_messages llm1 = max_memory_messages llm).
  { destruct (model_loaded llm).
    - inversion E1; subst; auto.
    - eapply load_model_keeps_history; eauto. }
  destruct K as [Kh Kn].
  destruct o1; [|discriminate H].
  unfold_eff_in H. unfold with_history in H. cbn [conversation_history max_memory_messages] in H.
  destruct (qwen_generate W _ _ _) as [[text tokens]|e]; [|discriminate H].
  rewrite Kh, Kn, HN in H.
  match type of H with context [if ?c then _ else _] => destruct c end;
    inversion H; subst; clear H; cbn [conversation_history content].
  - change (- 0 * 2)%Z with (- 0)%Z. apply slice_from_minus_zero.
  - reflexivity.
Qed.

(** A chat that raises leaves the history as it was. *)
Lemma chat_raise_keeps_history user_input n remember llm tr e llm' tr' :
  chat W user_input n remember llm tr = (Raised e, llm', tr') ->
  conversation_history llm' = conversation_history llm.
Proof.
  intros H. unfold chat in H. unfold bind at 1 in H. unfold get at 1 in H.
  unfold bind at 1 in H.
  destruct ((if model_loaded llm then ret tt else load_model W) llm tr)
    as [[o1 llm1] tr1] eqn:E1.
  assert (Kh : conversation_history llm1 = conversation_history llm).
  { destruct (model_loaded llm).
    - inversion E1; subst; auto.
    - eapply load_model_keeps_history; eauto. }
  destruct o1.
  - unfold_eff_in H.
    destruct (qwen_generate W _ _ _) as [[text tokens]|e']; [|inversion H; subst; exact Kh].
    destruct remember; [|discriminate H].
    match type of H with context [if ?c then _ else _] => destruct c end; discriminate H.
  - inversion H; subst. exact Kh.
Qed.

(** [clear_history] empties the history. *)
Lemma clear_history_empties llm tr :
  exists llm', clear_history llm tr = (Ok tt, llm', tr) /\ conversation_history llm' = [].
Proof. eexists. split; reflexivity. Qed.

End Facts.

Import Scenario.

(** C9, the code at the failing input.  With [max_memory_messages = 0] the
    bound is 0 messages, and the trimming slice [history[-0:]] keeps the
    whole list: after one remembered chat the history holds 2 messages,
    after a second one 4, and it keeps growing. *)
Theorem history_grows_at_bound_zero :
  exists r1 llm1 tr1 r2 llm2 tr2,
    max_memory_messages (init "1.5b" "cuda" None 0) = 0%Z /\
    chat calm "hello" 256 true (init "1.5b" "cuda" None 0) [] = (Ok r1, llm1, tr1) /\
    conversation_history llm1 =
      [mkMessage "user" "hello"; mkMessage "assistant" "I am fine, thank you."] /\
    chat calm "and you" 256 true llm1 tr1 = (Ok r2, llm2, tr2) /\
    max_memory_messages llm2 = 0%Z /\
    List.length (conversation_history llm2) = 4%nat.
Proof.
  do 6 eexists. split; [reflexivity|]. split; [cbv; reflexivity|].
  split; [reflexivity|]. split; [cbv; reflexivity|]. split; reflexivity.
Qed.

End QwenFacts.

(* ------------------------------------------------------------------ *)
(** ** The intent detector *)

Module IntentFacts.
Import EffFacts Intent.

Lemma eqb_eq a b : eqb a b = true <-> a = b.
Proof.
  unfold eqb. rewrite String.eqb_eq. split; [|now intros ->].
  destruct a, b; cbn; intros H; try reflexivity; discriminate H.
Qed.

Lemma eqb_refl a : eqb a a = true.
Proof. now apply eqb_eq. Qed.

Lemma eqb_neq a b : a <> b -> eqb a b = false.
Proof.
  intros H. destruct (eqb a b) eqn:E; [|reflexivity].
  apply eqb_eq in E. contradiction.
Qed.

(** *** The score dictionary *)

Lemma scores_set_fresh (scores : Scores) t n :
  ~ In t (map fst scores) -> scores_set scores t n = scores ++ [(t, n)].
Proof.
  induction scores as [|[t' n'] scores IH]; intros Hfresh; cbn.
  - reflexivity.
  - rewrite eqb_neq by (intro; subst; apply Hfresh; now left).
    rewrite IH; [reflexivity|]. intro; apply Hfresh; now right.
Qed.

Lemma scores_get_in (scores : Scores) t n :
  NoDup (map fst scores) -> In (t, n) scores -> scores_get scores t = Some n.
Proof.
  induction scores as [|[t' n'] scores IH]; intros Hnd Hin; [destruct Hin|].
  cbn in *. inversion Hnd as [|? ? Hfresh Hnd']; subst.
  destruct Hin as [Heq|Hin].
  - inversion Heq; subst. now rewrite eqb_refl.
  - rewrite eqb_neq; [now apply IH|].
    intro; subst. apply Hfresh. change t with (fst (t, n)). now apply in_map.
Qed.

Lemma py_max_from_pairs (scores : Scores) : forall rest best nbest,
  scores_get scores best = Some nbest ->
  (forall x n, In (x, n) rest -> scores_get scores x = Some n) ->
  py_max_from (scores_get scores) best (map fst rest) = fst (pairs_max (best, nbest) rest).
Proof.
  induction rest as [|[x n] rest IH]; intros best nbest Hb Hrest;
    cbn [py_max_from pairs_max map fst snd].
  - reflexivity.
  - rewrite (Hrest x n) by now left. rewrite Hb.
    destruct (nbest <? n)%nat.
    + apply IH; [apply Hrest; now left | intros; apply Hrest; now right].
    + apply IH; [exact Hb | intros; apply Hrest; now right].
Qed.

Lemma pairs_max_spec : forall rest b nb,
  let m := Nat.max nb (list_max (map snd rest)) in
  snd (pairs_max (b, nb) rest) = m /\
  find (fun p => (snd p =? m)%nat) ((b, nb) :: rest) = Some (pairs_max (b, nb) rest).
Proof.
  induction rest as [|[x n] rest IH]; intros b nb; cbn [pairs_max map list_max fold_right snd].
  - cbn. rewrite Nat.max_0_r, Nat.eqb_refl. auto.
  - change (fold_right Nat.max 0%nat (map snd rest)) with (list_max (map snd rest)).
    destruct (Nat.ltb_spec nb n) as [Hlt|Hge].
    + destruct (IH x n) as [Hs Hf]. cbv zeta in *.
      replace (Nat.max nb (Nat.max n (list_max (map snd rest))))
        with (Nat.max n (list_max (map snd rest))) by lia.
      split; [exact Hs|].
      cbn [find snd]. 
      destruct (Nat.eqb_spec nb (Nat.max n (list_max (map snd rest)))) as [E|_]; [lia|].
      exact Hf.
    + destruct (IH b nb) as [Hs Hf]. cbv zeta in *.
      replace (Nat.max nb (Nat.max n (list_max (map snd rest))))
        with (Nat.max nb (list_max (map snd rest))) by lia.
      split; [exact Hs|].
      cbn [find snd] in *.
      destruct (Nat.eqb_spec nb (Nat.max nb (list_max (map snd rest)))) as [E|NE]; [exact Hf|].
      destruct (Nat.eqb_spec n (Nat.max nb (list_max (map snd rest)))) as [E'|_]; [lia|].
      exact Hf.
Qed.

Lemma fold_scores (sc : list string -> nat) pats : forall acc : Scores,
  NoDup (map fst acc ++ map fst pats) ->
  fold_left
    (fun scores '(intent_type, keywords) =>
       let s := sc keywords in
       if (0 <? s)%nat then scores_set scores intent_type s else scores)
    pats acc
  = acc ++ filter (fun p => (0 <? snd p)%nat)
                  (map (fun '(t, keywords) => (t, sc keywords)) pats).
Proof.
  induction pats as [|[t kws] pats IH]; intros acc Hnd; cbn [fold_left map filter snd].
  - now rewrite app_nil_r.
  - cbn [map fst] in Hnd. cbv zeta.
    destruct (0 <? sc kws)%nat.
    + rewrite scores_set_fresh.
      * rewrite IH.
        -- now rewrite <- app_assoc.
        -- rewrite map_app. cbn [map fst]. now rewrite <- app_assoc.
      * intro Hin. apply NoDup_remove_2 in Hnd. apply Hnd. apply in_or_app; now left.
    + apply IH. now apply NoDup_remove_1 in Hnd.
Qed.

Lemma pattern_order_nodup : NoDup pattern_order.
Proof. repeat constructor; cbn; intuition discriminate. Qed.

Lemma collect_scores_filter text_lower :
  collect_scores text_lower =
  filter (fun p => (0 <? snd p)%nat)
         (map (fun t => (t, category_score text_lower t)) pattern_order).
Proof.
  exact (fold_scores (fun kws => score kws text_lower) INTENT_PATTERNS []
                     pattern_order_nodup).
Qed.

(** *** Dropping the zero scores changes neither the maximum nor its first holder *)

Lemma list_max_filter_pos (l : Scores) :
  list_max (map snd (filter (fun p => (0 <? snd p)%nat) l)) = list_max (map snd l).
Proof.
  induction l as [|[t n] l IH]; cbn [filter map snd]; [reflexivity|].
  destruct (Nat.ltb_spec 0 n); cbn [map snd list_max fold_right].
  - change (fold_right Nat.max 0%nat) with list_max. now rewrite IH.
  - change (fold_right Nat.max 0%nat) with list_max. rewrite IH. lia.
Qed.

Lemma find_filter_pos (l : Scores) m :
  (0 < m)%nat ->
  find (fun p => (snd p =? m)%nat) (filter (fun p => (0 <? snd p)%nat) l)
  = find (fun p => (snd p =? m)%nat) l.
Proof.
  intros Hm. induction l as [|[t n] l IH]; cbn [filter find snd]; [reflexivity|].
  destruct (Nat.ltb_spec 0 n); cbn [find snd].
  - now rewrite IH.
  - destruct (Nat.eqb_spec n m); [lia|exact IH].
Qed.

Lemma filter_pos_nil (l : Scores) :
  filter (fun p => (0 <? snd p)%nat) l = [] -> list_max (map snd l) = 0%nat.
Proof.
  induction l as [|[t n] l IH]; cbn [filter map snd]; [reflexivity|].
  destruct (Nat.ltb_spec 0 n); [discriminate|].
  intros Hnil. cbn [list_max fold_right]. change (fold_right Nat.max 0%nat) with list_max.
  rewrite IH by exact Hnil. lia.
Qed.

Lemma find_scored (sc : IntentType -> nat) m order :
  find (fun t => (sc t =? m)%nat) order
  = option_map fst (find (fun p : IntentType * nat => (snd p =? m)%nat)
                         (map (fun t => (t, sc t)) order)).
Proof.
  induction order as [|t order IH]; cbn [map find snd]; [reflexivity|].
  destruct (sc t =? m)%nat; [reflexivity|exact IH].
Qed.

Lemma nodup_filter_keys (l : Scores) f :
  NoDup (map fst l) -> NoDup (map fst (filter f l)).
Proof.
  induction l as [|[t n] l IH]; intros Hnd; cbn [filter]; [constructor|].
  inversion Hnd as [|? ? Hfresh Hnd']; subst.
  destruct (f (t, n)); [|now apply IH].
  cbn [map fst]. constructor; [|now apply IH].
  intro Hin. apply Hfresh. apply in_map_iff in Hin. destruct Hin as ([t' n'] & Heq & Hin).
  cbn in Heq; subst. apply filter_In in Hin. destruct Hin as [Hin _].
  change t with (fst (t, n')). now apply in_map.
Qed.

Section Facts.
Context {text_ops : PyStr.TextOps}.

(** The keyword tier picks the first category, in the order of the
    pattern table, among those with the highest non-zero score. *)
Lemma keyword_detect_spec text :
  _keyword_detect text = best_category pattern_order (PyStr.lower text).
Proof.
  unfold _keyword_detect, best_category. cbv zeta.
  set (tl := PyStr.lower text).
  rewrite collect_scores_filter.
  set (full := map (fun t => (t, category_score tl t)) pattern_order).
  assert (Hmap : map (category_score tl) pattern_order = map snd full).
  { unfold full. rewrite map_map. reflexivity. }
  rewrite Hmap.
  assert (Hnd : NoDup (map fst (filter (fun p => (0 <? snd p)%nat) full))).
  { apply nodup_filter_keys. unfold full. rewrite map_map. cbn [fst].
    rewrite map_id. exact pattern_order_nodup. }
  rewrite (find_scored (category_score tl)). fold full.
  destruct (filter (fun p => (0 <? snd p)%nat) full) as [|[a n] rest] eqn:Ef.
  - rewrite (filter_pos_nil _ Ef). reflexivity.
  - cbn [map fst].
    assert (Hpos : (0 < n)%nat).
    { assert (Hin : In (a, n) (filter (fun p => (0 <? snd p)%nat) full))
        by (rewrite Ef; now left).
      apply filter_In in Hin. destruct Hin as [_ Hp]. now apply Nat.ltb_lt in Hp. }
    rewrite (py_max_from_pairs ((a, n) :: rest) rest a n).
    + destruct (pairs_max_spec rest a n) as [Hs Hf]. cbv zeta in *.
      assert (Hmax : list_max (map snd full) = Nat.max n (list_max (map snd rest))).
      { rewrite <- list_max_filter_pos, Ef. reflexivity. }
      rewrite Hmax.
      destruct (Nat.eqb_spec (Nat.max n (list_max (map snd rest))) 0) as [E|_]; [lia|].
      rewrite <- (find_filter_pos full) by lia. rewrite Ef, Hf. reflexivity.
    + cbn [scores_get]. now rewrite eqb_refl.
    + intros x k Hin. apply scores_get_in; [exact Hnd|now right].
Qed.

Lemma best_category_in order tl t : best_category order tl = Some t -> In t order.
Proof.
  unfold best_category. cbv zeta.
  destruct (_ =? 0)%nat; [discriminate|].
  intros H. apply find_some in H. tauto.
Qed.

Lemma keyword_detect_known text t : _keyword_detect text = Some t -> eqb t UNKNOWN = false.
Proof.
  rewrite keyword_detect_spec. intros H. apply best_category_in in H.
  cbn in H. intuition (subst; reflexivity).
Qed.

Lemma analysis_text_lower text english :
  match english with
  | Some e => if PyStr.truthy e then PyStr.lower e else PyStr.lower text
  | None => PyStr.lower text
  end = PyStr.lower (or_text english text).
Proof. destruct english as [e|]; cbn; [destruct (PyStr.truthy e)|]; reflexivity. Qed.

Variable W : World.

(** A keyword hit is answered at once, with confidence 0.8. *)
Lemma keyword_hit_intent text english d tr t :
  _keyword_detect (PyStr.lower (or_text english text)) = Some t ->
  detect W text english d tr =
  (Ok {| type := t; confidence := 8 # 10; entities := [];
         original_text := text;
         english_text := or_text english text;
         description :=
           _get_intent_description t (PyStr.lower (or_text english text)) |},
   d, tr).
Proof.
  intros Ht. unfold detect. rewrite analysis_text_lower, Ht.
  rewrite (keyword_detect_known _ _ Ht). reflexivity.
Qed.

(** C6, amended.  The keyword tier scores each category of the pattern
    table by the number of its trigger keywords that occur in the
    lower-cased text and answers the category with the highest non-zero
    score; among equal scores it answers the first in the order of the
    pattern table (greeting, weather, time, reminder, calculation,
    question, command), not in the order of the intent enumeration.  The
    detected intent has confidence 0.8, no entities and the canned
    description of its category. *)
Theorem keyword_detection_first_in_pattern_table text english d tr :
  _keyword_detect text = best_category pattern_order (PyStr.lower text) /\
  (forall t,
     _keyword_detect (PyStr.lower (or_text english text)) = Some t ->
     detect W text english d tr =
     (Ok {| type := t; confidence := 8 # 10; entities := [];
            original_text := text;
            english_text := or_text english text;
            description :=
              _get_intent_description t (PyStr.lower (or_text english text)) |},
      d, tr)).
Proof.
  split; [apply keyword_detect_spec|].
  intros t Ht. now apply keyword_hit_intent.
Qed.

(** *** The model tier *)

Lemma get_llm_returns d tr :
  use_llm d = true ->
  _get_llm W d tr =
  match model_import W d tr with
  | Ok _ => (Ok (Some (fallback_llm d)), with_llm d (Some (fallback_llm d)), tr)
  | Raised e => (Raised e, d, tr)
  end.
Proof.
  intros Hu. unfold _get_llm, fallback_llm, model_import. unfold_eff.
  destruct d as [u [l|]]; cbn in *; subst; [reflexivity|].
  destruct (import_from W tr "..llm"); reflexivity.
Qed.

Lemma llm_detect_run original english d tr :
  use_llm d = true ->
  _llm_detect W original english d tr =
  match model_import W d tr with
  | Raised e => (Raised e, d, tr)
  | Ok _ =>
      match Qwen.chat W (classify_prompt english) 100 false (fallback_llm d) tr with
      | (Ok response, llm', tr') =>
          (Ok (_parse_llm_response (Qwen.content response) original english),
           with_llm d (Some llm'), tr')
      | (Raised e, llm', tr') =>
          (Ok (general_intent (5 # 10) "General query" original english),
           with_llm d (Some llm'), tr')
      end
  end.
Proof.
  intros Hu. unfold _llm_detect. unfold bind at 1. rewrite (get_llm_returns _ _ Hu).
  destruct (model_import W d tr); [|reflexivity].
  unfold try_except, bind, on_handle, ret. cbn [_llm with_llm use_llm].
  destruct (Qwen.chat W _ _ _ _ _) as [[[resp|e] llm'] tr']; reflexivity.
Qed.

Lemma detect_fallback_run text english d tr :
  _keyword_detect (PyStr.lower (or_text english text)) = None ->
  use_llm d = true ->
  detect W text english d tr = _llm_detect W text (or_text english text) d tr.
Proof.
  intros Hk Hu. unfold detect. rewrite analysis_text_lower, Hk.
  unfold bind, get. rewrite Hu. reflexivity.
Qed.

Lemma parse_line_general ents descr line :
  unrecognized_line line = true ->
  exists ents' descr', parse_line (GENERAL, ents, descr) line = (GENERAL, ents', descr').
Proof.
  unfold unrecognized_line, parse_line. cbv zeta.
  destruct (PyStr.startswith (PyStr.strip line) "INTENT:").
  - destruct (of_value _); [discriminate|]. eauto.
  - intros _. destruct (PyStr.startswith _ "ENTITIES:").
    + destruct (negb _); eauto.
    + destruct (PyStr.startswith _ "DESCRIPTION:"); eauto.
Qed.

Lemma parse_lines_general lines : forall ents descr,
  forallb unrecognized_line lines = true ->
  exists ents' descr',
    fold_left parse_line lines (GENERAL, ents, descr) = (GENERAL, ents', descr').
Proof.
  induction lines as [|line lines IH]; intros ents descr H; cbn [fold_left].
  - eauto.
  - cbn [forallb] in H. apply andb_prop in H. destruct H as [Hl Hls].
    destruct (parse_line_general ents descr line Hl) as (e1 & d1 & ->).
    now apply IH.
Qed.

(** The parser always answers confidence 0.85, and the [general] intent
    when no line carries a recognized label. *)
Lemma parse_llm_response_spec response original english :
  confidence (_parse_llm_response response original english) = 85 # 100 /\
  (no_recognized_intent response = true ->
   type (_parse_llm_response response original english) = GENERAL).
Proof.
  unfold _parse_llm_response, no_recognized_intent. split.
  - destruct (fold_left _ _ _) as [[ty ents] descr]. reflexivity.
  - intros H.
    destruct (parse_lines_general _ ([] : PyDict.dict string) "General query" H)
      as (e1 & d1 & Hp).
    rewrite Hp. reflexivity.
Qed.

Lemma detect_import_miss text english d tr :
  _keyword_detect (PyStr.lower (or_text english text)) = None ->
  use_llm d = true ->
  detect_import W text english d tr = model_import W d tr.
Proof. intros Hk Hu. unfold detect_import. now rewrite Hk, Hu. Qed.

(** C7.  [detect] does not contain every failure.  When the keyword tier
    finds nothing on a detector that uses the model and holds no model
    object yet, [_llm_detect] calls [_get_llm] before its [try] block: an
    import that raises there raises out of [detect], and the detector is
    as it was.  What the [try] block covers is contained: a failure of the
    model call, the loading of the weights on first use included, is
    answered by the [general] intent with confidence 0.5 and the
    description [General query]; a completed model call is answered with
    confidence 0.85, and by the [general] intent when no line of the output
    carries a recognized intent label. *)
Theorem detect_lets_import_failure_escape text english d tr :
  _keyword_detect (PyStr.lower (or_text english text)) = None ->
  use_llm d = true ->
  (forall e, model_import W d tr = Raised e ->
             detect W text english d tr = (Raised e, d, tr)) /\
  (model_import W d tr = Ok tt ->
   (forall e llm' tr',
      Qwen.chat W (classify_prompt (or_text english text)) 100 false
                (fallback_llm d) tr = (Raised e, llm', tr') ->
      detect W text english d tr =
      (Ok (general_intent (5 # 10) "General query" text (or_text english text)),
       with_llm d (Some llm'), tr')) /\
   (forall response llm' tr',
      Qwen.chat W (classify_prompt (or_text english text)) 100 false
                (fallback_llm d) tr = (Ok response, llm', tr') ->
      exists i,
        detect W text english d tr = (Ok i, with_llm d (Some llm'), tr') /\
        confidence i = 85 # 100 /\
        (no_recognized_intent (Qwen.content response) = true -> type i = GENERAL))).
Proof.
  intros Hk Hu. rewrite (detect_fallback_run _ _ _ _ Hk Hu), (llm_detect_run _ _ _ _ Hu).
  split.
  - intros e ->. reflexivity.
  - intros ->. split.
    + intros e llm' tr' ->. reflexivity.
    + intros response llm' tr' ->. eexists. split; [reflexivity|].
      apply parse_llm_response_spec.
Qed.

(** Without the model tier, a text with no keyword is the [general]
    intent with confidence 0.5. *)
Lemma detect_without_model text english d tr :
  _keyword_detect (PyStr.lower (or_text english text)) = None ->
  use_llm d = false ->
  detect W text english d tr =
  (Ok (general_intent (5 # 10) "General conversation or query" text
                      (or_text english text)), d, tr).
Proof.
  intros Hk Hu. unfold detect. rewrite analysis_text_lower, Hk.
  unfold bind, get, ret. rewrite Hu. reflexivity.
Qed.

End Facts.

Import Scenario.

(** The scenarios of the specification: [hello how are you] ties greeting
    and question at score 2 and is a greeting; the reminder text is a
    reminder. *)
Lemma keyword_detection_first_in_pattern_table_witness :
  @detect PyStr.ascii_text calm "hello how are you" None (init false) [] =
  (Ok {| type := GREETING; confidence := 8 # 10; entities := [];
         original_text := "hello how are you";
         english_text := "hello how are you";
         description := "User is greeting or starting a conversation" |},
   init false, [])
  /\ @collect_scores "hello how are you" = [(GREETING, 2%nat); (QUESTION, 2%nat)]
  /\ @_keyword_detect PyStr.ascii_text "remind me to call mom at 5pm" = Some REMINDER.
Proof.
  split; [|split; reflexivity].
  exact (proj2 (@keyword_detection_first_in_pattern_table PyStr.ascii_text calm
                  "hello how are you" None (init false) []) GREETING eq_refl).
Defined.

(** On [what is the weather] the categories weather and question both
    score 1: the code answers weather, the first of the two in the pattern
    table, where the order of the enumeration puts question first. *)
Lemma tie_follows_pattern_table_not_enumeration :
  category_score (PyStr.ascii_lower "what is the weather") WEATHER = 1%nat /\
  category_score (PyStr.ascii_lower "what is the weather") QUESTION = 1%nat /\
  @_keyword_detect PyStr.ascii_text "what is the weather" = Some WEATHER /\
  best_category all_types (PyStr.ascii_lower "what is the weather") = Some QUESTION.
Proof. repeat split; reflexivity. Qed.

(** The shipped tree: the directory [llm] has no [__init__.py], so the
    import of [QwenLLM] from it raises.  On a text with no keyword the
    default detector, which uses the model, raises out of [detect].  Where
    the import goes through and the weights cannot be loaded, the failure
    is contained. *)
Lemma detect_lets_import_failure_escape_witness :
  @detect PyStr.ascii_text
          (no_llm_package "cannot import name 'QwenLLM' from 'src.llm' (unknown location)")
          "xyzzy" None (init true) [] =
  (Raised "cannot import name 'QwenLLM' from 'src.llm' (unknown location)", init true, [])
  /\
  (exists d' tr',
     @detect PyStr.ascii_text (no_weights "weights not found")
             "xyzzy" None (init true) [] =
     (Ok (general_intent (5 # 10) "General query" "xyzzy" "xyzzy"), d', tr')).
Proof.
  split.
  - apply (proj1 (@detect_lets_import_failure_escape PyStr.ascii_text
                    (no_llm_package
                       "cannot import name 'QwenLLM' from 'src.llm' (unknown location)")
                    "xyzzy" None (init true) [] eq_refl eq_refl)).
    reflexivity.
  - destruct (proj2 (@detect_lets_import_failure_escape PyStr.ascii_text
                       (no_weights "weights not found") "xyzzy" None (init true) []
                       eq_refl eq_refl) eq_refl) as [Hraise _].
    do 2 eexists. eapply Hraise. cbv. reflexivity.
Defined.

End IntentFacts.

(* ------------------------------------------------------------------ *)
(** ** The pipeline orchestrator *)

Module PipelineFacts.
Import EffFacts Pipeline.

Ltac unfold_stage_in H :=
  unfold stage_asr, stage_translate_in, stage_intent, stage_llm,
         stage_translate_out, stage_tts, on_self, assign in H;
  unfold_eff_in H.

Lemma same_fields_refl k r : same_fields k r r.
Proof. destruct k; cbn; repeat split. Qed.

Lemma same_fields_trans k r1 r2 r3 :
  same_fields k r1 r2 -> same_fields k r2 r3 -> same_fields k r1 r3.
Proof.
  destruct k; cbn; intros H1 H2;
    repeat match goal with H : _ /\ _ |- _ => destruct H end;
    repeat split; congruence.
Qed.

Lemma same_status_refl r : same_status r r.
Proof. repeat split. Qed.

Lemma same_status_trans r1 r2 r3 :
  same_status r1 r2 -> same_status r2 r3 -> same_status r1 r3.
Proof.
  unfold same_status. intros H1 H2.
  repeat match goal with H : _ /\ _ |- _ => destruct H end.
  repeat split; congruence.
Qed.

Lemma stages_split k : all_stages = stages_before k ++ stages_from k.
Proof. destruct k; reflexivity. Qed.

Lemma stages_from_head k : exists rest, stages_from k = k :: rest.
Proof. destruct k; eexists; reflexivity. Qed.

Section Facts.
Context {text_ops : PyStr.TextOps}.
Variable W : World.
Variables (audio_path text_input : option string).
Variables (input_language : string) (output_audio_path : option string).

Local Abbreviation stage := (run_stage W audio_path text_input input_language output_audio_path).
Local Abbreviation stages := (run_stages W audio_path text_input input_language output_audio_path).
Local Abbreviation run_process :=
  (process W audio_path text_input input_language output_audio_path).

(** A stage writes its own fields only, and nothing when it raises. *)
Lemma run_stage_effect k f tr r f' tr' :
  stage k f tr = (r, f', tr') ->
  same_status (result f') (result f) /\
  (forall j, j <> k -> same_fields j (result f') (result f)) /\
  (forall m, r = Raised m -> result f' = result f).
Proof.
  intros H. destruct k; cbn [run_stage] in H; unfold_stage_in H;
  run_inv; cbn;
  (split; [ repeat split
          | split; [ intros [] ?; try congruence; cbn; repeat split
                   | intros; try discriminate; try reflexivity ] ]).
Qed.

Lemma run_stages_effect ks : forall f tr r f' tr',
  stages ks f tr = (r, f', tr') ->
  same_status (result f') (result f) /\
  (forall j, ~ In j ks -> same_fields j (result f') (result f)).
Proof.
  induction ks as [|k ks IH]; intros f tr r f' tr' H.
  - inversion H; subst. split; [apply same_status_refl|].
    intros; apply same_fields_refl.
  - cbn [run_stages] in H. unfold bind in H.
    destruct (stage k f tr) as [[o f1] tr1] eqn:E.
    destruct (run_stage_effect _ _ _ _ _ _ E) as (Hs & Hf & Hr).
    destruct o.
    + destruct (IH _ _ _ _ _ H) as (Hs' & Hf').
      split; [eapply same_status_trans; eauto|].
      intros j Hj. eapply same_fields_trans.
      * apply Hf'. intro; apply Hj; now right.
      * apply Hf. intro; apply Hj; now left.
    + inversion H; subst. rewrite (Hr _ eq_refl).
      split; [apply same_status_refl|]. intros; apply same_fields_refl.
Qed.

Lemma run_stages_app ks1 ks2 : forall f tr,
  stages (ks1 ++ ks2) f tr =
  match stages ks1 f tr with
  | (Ok _, f1, tr1) => stages ks2 f1 tr1
  | (Raised e, f1, tr1) => (Raised e, f1, tr1)
  end.
Proof.
  induction ks1 as [|k ks1 IH]; intros f tr.
  - reflexivity.
  - cbn [app run_stages]. unfold bind.
    destruct (stage k f tr) as [[[] f1] tr1]; [apply IH | reflexivity].
Qed.

(** The [try] body is the six stages in order, then [result.success = True]. *)
Lemma process_body_stages f tr :
  process_body W audio_path text_input input_language output_audio_path f tr =
  match stages all_stages f tr with
  | (Ok _, f1, tr1) =>
      (Ok tt, {| self := self f1; result := set_success true (result f1) |}, tr1)
  | (Raised e, f1, tr1) => (Raised e, f1, tr1)
  end.
Proof.
  unfold process_body, all_stages. cbn [run_stages run_stage]. unfold bind.
  repeat match goal with
  | |- context [match ?m f tr with _ => _ end] =>
      destruct (m f tr) as [[[] ?f] ?tr]; try reflexivity
  | |- context [match ?m ?g ?t with _ => _ end] =>
      destruct (m g t) as [[[] ?f] ?tr]; try reflexivity
  end.
Qed.

(** [process] as a function of the run of its [try] body. *)
Lemma process_unfold p tr :
  run_process p tr =
  let t0 := perf_counter W tr in
  match process_body W audio_path text_input input_language output_audio_path
          {| self := p; result := new_result audio_path |} (tr ++ [CPerfCounter]) with
  | (Ok _, f1, tr1) =>
      let r := set_total_time_ms (elapsed_ms t0 (perf_counter W tr1)) (result f1) in
      (Ok r, self f1, tr1 ++ [CPerfCounter])
  | (Raised e, f1, tr1) =>
      let r := set_total_time_ms (elapsed_ms t0 (perf_counter W tr1))
                 (set_error (Some e) (set_success false (result f1))) in
      (Ok r, self f1, tr1 ++ [CPerfCounter])
  end.
Proof.
  unfold process, process_frame, assign. unfold_eff.
  destruct (process_body _ _ _ _ _ _ _) as [[[] f1] tr1]; reflexivity.
Qed.

(** [process] returns a record on every input: nothing escapes the handler. *)
Lemma process_returns p tr :
  exists r p' tr', run_process p tr = (Ok r, p', tr').
Proof.
  rewrite process_unfold. cbv zeta.
  destruct (process_body _ _ _ _ _ _ _) as [[[] f1] tr1]; eauto.
Qed.

(** Containment of a failing stage, whichever it is. *)
Lemma stage_failure_contained p tr k f tr1 msg f' tr2 :
  stages (stages_before k) {| self := p; result := new_result audio_path |}
         (tr ++ [CPerfCounter]) = (Ok tt, f, tr1) ->
  stage k f tr1 = (Raised msg, f', tr2) ->
  exists r,
    run_process p tr = (Ok r, self f', tr2 ++ [CPerfCounter]) /\
    success r = false /\ error r = Some msg /\
    (forall j, In j (stages_before k) -> same_fields j r (result f)) /\
    (forall j, ~ In j (stages_before k) -> same_fields j r (new_result audio_path)).
Proof.
  intros Hpre Hk.
  destruct (run_stage_effect _ _ _ _ _ _ Hk) as (_ & _ & Hres).
  specialize (Hres _ eq_refl).
  destruct (run_stages_effect _ _ _ _ _ _ Hpre) as (_ & Hframe). cbn [result] in Hframe.
  rewrite process_unfold, process_body_stages, (stages_split k), run_stages_app, Hpre.
  destruct (stages_from_head k) as [rest ->]. cbn [run_stages]. unfold bind. rewrite Hk.
  cbv zeta. eexists. split; [reflexivity|]. rewrite Hres.
  split; [reflexivity|]. split; [reflexivity|]. split.
  - intros j _. destruct j; cbn; repeat split.
  - intros j Hj. eapply same_fields_trans; [|apply (Hframe j Hj)].
    destruct j; cbn; repeat split.
Qed.

(** C1.  [process] returns a record on every input, whatever the engines
    do.  When one of the stages 1, 2, 4, 5, 6 is the first to raise, after
    the earlier stages ran to their end, the record has [success = false]
    and the raised message in [error]; the fields of the earlier stages
    are as those stages left them, the fields of the failing stage and of
    the later ones are at their defaults, and the only call made after the
    failure is the final reading of the clock: the remaining stages are
    skipped. *)
Theorem process_contains_stage_failures p tr :
  (exists r p' tr',
     process W audio_path text_input input_language output_audio_path p tr
     = (Ok r, p', tr')) /\
  (forall k f tr1 msg f' tr2,
     k <> IntentDetection ->
     run_stages W audio_path text_input input_language output_audio_path
                (stages_before k)
                {| self := p; result := new_result audio_path |}
                (tr ++ [CPerfCounter]) = (Ok tt, f, tr1) ->
     run_stage W audio_path text_input input_language output_audio_path k f tr1
     = (Raised msg, f', tr2) ->
     exists r,
       process W audio_path text_input input_language output_audio_path p tr
       = (Ok r, self f', tr2 ++ [CPerfCounter]) /\
       success r = false /\ error r = Some msg /\
       (forall j, In j (stages_before k) -> same_fields j r (result f)) /\
       (forall j, ~ In j (stages_before k) -> same_fields j r (new_result audio_path))).
Proof.
  split; [apply process_returns|].
  intros k f tr1 msg f' tr2 _ Hpre Hk.
  eapply stage_failure_contained; eauto.
Qed.

(** The status fields after the [try] body: untouched when it raises, with
    [success] set when it ends. *)
Lemma process_body_status f tr o f' tr' :
  process_body W audio_path text_input input_language output_audio_path f tr = (o, f', tr') ->
  error (result f') = error (result f) /\
  match o with
  | Ok _ => success (result f') = true
  | Raised _ => success (result f') = success (result f)
  end.
Proof.
  rewrite process_body_stages.
  destruct (stages all_stages f tr) as [[o1 f1] tr1] eqn:E.
  destruct (run_stages_effect _ _ _ _ _ _ E) as ((_ & _ & Hsucc & Herr) & _).
  destruct o1; intros H; inversion H; subst; cbn; auto.
Qed.

(** C2, amended.  For every record [process] returns, [success] is false
    exactly when [error] is set (is not [None]), and true exactly when
    [error] is [None].  The text in [error] is the message of the raised
    exception, which may be the empty text. *)
Theorem success_iff_error_set p tr :
  exists r p' tr',
    process W audio_path text_input input_language output_audio_path p tr
    = (Ok r, p', tr') /\
    (success r = false <-> error r <> None) /\
    (success r = true <-> error r = None) /\
    (error_nonempty r = true -> success r = false).
Proof.
  rewrite process_unfold. cbv zeta.
  destruct (process_body _ _ _ _ _ _ _) as [[o f1] tr1] eqn:E.
  destruct (process_body_status _ _ _ _ _ E) as (Herr & Hsucc). cbn in Herr.
  destruct o; do 3 eexists; (split; [reflexivity|]); unfold error_nonempty; cbn.
  - rewrite Hsucc, Herr. repeat split; intros; congruence.
  - repeat split; intros; congruence.
Qed.

(** C10.  With neither an audio reference nor a text ([None] or the empty
    text for both), [process] returns the record that has [success = false],
    the fixed message in [error] and every stage field at its default; the
    only calls made are the two readings of the clock. *)
Theorem process_without_input p tr :
  PyStr.truthy_opt audio_path = false ->
  PyStr.truthy_opt text_input = false ->
  process W audio_path text_input input_language output_audio_path p tr =
  (Ok {| audio_input := audio_path;
         malayalam_text := ""; asr_time_ms := 0;
         english_text := ""; translation_ml_en_time_ms := 0;
         intent_type := ""; intent_description := ""; intent_confidence := 0;
         intent_entities := [];
         english_response := ""; llm_time_ms := 0;
         malayalam_response := ""; translation_en_ml_time_ms := 0;
         audio_output := None; tts_time_ms := 0;
         total_time_ms :=
           elapsed_ms (perf_counter W tr) (perf_counter W (tr ++ [CPerfCounter]));
         success := false;
         error := Some "Either audio_path or text_input must be provided" |},
   p, tr ++ [CPerfCounter; CPerfCounter]).
Proof.
  intros Ha Ht. rewrite process_unfold.
  unfold process_body, stage_asr. rewrite Ha, Ht. unfold bind, raise. cbv zeta.
  rewrite <- app_assoc. reflexivity.
Qed.

(** *** Calls made by [process] *)

Local Abbreviation quiet := (fun c : Call => is_ml_to_en c = false).

Lemma emits_qwen_load_model : emits quiet (Qwen.load_model W).
Proof. unfold Qwen.load_model. emits_auto. Qed.

Lemma emits_qwen_chat user_input n remember :
  emits quiet (Qwen.chat W user_input n remember).
Proof.
  pose proof emits_qwen_load_model.
  unfold Qwen.chat. emits_auto.
Qed.

Lemma emits_intent_detect text english :
  emits quiet (Intent.detect W text english).
Proof.
  pose proof emits_qwen_chat.
  unfold Intent.detect, Intent._llm_detect, Intent._get_llm. emits_auto.
Qed.

Lemma emits_detector_detect text english :
  emits quiet (detector_detect W text english).
Proof.
  intros d tr r d' tr' H. unfold detector_detect in H. destruct d as [det|answer].
  - destruct (Intent.detect W text (Some english) det tr) as [[o det'] tr1] eqn:E.
    inversion H; subst. eapply emits_intent_detect; eauto.
  - inversion H; subst. exists [CDetect text english]. auto.
Qed.

Lemma emits_loaders :
  emits quiet (_load_asr W) /\ emits quiet (_load_translator W) /\
  emits quiet (_load_llm W) /\ emits quiet (_load_tts W).
Proof.
  pose proof emits_qwen_load_model.
  unfold _load_asr, _load_translator, _load_llm, _load_tts,
         whisper_load_model, load_models, Qwen.set_system_prompt.
  repeat split; emits_auto.
Qed.

Lemma emits_stage k :
  String.eqb input_language "ml" = false ->
  emits quiet (stage k).
Proof.
  intros Hlang.
  destruct emits_loaders as (? & ? & ? & ?).
  pose proof emits_qwen_chat. pose proof emits_detector_detect.
  destruct k; cbn [run_stage];
    unfold stage_asr, stage_translate_in, stage_intent, stage_llm,
           stage_translate_out, stage_tts, on_self, assign,
           transcribe_text, en_to_ml, translate, synthesize_audio;
    rewrite ?Hlang; emits_auto.
Qed.

Lemma emits_stages ks :
  String.eqb input_language "ml" = false ->
  emits quiet (stages ks).
Proof.
  intros Hlang. induction ks as [|k ks IH]; cbn [run_stages].
  - apply emits_ret.
  - apply emits_bind; [now apply emits_stage | intros; exact IH].
Qed.

(** With an input language other than [ml], stage 2 copies the text and
    calls nothing. *)
Lemma translate_in_passthrough f tr :
  String.eqb input_language "ml" = false ->
  stage_translate_in W input_language f tr =
  (Ok tt,
   {| self := self f;
      result := set_translation_ml_en_time_ms 0
                  (set_english_text (malayalam_text (result f)) (result f)) |},
   tr).
Proof. intros Hlang. unfold stage_translate_in. rewrite Hlang. reflexivity. Qed.

(** After the stages, the inbound translation time is still zero. *)
Lemma inbound_time_zero f tr o f' tr' :
  String.eqb input_language "ml" = false ->
  translation_ml_en_time_ms (result f) = 0 ->
  stages all_stages f tr = (o, f', tr') ->
  translation_ml_en_time_ms (result f') = 0.
Proof.
  intros Hlang H0 H. unfold all_stages in H. cbn [run_stages] in H.
  unfold bind at 1 in H.
  destruct (stage ASR f tr) as [[o1 f1] tr1] eqn:E1.
  destruct (run_stage_effect _ _ _ _ _ _ E1) as (_ & Hf1 & Hr1).
  destruct o1.
  - unfold bind at 1 in H. cbn [run_stage] in H.
    rewrite (translate_in_passthrough _ _ Hlang) in H.
    match type of H with
    | bind ?m ?k ?g ?t = _ =>
        change (bind m k g t) with (stages [IntentDetection; LLM; TranslateOut; TTS] g t) in H
    end.
    destruct (run_stages_effect _ _ _ _ _ _ H) as (_ & Hrest).
    assert (Hn : ~ In TranslateIn [IntentDetection; LLM; TranslateOut; TTS])
      by (cbn; intuition discriminate).
    destruct (Hrest TranslateIn Hn) as [_ Ht]. rewrite Ht. reflexivity.
  - inversion H; subst. rewrite (Hr1 _ eq_refl). exact H0.
Qed.

(** *** Every run extends the history *)

Local Abbreviation any := (fun _ : Call => True).

Lemma extends_qwen_chat user_input n remember :
  emits any (Qwen.chat W user_input n remember).
Proof. unfold Qwen.chat, Qwen.load_model. emits_auto. Qed.

Lemma extends_detector_detect text english :
  emits any (detector_detect W text english).
Proof.
  pose proof extends_qwen_chat as Hchat.
  intros d tr r d' tr' H. unfold detector_detect in H. destruct d as [det|answer].
  - destruct (Intent.detect W text (Some english) det tr) as [[o det'] tr1] eqn:E.
    inversion H; subst. revert E.
    assert (K : emits any (Intent.detect W text (Some english))).
    { unfold Intent.detect, Intent._llm_detect, Intent._get_llm. emits_auto. }
    apply K.
  - inversion H; subst. exists [CDetect text english]. auto.
Qed.

Lemma extends_stage a t l o k : emits any (run_stage W a t l o k).
Proof.
  pose proof extends_qwen_chat. pose proof extends_detector_detect.
  destruct k; cbn [run_stage];
    unfold stage_asr, stage_translate_in, stage_intent, stage_llm,
           stage_translate_out, stage_tts, on_self, assign,
           _load_asr, _load_translator, _load_llm, _load_tts,
           whisper_load_model, load_models, Qwen.set_system_prompt, Qwen.load_model,
           transcribe_text, ml_to_en, en_to_ml, translate, synthesize_audio;
    emits_auto.
Qed.

Lemma extends_stages a t l o ks : emits any (run_stages W a t l o ks).
Proof.
  induction ks as [|k ks IH]; cbn [run_stages].
  - apply emits_ret.
  - apply emits_bind; [apply extends_stage | intros; exact IH].
Qed.

Lemma extends_loaders :
  emits any (_load_asr W) /\ emits any (_load_translator W) /\
  emits any (_load_llm W) /\ emits any (_load_tts W).
Proof.
  unfold _load_asr, _load_translator, _load_llm, _load_tts,
         whisper_load_model, load_models, Qwen.set_system_prompt, Qwen.load_model.
  repeat split; emits_auto.
Qed.

(** A completed stage 5 has asked for the translation of the reply. *)
Lemma translate_out_calls f tr f' tr' :
  stage_translate_out W f tr = (Ok tt, f', tr') ->
  exists mid, tr' = tr ++ mid /\
              In (CTranslate (english_response (result f)) "en" "ml") mid.
Proof.
  intros H. unfold stage_translate_out, on_self, assign in H. unfold_eff_in H.
  destruct (_load_translator W (self f) (tr ++ [CPerfCounter])) as [[o1 p1] tr1] eqn:E1.
  destruct emits_loaders as (_ & Hl & _).
  destruct (Hl _ _ _ _ _ E1) as [n1 [-> _]].
  unfold on_handle, en_to_ml, translate, call in H. cbn [self result] in H.
  run_inv.
  eexists. split.
  - rewrite <- !app_assoc. reflexivity.
  - apply in_or_app; right. apply in_or_app; right. apply in_or_app; left. now left.
Qed.

(** When all six stages complete, the reply was sent to the translator,
    whatever the language tag of the input. *)
Lemma outbound_translation_called f tr f' tr' :
  stages all_stages f tr = (Ok tt, f', tr') ->
  exists new, tr' = tr ++ new /\
              In (CTranslate (english_response (result f')) "en" "ml") new.
Proof.
  intros H. rewrite (stages_split TranslateOut), run_stages_app in H.
  destruct (stages (stages_before TranslateOut) f tr) as [[o4 f4] tr4] eqn:E4.
  destruct o4; [|discriminate H].
  cbn [stages_from run_stages] in H. unfold bind in H.
  destruct (stage TranslateOut f4 tr4) as [[o5 f5] tr5] eqn:E5.
  destruct o5 as [[]|]; [|discriminate H].
  destruct (stage TTS f5 tr5) as [[o6 f6] tr6] eqn:E6.
  destruct o6 as [[]|]; [|discriminate H]. inversion H; subst; clear H.
  destruct (run_stage_effect _ _ _ _ _ _ E5) as (_ & H5 & _).
  destruct (run_stage_effect _ _ _ _ _ _ E6) as (_ & H6 & _).
  destruct (H5 LLM ltac:(discriminate)) as [R5 _].
  destruct (H6 LLM ltac:(discriminate)) as [R6 _].
  destruct (extends_stages _ _ _ _ _ _ _ _ _ _ E4) as [n4 [-> _]].
  destruct (extends_stage _ _ _ _ TTS _ _ _ _ _ E6) as [n6 [-> _]].
  cbn [run_stage] in E5. destruct (translate_out_calls _ _ _ _ E5) as [mid [-> Hin]].
  exists (n4 ++ mid ++ n6). split.
  - rewrite <- !app_assoc. reflexivity.
  - rewrite R6, R5. apply in_or_app; right. apply in_or_app; now left.
Qed.

(** The intent stage raises what the detector raises. *)
Lemma stage_intent_raises f tr d msg d' tr' :
  detect_intent (self f) = true ->
  _intent_detector (self f) = Some d ->
  detector_detect W (malayalam_text (result f)) (english_text (result f)) d tr
    = (Raised msg, d', tr') ->
  stage_intent W f tr
    = (Raised msg, set_self f (set_intent_detector (self f) (Some d')), tr').
Proof.
  intros Hen Hd Hrun. unfold stage_intent, on_self, on_handle. unfold_eff.
  rewrite Hen, Hd. cbn [andb is_set negb]. rewrite Hd. cbn [andb is_set negb].
  unfold set_self. cbn [self result]. rewrite Hd, Hrun. reflexivity.
Qed.

(** C4, amended.  A failure raised by the detector in the intent stage is
    not caught in that stage: it reaches the handler of [process] like the
    failure of any other stage.  The call is marked failed with the
    detector's message, the intent fields and the fields of stages 4 to 6
    stay at their defaults, the fields of stages 1 and 2 keep their values,
    and stages 4 to 6 are skipped. *)
Theorem intent_failure_fails_the_call p tr f tr1 d msg d' tr2 :
  run_stages W audio_path text_input input_language output_audio_path
             [ASR; TranslateIn]
             {| self := p; result := new_result audio_path |}
             (tr ++ [CPerfCounter]) = (Ok tt, f, tr1) ->
  detect_intent (self f) = true ->
  _intent_detector (self f) = Some d ->
  detector_detect W (malayalam_text (result f)) (english_text (result f)) d tr1
    = (Raised msg, d', tr2) ->
  exists r p',
    process W audio_path text_input input_language output_audio_path p tr
    = (Ok r, p', tr2 ++ [CPerfCounter]) /\
    success r = false /\ error r = Some msg /\
    same_fields ASR r (result f) /\ same_fields TranslateIn r (result f) /\
    (forall j, In j [IntentDetection; LLM; TranslateOut; TTS] ->
               same_fields j r (new_result audio_path)).
Proof.
  intros Hpre Hen Hd Hrun.
  pose proof (stage_intent_raises _ _ _ _ _ _ Hen Hd Hrun) as Hk.
  destruct (stage_failure_contained p tr IntentDetection _ _ _ _ _ Hpre Hk)
    as (r & Hp & Hs & He & Hbefore & Hafter).
  exists r. eexists. split; [exact Hp|].
  split; [exact Hs|]. split; [exact He|].
  split; [apply Hbefore; cbn; auto|]. split; [apply Hbefore; cbn; auto|].
  intros j Hj. apply Hafter. cbn in *. intuition (subst; discriminate).
Qed.

End Facts.

(** The keyword-only detector that [_load_intent_detector] installs never
    raises and calls nothing. *)
Lemma keyword_detector_returns {text_ops : PyStr.TextOps} W text english tr :
  exists i,
    detector_detect W text english (RepoDetector (Intent.init false)) tr
    = (Ok i, RepoDetector (Intent.init false), tr).
Proof.
  assert (H : forall det, Intent.use_llm det = false ->
            exists i, Intent.detect W text (Some english) det tr = (Ok i, det, tr)).
  { intros det Hu. unfold Intent.detect.
    destruct (Intent._keyword_detect _) as [t|]; [destruct (negb _)|];
      unfold_eff; rewrite ?Hu; eauto. }
  destruct (H (Intent.init false) eq_refl) as [i Hi].
  unfold detector_detect. rewrite Hi. eauto.
Qed.

(** C3, amended.  For a text whose language tag is English (any tag other
    than [ml]), the translation from the target language to English is
    never invoked and its elapsed time is zero.  The translation of the
    reply from English to the target language does not depend on the tag:
    whatever the tag, every call that succeeds has asked the translator for
    it. *)
Theorem english_input_skips_inbound_translation
        {text_ops : PyStr.TextOps} W text lang out p tr :
  exists r p' new,
    process_text W text lang out p tr = (Ok r, p', tr ++ new) /\
    (String.eqb lang "ml" = false ->
     Forall (fun c => is_ml_to_en c = false) new /\
     translation_ml_en_time_ms r = 0) /\
    (success r = true -> In (CTranslate (english_response r) "en" "ml") new).
Proof.
  unfold process_text.
  rewrite process_unfold, process_body_stages. cbv zeta.
  destruct (run_stages W None (Some text) lang out all_stages _ _)
    as [[o f1] tr1] eqn:E.
  destruct (extends_stages W None (Some text) lang out all_stages _ _ _ _ _ E)
    as [n [-> _]].
  assert (Hin : String.eqb lang "ml" = false ->
                Forall (fun c => is_ml_to_en c = false) n /\
                translation_ml_en_time_ms (result f1) = 0).
  { intros Hlang. split.
    - destruct (emits_stages W None (Some text) lang out all_stages Hlang _ _ _ _ _ E)
        as [n' [Hn' Hq]].
      apply app_inv_head in Hn'. now subst n'.
    - exact (inbound_time_zero W None (Some text) lang out
               {| self := p; result := new_result None |} _ _ _ _ Hlang eq_refl E). }
  destruct o as [[]|e]; do 3 eexists.
  - split; [rewrite <- !app_assoc; reflexivity|]. split.
    + intros Hlang. destruct (Hin Hlang) as [Hq Hz]. split; [|exact Hz].
      apply Forall_app; split; [constructor; [reflexivity|constructor]|].
      apply Forall_app; split; [exact Hq|constructor; [reflexivity|constructor]].
    + intros _. cbn.
      destruct (outbound_translation_called W None (Some text) lang out _ _ _ _ E)
        as [n' [Hn' Hout]].
      apply app_inv_head in Hn'. subst n'.
      right. apply in_or_app; now left.
  - split; [rewrite <- !app_assoc; reflexivity|]. split.
    + intros Hlang. destruct (Hin Hlang) as [Hq Hz]. split; [|exact Hz].
      apply Forall_app; split; [constructor; [reflexivity|constructor]|].
      apply Forall_app; split; [exact Hq|constructor; [reflexivity|constructor]].
    + cbn. discriminate.
Qed.

Import Scenario.

(** The scenario of the specification: the language model raises during
    response generation.  The texts of stages 1 to 3 are in the record, the
    reply, its translation and the audio are at their defaults. *)
Lemma process_contains_stage_failures_witness :
  exists r p' tr',
    @process_text PyStr.ascii_text (llm_down "CUDA out of memory")
                  "hello how are you" "en" None loaded [] = (Ok r, p', tr') /\
    success r = false /\ error r = Some "CUDA out of memory" /\
    malayalam_text r = "hello how are you" /\
    english_text r = "hello how are you" /\
    intent_type r = "greeting" /\
    english_response r = "" /\ malayalam_response r = "" /\ audio_output r = None.
Proof.
  edestruct (proj2 (@process_contains_stage_failures PyStr.ascii_text
                      (llm_down "CUDA out of memory")
                      None (Some "hello how are you") "en" None loaded []))
    with (k := LLM) as (r & Hrun & Hs & He & Hbefore & Hafter).
  - discriminate.
  - cbv. reflexivity.
  - cbv. reflexivity.
  - exists r. do 2 eexists.
    split; [exact Hrun|]. split; [exact Hs|]. split; [exact He|].
    destruct (Hbefore ASR (or_introl eq_refl)) as [H1 _].
    destruct (Hbefore TranslateIn (or_intror (or_introl eq_refl))) as [H2 _].
    destruct (Hbefore IntentDetection (or_intror (or_intror (or_introl eq_refl)))) as [H3 _].
    assert (Hl : ~ In LLM (stages_before LLM)) by (cbn; intuition discriminate).
    assert (Ho : ~ In TranslateOut (stages_before LLM)) by (cbn; intuition discriminate).
    assert (Ht : ~ In TTS (stages_before LLM)) by (cbn; intuition discriminate).
    destruct (Hafter LLM Hl) as [H4 _].
    destruct (Hafter TranslateOut Ho) as [H5 _].
    destruct (Hafter TTS Ht) as [H6 _].
    rewrite H1, H2, H3, H4, H5, H6. repeat split.
Defined.

(** C2 as stated fails when the raised exception has no message: the call
    is marked failed and the error field holds the empty text. *)
Lemma success_iff_error_set_counterexample :
  exists r p' tr',
    @process_text PyStr.ascii_text (llm_down "") "hello how are you" "en" None loaded []
      = (Ok r, p', tr') /\
    success r = false /\ error r = Some "" /\ error_nonempty r = false.
Proof. do 3 eexists. split; [cbv; reflexivity|]. repeat split. Qed.

(** An English text and a Malayalam text on a loaded orchestrator: no
    translation into English for the first, and the reply of both is sent
    to the translator. *)
Lemma english_input_skips_inbound_translation_witness :
  (exists r p' new,
     @process_text PyStr.ascii_text calm "hello how are you" "en" None loaded []
       = (Ok r, p', [] ++ new) /\
     Forall (fun c => is_ml_to_en c = false) new /\
     translation_ml_en_time_ms r = 0 /\
     (success r = true -> In (CTranslate (english_response r) "en" "ml") new)) /\
  (exists r p' new,
     @process_text PyStr.ascii_text calm "namaskaram sukhamano" "ml" None loaded []
       = (Ok r, p', [] ++ new) /\
     success r = true /\
     In (CTranslate (english_response r) "en" "ml") new).
Proof.
  split.
  - destruct (@english_input_skips_inbound_translation PyStr.ascii_text calm
                "hello how are you" "en" None loaded [])
      as (r & p' & new & H & Hin & Hout).
    destruct (Hin eq_refl) as [Hq Hz].
    exists r, p', new. auto.
  - destruct (@english_input_skips_inbound_translation PyStr.ascii_text calm
                "namaskaram sukhamano" "ml" None loaded [])
      as (r & p' & new & H & _ & Hout).
    assert (Hs : success r = true).
    { cbv in H. inversion H. reflexivity. }
    exists r, p', new. auto.
Defined.

(** C3 as stated fails: for an English text the reply is still sent to the
    translator (English to Malayalam), and the time of that stage is not
    zero. *)
Lemma english_reply_is_translated :
  exists r p' tr',
    @process_text PyStr.ascii_text calm "hello how are you" "en" None loaded []
      = (Ok r, p', tr') /\
    success r = true /\
    In (CTranslate "I am fine, thank you." "en" "ml") tr' /\
    existsb is_translation tr' = true /\
    Qeq_bool (translation_en_ml_time_ms r) 0 = false.
Proof.
  do 3 eexists. split; [cbv; reflexivity|].
  split; [reflexivity|]. split; [cbn; intuition|]. split; reflexivity.
Qed.

(** A detector object whose [detect] raises. *)
Lemma intent_failure_fails_the_call_witness :
  exists r p' tr',
    @process_text PyStr.ascii_text calm "hello how are you" "en" None
                  (with_failing_detector "detector unavailable") []
      = (Ok r, p', tr') /\
    success r = false /\ error r = Some "detector unavailable" /\
    malayalam_text r = "hello how are you" /\ english_text r = "hello how are you" /\
    intent_type r = "" /\ english_response r = "" /\ audio_output r = None.
Proof.
  edestruct (@intent_failure_fails_the_call PyStr.ascii_text calm
               None (Some "hello how are you") "en" None
               (with_failing_detector "detector unavailable") [])
    as (r & p' & Hrun & Hs & He & [H1 _] & [H2 _] & Hlater).
  - cbv. reflexivity.
  - reflexivity.
  - reflexivity.
  - cbv. reflexivity.
  - exists r, p'. eexists. split; [exact Hrun|].
    split; [exact Hs|]. split; [exact He|].
    destruct (Hlater IntentDetection (or_introl eq_refl)) as [H3 _].
    destruct (Hlater LLM (or_intror (or_introl eq_refl))) as [H4 _].
    destruct (Hlater TTS (or_intror (or_intror (or_intror (or_introl eq_refl))))) as [H6 _].
    rewrite H1, H2, H3, H4, H6. repeat split.
Defined.

(** C4 as stated fails: when the detector raises, the call is marked
    failed with the detector's message and nothing is called after the
    detector but the clock; no reply is generated. *)
Lemma failing_detector_aborts_pipeline :
  exists r p',
    @process_text PyStr.ascii_text calm "hello how are you" "en" None
                  (with_failing_detector "boom") []
      = (Ok r, p',
         [CPerfCounter; CDetect "hello how are you" "hello how are you"; CPerfCounter]) /\
    success r = false /\ error r = Some "boom" /\
    english_response r = "" /\ malayalam_response r = "" /\ audio_output r = None.
Proof. do 2 eexists. split; [cbv; reflexivity|]. repeat split. Qed.

(** A call with no argument at all. *)
Lemma process_without_input_witness :
  exists r,
    @process PyStr.ascii_text calm None None "ml" None fresh []
      = (Ok r, fresh, [CPerfCounter; CPerfCounter]) /\
    success r = false /\
    error r = Some "Either audio_path or text_input must be provided" /\
    malayalam_text r = "" /\ english_text r = "" /\ english_response r = "".
Proof.
  eexists. split.
  - apply (@process_without_input PyStr.ascii_text calm None None "ml" None fresh []);
      reflexivity.
  - repeat split.
Defined.

(** With no detector loaded the intent stage does nothing: the handle is
    tested before the branch that would construct it. *)
Lemma stage_intent_skipped_when_unloaded {text_ops : PyStr.TextOps} W f tr :
  _intent_detector (self f) = None ->
  stage_intent W f tr = (Ok tt, f, tr).
Proof.
  intros Hd. unfold stage_intent. unfold_eff. rewrite Hd, andb_false_r. reflexivity.
Qed.

(** C5, the code at the failing input.  On a fresh orchestrator with
    intent detection enabled, [process_text] on the text
    [hello how are you] completes with the intent fields at their defaults
    and leaves the detector handle unset: the stage is skipped, no detector
    is constructed.  The same call after [load_components] reports the
    greeting intent with confidence 0.8. *)
Theorem unloaded_detector_is_skipped :
  exists r p' tr' r2 p2 tr2,
    detect_intent fresh = true /\ is_set (_intent_detector fresh) = false /\
    @process_text PyStr.ascii_text calm "hello how are you" "en" None fresh []
      = (Ok r, p', tr') /\
    success r = true /\
    intent_type r = "" /\ intent_description r = "" /\
    intent_confidence r = 0 /\ intent_entities r = [] /\
    is_set (_intent_detector p') = false /\
    @process_text PyStr.ascii_text calm "hello how are you" "en" None loaded []
      = (Ok r2, p2, tr2) /\
    intent_type r2 = "greeting" /\ intent_confidence r2 = 8 # 10.
Proof.
  do 6 eexists. split; [reflexivity|]. split; [reflexivity|].
  split; [cbv; reflexivity|]. do 6 (split; [reflexivity|]).
  split; [cbv; reflexivity|]. split; reflexivity.
Qed.

End PipelineFacts.

(* ------------------------------------------------------------------ *)
(** ** The agent graph *)

Module AgentsFacts.
Import Agents.

Lemma dict_set_fresh {V} (d : PyDict.dict V) k v :
  ~ In k (PyDict.keys d) -> PyDict.set d k v = d ++ [(k, v)].
Proof.
  induction d as [|[k' v'] d IH]; intros Hk; cbn.
  - reflexivity.
  - destruct (String.eqb_spec k' k) as [->|Hne].
    + exfalso. apply Hk. now left.
    + rewrite IH; [reflexivity|]. intro. apply Hk. now right.
Qed.

(** The loop of the aggregate step collects the fragments in order. *)
Lemma collect_responses (outputs : PyDict.dict AgentOutput) : forall acc,
  fold_left
    (fun responses '(agent_name, output) =>
       match response output with
       | Some r => responses ++ [r]
       | None => responses
       end) outputs acc
  = acc ++ fragments_with_response outputs.
Proof.
  induction outputs as [|[name out] outputs IH]; intros acc; cbn.
  - now rewrite app_nil_r.
  - rewrite IH. destruct (response out); cbn.
    + now rewrite <- app_assoc.
    + reflexivity.
Qed.

Lemma generate_response_spec st :
  final_response (_generate_response st) =
  Some (match fragments_with_response (agent_outputs st) with
        | [] => FALLBACK_RESPONSE
        | _ :: _ => PyStr.join " " (fragments_with_response (agent_outputs st))
        end).
Proof.
  unfold _generate_response. cbn [final_response set_final_response].
  rewrite collect_responses. reflexivity.
Qed.

Lemma node_name_inj h1 h2 : node_name h1 = node_name h2 -> h1 = h2.
Proof. destruct h1, h2; cbn; intros H; try reflexivity; discriminate H. Qed.

Section Facts.
Context {text_ops : PyStr.TextOps}.

(** A handler stores its fragment under its own name. *)
Lemma handler_action h st :
  is_handler h = true ->
  node_action h st =
  set_agent_outputs
    (PyDict.set (agent_outputs st) (node_name h) (handler_output h (user_input st))) st.
Proof. destruct h; intros Hh; try discriminate Hh; reflexivity. Qed.

Lemma run_handlers_outputs hs : forall st,
  Forall (fun h => is_handler h = true) hs ->
  NoDup (PyDict.keys (agent_outputs st) ++ map node_name hs) ->
  agent_outputs (run_handlers hs st) =
    agent_outputs st ++ map (fun h => (node_name h, handler_output h (user_input st))) hs
  /\ user_input (run_handlers hs st) = user_input st.
Proof.
  induction hs as [|h hs IH]; intros st Hall Hnd; cbn.
  - now rewrite app_nil_r.
  - inversion Hall as [|? ? Hh Hhs]; subst.
    rewrite (handler_action h st Hh).
    assert (Hfresh : ~ In (node_name h) (PyDict.keys (agent_outputs st))).
    { intro Hin. apply NoDup_remove_2 in Hnd. apply Hnd.
      apply in_or_app. now left. }
    destruct (IH (set_agent_outputs
                    (PyDict.set (agent_outputs st) (node_name h)
                                (handler_output h (user_input st))) st) Hhs) as [Ho Hu].
    + cbn [agent_outputs set_agent_outputs]. rewrite dict_set_fresh by exact Hfresh.
      unfold PyDict.keys in *. rewrite map_app. cbn [map fst].
      rewrite <- app_assoc. exact Hnd.
    + unfold run_handlers in *. rewrite Ho, Hu. cbn [agent_outputs set_agent_outputs user_input].
      rewrite dict_set_fresh by exact Hfresh. rewrite <- app_assoc. split; reflexivity.
Qed.

Lemma fragments_of_handlers hs input :
  fragments_with_response (map (fun h => (node_name h, handler_output h input)) hs)
  = map (fun h => handler_text h input) hs.
Proof.
  unfold fragments_with_response.
  induction hs as [|h hs IH]; cbn [map flat_map]; [reflexivity|].
  rewrite IH. destruct h; reflexivity.
Qed.

(** C8.  The aggregate step sets the final response to the [response]
    texts of the fragments that have one, in the order the handlers stored
    them, joined by single spaces, and to the fixed fallback sentence when
    there is none.  Handlers invoked one after the other on a new state
    leave their fragments in invocation order.  Without the graph runtime,
    [process] runs classify, the chat handler and the aggregate step, and
    answers a non-empty response for every input. *)
Theorem aggregate_joins_fragments_in_order :
  (forall st,
     final_response (_generate_response st) =
     Some (match fragments_with_response (agent_outputs st) with
           | [] => "I couldn't process your request."
           | _ :: _ => PyStr.join " " (fragments_with_response (agent_outputs st))
           end)) /\
  (forall hs input lang,
     NoDup hs -> Forall (fun h => is_handler h = true) hs ->
     fragments_with_response (agent_outputs (run_handlers hs (initial_state input lang)))
     = map (fun h => handler_text h input) hs) /\
  (forall unrouted input lang,
     setup false init = init /\
     exists text,
       process unrouted init input lang =
       Ok {| reply_response := Some text;
             reply_intent := intent (_classify_intent (initial_state input lang));
             reply_language := lang |} /\
       text = ("[Chat Agent] I understand you said: " ++ input)%string /\
       PyStr.truthy text = true).
Proof.
  split; [exact generate_response_spec|]. split.
  - intros hs input lang Hnd Hall.
    destruct (run_handlers_outputs hs (initial_state input lang) Hall) as [Ho _].
    + cbn. clear - Hnd. induction Hnd as [|h hs Hin Hnd IH]; cbn; constructor; auto.
      intro Hin'. apply Hin. apply in_map_iff in Hin'.
      destruct Hin' as (h' & Heq & Hh'). apply node_name_inj in Heq. now subst.
    + rewrite Ho. cbn [agent_outputs initial_state app user_input].
      apply fragments_of_handlers.
  - intros unrouted input lang. split; [reflexivity|].
    eexists. split; [|split; reflexivity].
    unfold process. cbn [graph init].
    reflexivity.
Qed.

(** A run of the compiled graph that reaches the aggregate step answers
    the fragment of the one handler it invoked. *)
Lemma graph_run_single_fragment unrouted input lang st :
  match graph (setup true init) with
  | Some g => invoke unrouted g (initial_state input lang) = Ok st
  | None => False
  end ->
  (exists h, is_handler h = true /\ final_response st = Some (handler_text h input))
  \/ (exists key, unrouted key (_classify_intent (initial_state input lang)) = Ok st).
Proof.
  cbn [graph setup]. unfold invoke. cbn [node_action routes].
  unfold _route_to_agent, _classify_intent at 1 2 3.
  cbn [intent set_intent].
  repeat match goal with |- context [if ?c then _ else _] => destruct c end;
    cbn; intros H;
    first [ inversion H; subst;
            first [ left; exists info_agent; split; reflexivity
                  | left; exists task_agent; split; reflexivity
                  | left; exists chat_agent; split; reflexivity ]
          | right; eexists; exact H ].
Qed.

End Facts.

(** The information handler, then the chat handler. *)
Lemma aggregate_joins_fragments_in_order_witness :
  fragments_with_response
    (agent_outputs (@run_handlers PyStr.ascii_text [info_agent; chat_agent]
                      (initial_state "hi" "en")))
  = ["[Info Agent] Processing query: hi"; "[Chat Agent] I understand you said: hi"]
  /\ final_response
       (_generate_response
          (@run_handlers PyStr.ascii_text [info_agent; chat_agent] (initial_state "hi" "en")))
     = Some "[Info Agent] Processing query: hi [Chat Agent] I understand you said: hi".
Proof.
  pose proof (@aggregate_joins_fragments_in_order PyStr.ascii_text) as (Hagg & Hord & _).
  assert (Hnd : NoDup [info_agent; chat_agent]).
  { repeat constructor; cbn; intuition discriminate. }
  assert (Hall : Forall (fun h => is_handler h = true) [info_agent; chat_agent]).
  { repeat constructor. }
  pose proof (Hord [info_agent; chat_agent] "hi" "en" Hnd Hall) as H.
  split; [exact H|]. rewrite Hagg, H. reflexivity.
Defined.

End AgentsFacts.

(* ------------------------------------------------------------------ *)
(** ** More on the response-generation wrapper *)

Module QwenMore.
Import EffFacts Qwen QwenFacts.

Lemma skipn_keeps_tail {A} (k : nat) (h t : list A) :
  (k <= List.length h)%nat -> skipn k (h ++ t) = skipn k h ++ t.
Proof.
  revert h. induction k as [|k IH]; intros h Hk; [reflexivity|].
  destruct h as [|x h]; cbn in *; [lia|]. apply IH. lia.
Qed.

Section Facts.
Variable W : World.

Lemma model_step llm tr o llm1 tr1 :
  (if model_loaded llm then ret tt else load_model W) llm tr = (o, llm1, tr1) ->
  conversation_history llm1 = conversation_history llm /\
  max_memory_messages llm1 = max_memory_messages llm /\
  system_prompt llm1 = system_prompt llm.
Proof.
  destruct (model_loaded llm); intros H.
  - inversion H; subst; auto.
  - unfold load_model in H. unfold_eff_in H. run_inv; auto.
Qed.

(** The history after a remembered chat that completes, as the code
    computes it. *)
Lemma chat_history_exact user_input n llm tr r llm' tr' :
  chat W user_input n true llm tr = (Ok r, llm', tr') ->
  let h := conversation_history llm
           ++ [mkMessage "user" user_input; mkMessage "assistant" (content r)] in
  max_memory_messages llm' = max_memory_messages llm /\
  conversation_history llm' =
    if (Z.of_nat (List.length h) >? max_memory_messages llm * 2)%Z
    then slice_from (- max_memory_messages llm * 2) h else h.
Proof.
  intros H. cbv zeta.
  unfold chat in H. unfold bind at 1 in H. unfold get at 1 in H.
  unfold bind at 1 in H.
  destruct ((if model_loaded llm then ret tt else load_model W) llm tr)
    as [[o1 llm1] tr1] eqn:E1.
  destruct (model_step _ _ _ _ _ E1) as (Kh & Kn & _).
  destruct o1; [|discriminate H].
  unfold_eff_in H. unfold with_history in H.
  cbn [conversation_history max_memory_messages] in H.
  destruct (qwen_generate W _ _ _) as [[text tokens]|e]; [|discriminate H].
  rewrite Kh, Kn in H. cbn [app] in *.
  match type of H with context [if ?c then _ else _] => destruct c eqn:Ec end;
    inversion H; subst; cbn [conversation_history content max_memory_messages];
    rewrite Ec; auto.
Qed.

(** A remembered chat that completes, for a positive bound [N]: the new
    history is the old one followed by the user message and the reply, cut
    to its last [2N] messages.  So it holds at most [2N] messages and always
    ends with the turn just made. *)
Theorem chat_keeps_last_turns user_input n llm tr r llm' tr' :
  (0 < max_memory_messages llm)%Z ->
  chat W user_input n true llm tr = (Ok r, llm', tr') ->
  let turn := [mkMessage "user" user_input; mkMessage "assistant" (content r)] in
  let h := conversation_history llm ++ turn in
  conversation_history llm' =
    skipn (List.length h - Z.to_nat (2 * max_memory_messages llm)) h /\
  (Z.of_nat (List.length (conversation_history llm')) <= 2 * max_memory_messages llm)%Z /\
  exists older, conversation_history llm' = older ++ turn.
Proof.
  intros HN H. cbv zeta.
  unfold chat in H. unfold bind at 1 in H. unfold get at 1 in H.
  unfold bind at 1 in H.
  destruct ((if model_loaded llm then ret tt else load_model W) llm tr)
    as [[o1 llm1] tr1] eqn:E1.
  destruct (model_step _ _ _ _ _ E1) as (Kh & Kn & _).
  destruct o1; [|discriminate H].
  unfold_eff_in H. unfold with_history in H.
  cbn [conversation_history max_memory_messages] in H.
  destruct (qwen_generate W _ _ _) as [[text tokens]|e]; [|discriminate H].
  rewrite Kh, Kn in H.
  set (N := max_memory_messages llm) in *.
  set (h := conversation_history llm
            ++ [mkMessage "user" user_input] ++ [mkMessage "assistant" text]) in *.
  assert (Hlen : List.length h = (List.length (conversation_history llm) + 2)%nat).
  { unfold h. rewrite !length_app. cbn. lia. }
  assert (Hexact :
    (if (Z.of_nat (List.length h) >? N * 2)%Z then slice_from (- N * 2) h else h)
    = skipn (List.length h - Z.to_nat (2 * N)) h).
  { destruct (Z.gtb_spec (Z.of_nat (List.length h)) (N * 2)) as [Hgt|Hle].
    - unfold slice_from. destruct (- N * 2 <? 0)%Z eqn:E; [|apply Z.ltb_ge in E; lia].
      f_equal. lia.
    - replace (List.length h - Z.to_nat (2 * N))%nat with 0%nat by lia. reflexivity. }
  assert (Hres : conversation_history llm' =
                 skipn (List.length h - Z.to_nat (2 * N)) h /\ content r = text).
  { destruct (Z.of_nat (List.length h) >? N * 2)%Z;
      inversion H; subst; cbn [conversation_history content];
      rewrite <- Hexact; auto. }
  destruct Hres as [Hres Hc]. rewrite Hc. fold h. split; [exact Hres|]. split.
  - rewrite Hres, length_skipn. lia.
  - rewrite Hres. unfold h at 2.
    rewrite skipn_keeps_tail by lia. eexists. reflexivity.
Qed.

(** The history changes only on a remembered chat that completes: a chat
    with [remember=False], and a chat that raises, leave it as it was.  The
    system prompt and the bound never change. *)
Theorem chat_history_changes_only_when_remembered user_input n remember llm tr o llm' tr' :
  chat W user_input n remember llm tr = (o, llm', tr') ->
  system_prompt llm' = system_prompt llm /\
  max_memory_messages llm' = max_memory_messages llm /\
  (remember = false \/ (exists e, o = Raised e) ->
   conversation_history llm' = conversation_history llm).
Proof.
  intros H.
  unfold chat in H. unfold bind at 1 in H. unfold get at 1 in H.
  unfold bind at 1 in H.
  destruct ((if model_loaded llm then ret tt else load_model W) llm tr)
    as [[o1 llm1] tr1] eqn:E1.
  destruct (model_step _ _ _ _ _ E1) as (Kh & Kn & Ks).
  destruct o1.
  - unfold_eff_in H. unfold with_history in H.
    destruct (qwen_generate W _ _ _) as [[text tokens]|e].
    + destruct remember.
      * match type of H with context [if ?c then _ else _] => destruct c end;
          inversion H; subst; cbn; (split; [exact Ks|split; [exact Kn|]]);
          intros [Hf|[e He]]; discriminate.
      * inversion H; subst. auto.
    + inversion H; subst. auto.
  - inversion H; subst. auto.
Qed.

(** On a loaded model a chat never loads again: it reads the clock, asks
    for one generation on the messages built from the history, and reads
    the clock once more when the generation completes. *)
Theorem chat_on_loaded_model_calls user_input n remember llm tr o llm' tr' :
  model_loaded llm = true ->
  chat W user_input n remember llm tr = (o, llm', tr') ->
  model_loaded llm' = true /\
  tr' = tr ++ [CPerfCounter; CQwenGenerate (_build_messages llm user_input) n]
           ++ match o with Ok _ => [CPerfCounter] | Raised _ => [] end.
Proof.
  intros Hl H. unfold chat in H. unfold_eff_in H. rewrite Hl in H.
  unfold with_history in H.
  destruct (qwen_generate W _ _ _) as [[text tokens]|e].
  - destruct remember.
    + match type of H with context [if ?c then _ else _] => destruct c end;
        inversion H; subst; cbn [model_loaded]; (split; [exact Hl|]);
        rewrite <- !app_assoc; reflexivity.
    + inversion H; subst. split; [exact Hl|]. rewrite <- !app_assoc. reflexivity.
  - inversion H; subst. split; [exact Hl|]. rewrite <- !app_assoc. reflexivity.
Qed.

(** A model size outside the table: [chat] raises the [ValueError] of
    [load_model] before anything is called, and the object is unchanged. *)
Theorem chat_unknown_model_size user_input n remember llm tr :
  model_loaded llm = false ->
  PyDict.get MODELS (model_size llm) = None ->
  chat W user_input n remember llm tr =
  (Raised ("Unknown model size: " ++ model_size llm
           ++ ". Options: ['0.5b', '1.5b', '3b', '7b']"), llm, tr).
Proof.
  intros Hl Hs. unfold chat, load_model. unfold_eff. rewrite Hl, Hs. reflexivity.
Qed.

(** The messages sent to the model: the system prompt, then the last [N]
    messages of the history, then the user message; for [N = 0] the slice
    [history[-0:]] is the whole history. *)
Theorem build_messages_shape llm user_input :
  ((0 < max_memory_messages llm)%Z ->
   _build_messages llm user_input =
     [mkMessage "system" (system_prompt llm)]
     ++ skipn (List.length (conversation_history llm)
               - Z.to_nat (max_memory_messages llm)) (conversation_history llm)
     ++ [mkMessage "user" user_input]
   /\ (Z.of_nat (List.length (_build_messages llm user_input))
       <= max_memory_messages llm + 2)%Z) /\
  (max_memory_messages llm = 0%Z ->
   _build_messages llm user_input =
     [mkMessage "system" (system_prompt llm)]
     ++ conversation_history llm ++ [mkMessage "user" user_input]).
Proof.
  unfold _build_messages. split.
  - intros HN.
    assert (Hs : slice_from (- max_memory_messages llm) (conversation_history llm)
                 = skipn (List.length (conversation_history llm)
                          - Z.to_nat (max_memory_messages llm)) (conversation_history llm)).
    { unfold slice_from.
      destruct (- max_memory_messages llm <? 0)%Z eqn:E; [|apply Z.ltb_ge in E; lia].
      f_equal. lia. }
    rewrite Hs. split; [reflexivity|].
    rewrite !length_app, length_skipn. cbn [List.length]. lia.
  - intros ->. rewrite slice_from_minus_zero. reflexivity.
Qed.

End Facts.

Import Scenario.

(** A bound of one turn and a history that already holds one: the old turn
    is dropped, the new one kept. *)
Lemma chat_keeps_last_turns_witness :
  exists r llm' tr',
    chat calm "hi" 256 true
         (with_history [mkMessage "user" "old"; mkMessage "assistant" "older"]
                       (init "1.5b" "cuda" None 1)) []
    = (Ok r, llm', tr') /\
    conversation_history llm' =
      [mkMessage "user" "hi"; mkMessage "assistant" "I am fine, thank you."].
Proof.
  do 3 eexists. split; [cbv; reflexivity|].
  exact (proj1 (chat_keeps_last_turns calm "hi" 256
                  (with_history [mkMessage "user" "old"; mkMessage "assistant" "older"]
                                (init "1.5b" "cuda" None 1)) [] _ _ _ eq_refl eq_refl)).
Defined.

(** The classification chat of the intent detector does not remember. *)
Lemma chat_history_changes_only_when_remembered_witness :
  exists o llm' tr',
    chat calm "hi" 100 false
         (with_history [mkMessage "user" "old"] (init "1.5b" "cuda" None 10)) []
    = (o, llm', tr') /\
    conversation_history llm' = [mkMessage "user" "old"].
Proof.
  do 3 eexists. split; [cbv; reflexivity|].
  exact (proj2 (proj2 (chat_history_changes_only_when_remembered calm "hi" 100 false
                         (with_history [mkMessage "user" "old"]
                                       (init "1.5b" "cuda" None 10)) [] _ _ _ eq_refl))
               (or_introl eq_refl)).
Defined.

Lemma chat_on_loaded_model_calls_witness :
  exists o llm' tr',
    chat calm "hi" 256 true (with_model_on "cuda" (init "1.5b" "cuda" None 10)) []
    = (o, llm', tr') /\
    List.length tr' = 3%nat /\ model_loaded llm' = true.
Proof.
  do 3 eexists. split; [cbv; reflexivity|].
  destruct (chat_on_loaded_model_calls calm "hi" 256 true
              (with_model_on "cuda" (init "1.5b" "cuda" None 10)) [] _ _ _
              eq_refl eq_refl) as [Hl Ht].
  split; [reflexivity|exact Hl].
Defined.

Lemma chat_unknown_model_size_witness :
  chat calm "hi" 256 true (init "13b" "cuda" None 10) [] =
  (Raised "Unknown model size: 13b. Options: ['0.5b', '1.5b', '3b', '7b']",
   init "13b" "cuda" None 10, []).
Proof.
  exact (chat_unknown_model_size calm "hi" 256 true (init "13b" "cuda" None 10) []
           eq_refl eq_refl).
Defined.

Lemma build_messages_shape_witness :
  List.length
    (_build_messages
       (with_history [mkMessage "user" "a"; mkMessage "assistant" "b";
                      mkMessage "user" "c"; mkMessage "assistant" "d"]
                     (init "1.5b" "cuda" None 1)) "e") = 3%nat
  /\ List.length
       (_build_messages
          (with_history [mkMessage "user" "a"; mkMessage "assistant" "b"]
                        (init "1.5b" "cuda" None 0)) "e") = 4%nat.
Proof.
  split.
  - rewrite (proj1 (proj1 (build_messages_shape
                             (with_history [mkMessage "user" "a"; mkMessage "assistant" "b";
                                            mkMessage "user" "c"; mkMessage "assistant" "d"]
                                           (init "1.5b" "cuda" None 1)) "e") eq_refl)).
    reflexivity.
  - rewrite (proj2 (build_messages_shape
                      (with_history [mkMessage "user" "a"; mkMessage "assistant" "b"]
                                    (init "1.5b" "cuda" None 0)) "e") eq_refl).
    reflexivity.
Defined.

End QwenMore.

(* ------------------------------------------------------------------ *)
(** ** More on the intent detector *)

Module IntentMore.
Import EffFacts Intent IntentFacts.

Section Facts.
Context {text_ops : PyStr.TextOps}.
Variable W : World.

Lemma parse_keeps_texts response original english :
  original_text (_parse_llm_response response original english) = original /\
  english_text (_parse_llm_response response original english) = english.
Proof.
  unfold _parse_llm_response.
  destruct (fold_left _ _ _) as [[ty ents] descr]. split; reflexivity.
Qed.

(** [detect] raises only what the import of [_get_llm] raises, and then
    the detector is as it was.  In every other case it returns an intent,
    which carries the text it was given as [original_text] and the text it
    analysed (the English text when there is one, else the original) as
    [english_text], whichever tier answered. *)
Theorem detect_keeps_texts text english d tr :
  match detect_import W text english d tr with
  | Raised e => detect W text english d tr = (Raised e, d, tr)
  | Ok _ =>
      exists i d' tr',
        detect W text english d tr = (Ok i, d', tr') /\
        original_text i = text /\
        english_text i = or_text english text
  end.
Proof.
  unfold detect_import.
  destruct (_keyword_detect (PyStr.lower (or_text english text))) as [t|] eqn:Hk.
  - rewrite (keyword_hit_intent W _ _ d tr _ Hk). do 3 eexists. repeat split.
  - destruct (use_llm d) eqn:Hu.
    + rewrite (detect_fallback_run W _ _ _ _ Hk Hu), (llm_detect_run W _ _ _ _ Hu).
      destruct (model_import W d tr) as [[]|e]; [|reflexivity].
      destruct (Qwen.chat W _ _ _ _ _) as [[[resp|e] llm'] tr'];
        do 3 eexists; (split; [reflexivity|]).
      * apply parse_keeps_texts.
      * split; reflexivity.
    + rewrite (detect_without_model W _ _ _ _ Hk Hu). do 3 eexists. repeat split.
Qed.

(** When the import of [_get_llm] does not raise, [detect] returns an
    intent whose confidence is one of 0.5, 0.8 and 0.85, and it is 0.8
    exactly when the keyword tier found a category; when the import raises,
    so does [detect]. *)
Theorem detect_confidence_values text english d tr :
  match detect_import W text english d tr with
  | Raised e => detect W text english d tr = (Raised e, d, tr)
  | Ok _ =>
      exists i d' tr',
        detect W text english d tr = (Ok i, d', tr') /\
        (confidence i = 5 # 10 \/ confidence i = 8 # 10 \/ confidence i = 85 # 100) /\
        (confidence i = 8 # 10 <->
         exists t, _keyword_detect (PyStr.lower (or_text english text)) = Some t)
  end.
Proof.
  unfold detect_import.
  destruct (_keyword_detect (PyStr.lower (or_text english text))) as [t|] eqn:Hk.
  - rewrite (keyword_hit_intent W _ _ d tr _ Hk). do 3 eexists.
    split; [reflexivity|]. cbn [confidence]. split; [auto|]. split; eauto.
  - destruct (use_llm d) eqn:Hu.
    + rewrite (detect_fallback_run W _ _ _ _ Hk Hu), (llm_detect_run W _ _ _ _ Hu).
      destruct (model_import W d tr) as [[]|e]; [|reflexivity].
      destruct (Qwen.chat W _ _ _ _ _) as [[[resp|e] llm'] tr'];
        do 3 eexists; (split; [reflexivity|]).
      * rewrite (proj1 (parse_llm_response_spec _ _ _)).
        split; [auto|]. split; [discriminate|intros [t Ht]; discriminate].
      * cbn [confidence general_intent].
        split; [auto|]. split; [discriminate|intros [t Ht]; discriminate].
    + rewrite (detect_without_model W _ _ _ _ Hk Hu). do 3 eexists.
      split; [reflexivity|]. cbn [confidence general_intent].
      split; [auto|]. split; [discriminate|intros [t Ht]; discriminate].
Qed.

(** The model is consulted only when the detector uses it and the keyword
    tier found nothing: in every other case [detect] calls nothing and
    leaves the detector as it was (no model handle is constructed). *)
Theorem detect_without_model_call text english d tr :
  use_llm d = false \/
  (exists t, _keyword_detect (PyStr.lower (or_text english text)) = Some t) ->
  exists i, detect W text english d tr = (Ok i, d, tr).
Proof.
  intros Hcase.
  destruct (_keyword_detect (PyStr.lower (or_text english text))) as [t|] eqn:Hk.
  - rewrite (keyword_hit_intent W _ _ d tr _ Hk). eauto.
  - destruct Hcase as [Hu|[t Ht]]; [|discriminate].
    rewrite (detect_without_model W _ _ _ _ Hk Hu). eauto.
Qed.

(** *** The parser of the model output *)

Lemma parse_line_other acc line :
  PyStr.startswith (PyStr.strip line) "INTENT:" = false ->
  acc_type (parse_line acc line) = acc_type acc.
Proof.
  intros Hn. destruct acc as [[ty ents] descr]. unfold parse_line. cbv zeta.
  rewrite Hn.
  destruct (PyStr.startswith _ "ENTITIES:"); [destruct (negb _); reflexivity|].
  destruct (PyStr.startswith _ "DESCRIPTION:"); reflexivity.
Qed.

Lemma parse_lines_other lines : forall acc,
  Forall (fun x => PyStr.startswith (PyStr.strip x) "INTENT:" = false) lines ->
  acc_type (fold_left parse_line lines acc) = acc_type acc.
Proof.
  induction lines as [|x lines IH]; intros acc Hall; cbn [fold_left]; [reflexivity|].
  inversion Hall; subst. rewrite IH by assumption. now apply parse_line_other.
Qed.

Lemma parse_line_intent acc line t :
  PyStr.startswith (PyStr.strip line) "INTENT:" = true ->
  of_value (PyStr.lower (PyStr.strip (PyStr.replace (PyStr.strip line) "INTENT:" "")))
    = Some t ->
  acc_type (parse_line acc line) = t.
Proof.
  intros Hi Ht. destruct acc as [[ty ents] descr]. unfold parse_line. cbv zeta.
  rewrite Hi, Ht. reflexivity.
Qed.

Lemma parse_type_of_fold response original english :
  type (_parse_llm_response response original english) =
  acc_type (fold_left parse_line (PyStr.split (PyStr.strip response) newline)
                      (GENERAL, ([] : PyDict.dict string), "General query")).
Proof.
  unfold _parse_llm_response.
  destruct (fold_left _ _ _) as [[ty ents] descr]. reflexivity.
Qed.

(** When the model output has several [INTENT:] lines, the last one
    decides: if its label is a value of the enumeration, that member is the
    type of the parsed intent, whatever the lines before it said. *)
Theorem last_intent_line_decides response original english before line after t :
  PyStr.split (PyStr.strip response) newline = before ++ line :: after ->
  PyStr.startswith (PyStr.strip line) "INTENT:" = true ->
  of_value (PyStr.lower (PyStr.strip (PyStr.replace (PyStr.strip line) "INTENT:" "")))
    = Some t ->
  Forall (fun x => PyStr.startswith (PyStr.strip x) "INTENT:" = false) after ->
  type (_parse_llm_response response original english) = t.
Proof.
  intros Hsplit Hi Ht Hafter.
  rewrite parse_type_of_fold, Hsplit, fold_left_app. cbn [fold_left].
  rewrite parse_lines_other by exact Hafter.
  now apply parse_line_intent.
Qed.

End Facts.

Import Scenario.

Lemma detect_without_model_call_witness :
  exists i,
    @detect PyStr.ascii_text calm "what is the weather" None (init true) []
    = (Ok i, init true, []).
Proof.
  apply (@detect_without_model_call PyStr.ascii_text calm
           "what is the weather" None (init true) []).
  right. exists WEATHER. reflexivity.
Defined.

Lemma last_intent_line_decides_witness :
  type (@_parse_llm_response PyStr.ascii_text
          ("INTENT: question" ++ String newline "INTENT: Weather"
           ++ String newline "DESCRIPTION: asks for the forecast") "a" "b")
  = WEATHER.
Proof.
  apply (@last_intent_line_decides PyStr.ascii_text _ "a" "b"
           ["INTENT: question"] "INTENT: Weather"
           ["DESCRIPTION: asks for the forecast"] WEATHER).
  - reflexivity.
  - reflexivity.
  - reflexivity.
  - repeat constructor.
Defined.

End IntentMore.

(* ------------------------------------------------------------------ *)
(** ** More on the pipeline orchestrator *)

Module PipelineMore.
Import EffFacts Pipeline PipelineFacts.

Lemma grows_refl p : grows p p.
Proof. unfold grows, same_config. repeat split; auto. Qed.

Lemma grows_trans p1 p2 p3 : grows p1 p2 -> grows p2 p3 -> grows p1 p3.
Proof.
  unfold grows, same_config. intros H1 H2.
  repeat match goal with H : _ /\ _ |- _ => destruct H end.
  repeat split; try congruence; auto.
Qed.

Ltac unfold_loaders_in H :=
  unfold _load_asr, _load_translator, _load_llm, _load_tts, _load_intent_detector,
         on_handle, whisper_load_model, load_models, Qwen.set_system_prompt in H;
  unfold_eff_in H.

Ltac grows_done :=
  unfold grows, same_config; cbn; repeat split; auto; discriminate.

Lemma stage_eq (j k : Stage) : j = k \/ j <> k.
Proof. destruct j, k; auto; right; discriminate. Qed.

Section Facts.
Context {text_ops : PyStr.TextOps}.
Variable W : World.

(** *** The lazy loaders *)

Lemma load_asr_grows p tr o p' tr' :
  _load_asr W p tr = (o, p', tr') -> grows p p'.
Proof. intros H. unfold_loaders_in H. run_inv; try apply grows_refl; grows_done. Qed.

Lemma load_translator_grows p tr o p' tr' :
  _load_translator W p tr = (o, p', tr') -> grows p p'.
Proof. intros H. unfold_loaders_in H. run_inv; try apply grows_refl; grows_done. Qed.

Lemma load_llm_grows p tr o p' tr' :
  _load_llm W p tr = (o, p', tr') -> grows p p'.
Proof.
  intros H. unfold _load_llm, on_handle, Qwen.set_system_prompt in H. unfold_eff_in H.
  cbn [_llm set_llm] in H.
  destruct (_llm p) eqn:E.
  - inversion H; subst. apply grows_refl.
  - destruct (import_from W tr "..llm") as [[]|msg];
      [|inversion H; subst; apply grows_refl].
    destruct (Qwen.load_model W _ tr) as [[o1 l1] tr1].
    destruct o1; inversion H; subst; unfold grows, same_config; cbn;
      repeat split; auto; rewrite E; discriminate.
Qed.

Lemma load_tts_grows p tr o p' tr' :
  _load_tts W p tr = (o, p', tr') -> grows p p'.
Proof. intros H. unfold_loaders_in H. run_inv; try apply grows_refl; grows_done. Qed.

Lemma load_intent_detector_grows p tr o p' tr' :
  _load_intent_detector p tr = (o, p', tr') -> grows p p'.
Proof. intros H. unfold_loaders_in H. run_inv; try apply grows_refl; grows_done. Qed.


(** A loader that completes leaves its handle set. *)
Lemma loaders_set p tr p' tr' :
  (_load_asr W p tr = (Ok tt, p', tr') -> is_set (_asr p') = true) /\
  (_load_translator W p tr = (Ok tt, p', tr') -> is_set (_translator p') = true) /\
  (_load_llm W p tr = (Ok tt, p', tr') -> is_set (_llm p') = true) /\
  (_load_tts W p tr = (Ok tt, p', tr') -> is_set (_tts p') = true) /\
  (_load_intent_detector p tr = (Ok tt, p', tr') -> is_set (_intent_detector p') = true).
Proof.
  repeat split; intros H.
  - unfold_loaders_in H. run_inv; cbn; auto.
    match goal with E : _asr _ = Some _ |- _ => now rewrite E end.
  - unfold_loaders_in H. run_inv; cbn; auto.
    match goal with E : _translator _ = Some _ |- _ => now rewrite E end.
  - unfold _load_llm, on_handle, Qwen.set_system_prompt in H. unfold_eff_in H.
    cbn [_llm set_llm] in H.
    destruct (_llm p) eqn:E.
    + inversion H; subst. now rewrite E.
    + destruct (import_from W tr "..llm") as [[]|msg]; [|discriminate H].
      destruct (Qwen.load_model W _ tr) as [[[] l1] tr1]; inversion H; subst. reflexivity.
  - unfold_loaders_in H. run_inv; cbn; auto.
    match goal with E : _tts _ = Some _ |- _ => now rewrite E end.
  - unfold_loaders_in H. run_inv; cbn; auto.
    match goal with E : _intent_detector _ = Some _ |- _ => now rewrite E end.
Qed.

(** A loader whose handle is set does nothing. *)
Lemma loaders_noop p tr :
  (is_set (_asr p) = true -> _load_asr W p tr = (Ok tt, p, tr)) /\
  (is_set (_translator p) = true -> _load_translator W p tr = (Ok tt, p, tr)) /\
  (is_set (_llm p) = true -> _load_llm W p tr = (Ok tt, p, tr)) /\
  (is_set (_tts p) = true -> _load_tts W p tr = (Ok tt, p, tr)) /\
  (is_set (_intent_detector p) = true -> _load_intent_detector p tr = (Ok tt, p, tr)).
Proof.
  unfold _load_asr, _load_translator, _load_llm, _load_tts, _load_intent_detector.
  unfold_eff.
  repeat split; intros H.
  - destruct (_asr p); [reflexivity|discriminate].
  - destruct (_translator p); [reflexivity|discriminate].
  - destruct (_llm p); [reflexivity|discriminate].
  - destruct (_tts p); [reflexivity|discriminate].
  - destruct (_intent_detector p); [reflexivity|discriminate].
Qed.

(** [load_components] is idempotent: once it has completed, calling it again
    (then or later) calls nothing and changes nothing, so each engine is
    constructed and loaded at most once. *)
Theorem load_components_idempotent p tr p' tr' :
  load_components W p tr = (Ok tt, p', tr') ->
  forall later, load_components W p' later = (Ok tt, p', later).
Proof.
  intros H later. unfold load_components in H.
  unfold bind at 1 in H.
  destruct (_load_asr W p tr) as [[[[]|] p1] t1] eqn:E1; [|discriminate H].
  unfold bind at 1 in H.
  destruct (_load_translator W p1 t1) as [[[[]|] p2] t2] eqn:E2; [|discriminate H].
  unfold bind at 1 in H.
  destruct (_load_llm W p2 t2) as [[[[]|] p3] t3] eqn:E3; [|discriminate H].
  unfold bind at 1 in H.
  destruct (_load_tts W p3 t3) as [[[[]|] p4] t4] eqn:E4; [|discriminate H].
  unfold bind at 1, get at 1 in H.
  pose proof (proj1 (loaders_set _ _ _ _) E1) as S1.
  pose proof (proj1 (proj2 (loaders_set _ _ _ _)) E2) as S2.
  pose proof (proj1 (proj2 (proj2 (loaders_set _ _ _ _))) E3) as S3.
  pose proof (proj1 (proj2 (proj2 (proj2 (loaders_set _ _ _ _)))) E4) as S4.
  pose proof (load_translator_grows _ _ _ _ _ E2) as G2.
  pose proof (load_llm_grows _ _ _ _ _ E3) as G3.
  pose proof (load_tts_grows _ _ _ _ _ E4) as G4.
  assert (G5 : grows p4 p' /\ (detect_intent p4 = true -> is_set (_intent_detector p') = true)).
  { destruct (detect_intent p4) eqn:Ed.
    - split; [eapply load_intent_detector_grows; eauto|].
      intros _. eapply (proj2 (proj2 (proj2 (proj2 (loaders_set _ _ _ _))))); eauto.
    - inversion H; subst. split; [apply grows_refl|discriminate]. }
  destruct G5 as [G5 S5].
  assert (A1 : is_set (_asr p') = true).
  { apply G5, G4, G3, G2, S1. }
  assert (A2 : is_set (_translator p') = true).
  { apply G5, G4, G3, S2. }
  assert (A3 : is_set (_llm p') = true).
  { apply G5, G4, S3. }
  assert (A4 : is_set (_tts p') = true).
  { apply G5, S4. }
  assert (Hd : detect_intent p' = detect_intent p4).
  { destruct G5 as [Hc _]. unfold same_config in Hc. tauto. }
  unfold load_components, bind, get.
  rewrite (proj1 (loaders_noop p' later) A1).
  rewrite (proj1 (proj2 (loaders_noop p' later)) A2).
  rewrite (proj1 (proj2 (proj2 (loaders_noop p' later))) A3).
  rewrite (proj1 (proj2 (proj2 (proj2 (loaders_noop p' later)))) A4).
  destruct (detect_intent p') eqn:Ed'; [|reflexivity].
  apply (proj2 (proj2 (proj2 (proj2 (loaders_noop p' later))))).
  apply S5. congruence.
Qed.

(** What a loader that raised has left behind.  When its import raised,
    nothing was stored: the orchestrator is as it was, and the next call of
    the loader tries again.  When the import went through, the new object
    was stored before its model was loaded, so after a load that raised the
    handle is set, and the next call of the loader returns at once: the
    load is not retried. *)
Theorem failed_load_is_not_retried p tr e p' tr' :
  (String.eqb (asr_engine p) "whisper" = true ->
   _load_asr W p tr = (Raised e, p', tr') ->
   match import_from W tr "..asr" with
   | Raised msg => e = msg /\ p' = p /\ tr' = tr
   | Ok _ =>
       is_set (_asr p') = true /\
       forall later, _load_asr W p' later = (Ok tt, p', later)
   end) /\
  (_load_translator W p tr = (Raised e, p', tr') ->
   match import_from W tr "..translation" with
   | Raised msg => e = msg /\ p' = p /\ tr' = tr
   | Ok _ =>
       is_set (_translator p') = true /\
       forall later, _load_translator W p' later = (Ok tt, p', later)
   end) /\
  (_load_llm W p tr = (Raised e, p', tr') ->
   match import_from W tr "..llm" with
   | Raised msg => e = msg /\ p' = p /\ tr' = tr
   | Ok _ =>
       is_set (_llm p') = true /\
       forall later, _load_llm W p' later = (Ok tt, p', later)
   end).
Proof.
  assert (Hasr : String.eqb (asr_engine p) "whisper" = true ->
                 _load_asr W p tr = (Raised e, p', tr') ->
                 match import_from W tr "..asr" with
                 | Raised msg => e = msg /\ p' = p /\ tr' = tr
                 | Ok _ => is_set (_asr p') = true
                 end).
  { intros Hw H. unfold_loaders_in H. rewrite Hw in H.
    destruct (_asr p); [discriminate H|].
    destruct (import_from W tr "..asr") as [[]|msg]; run_inv; auto. }
  assert (Htr : _load_translator W p tr = (Raised e, p', tr') ->
                match import_from W tr "..translation" with
                | Raised msg => e = msg /\ p' = p /\ tr' = tr
                | Ok _ => is_set (_translator p') = true
                end).
  { intros H. unfold_loaders_in H.
    destruct (_translator p); [discriminate H|].
    destruct (import_from W tr "..translation") as [[]|msg]; run_inv; auto. }
  assert (Hllm : _load_llm W p tr = (Raised e, p', tr') ->
                 match import_from W tr "..llm" with
                 | Raised msg => e = msg /\ p' = p /\ tr' = tr
                 | Ok _ => is_set (_llm p') = true
                 end).
  { intros H. unfold _load_llm, on_handle, Qwen.set_system_prompt in H. unfold_eff_in H.
    cbn [_llm set_llm] in H.
    destruct (_llm p); [discriminate H|].
    destruct (import_from W tr "..llm") as [[]|msg]; [|inversion H; subst; auto].
    destruct (Qwen.load_model W _ tr) as [[[] l1] tr1]; inversion H; subst; reflexivity. }
  split; [|split].
  - intros Hw H. specialize (Hasr Hw H).
    destruct (import_from W tr "..asr"); [|exact Hasr].
    split; [exact Hasr|]. intros later. now apply (proj1 (loaders_noop p' later)).
  - intros H. specialize (Htr H).
    destruct (import_from W tr "..translation"); [|exact Htr].
    split; [exact Htr|]. intros later.
    now apply (proj1 (proj2 (loaders_noop p' later))).
  - intros H. specialize (Hllm H).
    destruct (import_from W tr "..llm"); [|exact Hllm].
    split; [exact Hllm|]. intros later.
    now apply (proj1 (proj2 (proj2 (loaders_noop p' later)))).
Qed.


(** *** What a call of [process] does to the orchestrator *)

Lemma set_handle_grows p :
  (forall h, grows p (set_asr p (Some h))) /\
  (forall h, grows p (set_translator p (Some h))) /\
  (forall h, grows p (set_llm p (Some h))) /\
  (forall h, grows p (set_tts p (Some h))) /\
  (forall h, grows p (set_intent_detector p (Some h))).
Proof. unfold grows, same_config. repeat split; cbn; auto. Qed.

Ltac grows_rec :=
  cbn [self set_self result];
  lazymatch goal with
  | |- grows ?p ?p => apply grows_refl
  | |- grows _ (set_asr ?q (Some _)) =>
      apply (grows_trans _ q); [grows_rec | apply (set_handle_grows q)]
  | |- grows _ (set_translator ?q (Some _)) =>
      apply (grows_trans _ q); [grows_rec | apply (set_handle_grows q)]
  | |- grows _ (set_llm ?q (Some _)) =>
      apply (grows_trans _ q); [grows_rec | apply (set_handle_grows q)]
  | |- grows _ (set_tts ?q (Some _)) =>
      apply (grows_trans _ q); [grows_rec | apply (set_handle_grows q)]
  | |- grows _ (set_intent_detector ?q (Some _)) =>
      apply (grows_trans _ q); [grows_rec | apply (set_handle_grows q)]
  | |- grows _ ?p1 =>
      match goal with
      | H : _load_asr _ ?q _ = (_, p1, _) |- _ =>
          apply (grows_trans _ q); [grows_rec | exact (load_asr_grows _ _ _ _ _ H)]
      | H : _load_translator _ ?q _ = (_, p1, _) |- _ =>
          apply (grows_trans _ q); [grows_rec | exact (load_translator_grows _ _ _ _ _ H)]
      | H : _load_llm _ ?q _ = (_, p1, _) |- _ =>
          apply (grows_trans _ q); [grows_rec | exact (load_llm_grows _ _ _ _ _ H)]
      | H : _load_tts W ?q _ = (_, p1, _) |- _ =>
          apply (grows_trans _ q); [grows_rec | exact (load_tts_grows _ _ _ _ _ H)]
      end
  end.

Lemma run_stage_grows a t l o k f tr r f' tr' :
  run_stage W a t l o k f tr = (r, f', tr') -> grows (self f) (self f').
Proof.
  intros H. destruct k; cbn [run_stage] in H;
    unfold stage_asr, stage_translate_in, stage_intent, stage_llm,
           stage_translate_out, stage_tts, on_self, assign, on_handle in H;
    unfold_eff_in H; run_inv; grows_rec.
Qed.

Lemma run_stages_grows a t l o ks : forall f tr r f' tr',
  run_stages W a t l o ks f tr = (r, f', tr') -> grows (self f) (self f').
Proof.
  induction ks as [|k ks IH]; intros f tr r f' tr' H.
  - inversion H; subst. apply grows_refl.
  - cbn [run_stages] in H. unfold bind in H.
    destruct (run_stage W a t l o k f tr) as [[o1 f1] tr1] eqn:E.
    pose proof (run_stage_grows _ _ _ _ _ _ _ _ _ _ E) as G.
    destruct o1.
    + eapply grows_trans; [exact G|]. eapply IH; eauto.
    + inversion H; subst. exact G.
Qed.

(** [process] never changes the configuration of the orchestrator and
    never drops an engine: every handle that was set before the call is set
    after it, whether the call succeeded or not. *)
Theorem process_keeps_engines a t l o p tr r p' tr' :
  process W a t l o p tr = (r, p', tr') -> grows p p'.
Proof.
  rewrite process_unfold, process_body_stages. cbv zeta.
  destruct (run_stages W a t l o all_stages _ _) as [[o1 f1] tr1] eqn:E.
  pose proof (run_stages_grows _ _ _ _ _ _ _ _ _ _ E) as G. cbn [self] in G.
  destruct o1; intros H; inversion H; subst; exact G.
Qed.


(** *** Inputs *)

(** With an audio reference and an engine name other than [whisper] (and no
    recogniser loaded), the call fails in stage 1 with the [ValueError] of
    [_load_asr]: nothing but the clock is called, the orchestrator is
    unchanged and every stage field is at its default. *)
Theorem unknown_asr_engine_fails_audio a t l o p tr :
  PyStr.truthy_opt a = true ->
  _asr p = None ->
  String.eqb (asr_engine p) "whisper" = false ->
  process W a t l o p tr =
  (Ok {| audio_input := a;
         malayalam_text := ""; asr_time_ms := 0;
         english_text := ""; translation_ml_en_time_ms := 0;
         intent_type := ""; intent_description := ""; intent_confidence := 0;
         intent_entities := [];
         english_response := ""; llm_time_ms := 0;
         malayalam_response := ""; translation_en_ml_time_ms := 0;
         audio_output := None; tts_time_ms := 0;
         total_time_ms :=
           elapsed_ms (perf_counter W tr)
                      (perf_counter W (tr ++ [CPerfCounter; CPerfCounter]));
         success := false;
         error := Some ("Unknown ASR engine: " ++ asr_engine p)%string |},
   p, tr ++ [CPerfCounter; CPerfCounter; CPerfCounter]).
Proof.
  intros Ha Hn He. rewrite process_unfold.
  unfold process_body, stage_asr. rewrite Ha.
  unfold on_self, _load_asr. unfold_eff. cbn [self result]. rewrite Hn, He.
  cbv zeta. cbn [self result]. rewrite <- !app_assoc. reflexivity.
Qed.

(** Stage 1 on a text input copies the text and calls nothing. *)
Lemma stage_asr_text text f tr :
  PyStr.truthy text = true ->
  stage_asr W None (Some text) f tr =
  (Ok tt,
   {| self := self f;
      result := set_asr_time_ms 0 (set_malayalam_text text (result f)) |},
   tr).
Proof.
  intros Ht. unfold stage_asr. cbn [PyStr.truthy_opt]. rewrite Ht. reflexivity.
Qed.

(** For a non-empty text input the recognised text of every returned
    record, failed or not, is the input itself with recognition time 0;
    with a language tag other than [ml] the English text is the input too,
    with translation time 0. *)
Theorem text_input_is_passed_through text l o p tr :
  PyStr.truthy text = true ->
  exists r p' tr',
    process_text W text l o p tr = (Ok r, p', tr') /\
    malayalam_text r = text /\ asr_time_ms r = 0 /\
    (String.eqb l "ml" = false ->
     english_text r = text /\ translation_ml_en_time_ms r = 0).
Proof.
  intros Ht. unfold process_text. rewrite process_unfold, process_body_stages.
  cbv zeta.
  change all_stages with ([ASR] ++ [TranslateIn; IntentDetection; LLM; TranslateOut; TTS]).
  remember [TranslateIn; IntentDetection; LLM; TranslateOut; TTS] as rest eqn:Hrest.
  rewrite run_stages_app. cbn [run_stages run_stage]. unfold bind at 1.
  rewrite (stage_asr_text _ _ _ Ht). unfold ret at 1. cbn [self result].
  destruct (run_stages W None (Some text) l o rest _ _) as [[o1 f1] tr1] eqn:E.
  subst rest.
  assert (Hasr : malayalam_text (result f1) = text /\ asr_time_ms (result f1) = 0).
  { destruct (run_stages_effect _ _ _ _ _ _ _ _ _ _ _ E) as (_ & Hk).
    destruct (Hk ASR) as [H1 H2]; [cbn; intuition discriminate|].
    rewrite H1, H2. split; reflexivity. }
  assert (Hen : String.eqb l "ml" = false ->
                english_text (result f1) = text /\
                translation_ml_en_time_ms (result f1) = 0).
  { intros Hl.
    change [TranslateIn; IntentDetection; LLM; TranslateOut; TTS]
      with ([TranslateIn] ++ [IntentDetection; LLM; TranslateOut; TTS]) in E.
    remember [IntentDetection; LLM; TranslateOut; TTS] as rest eqn:Hrest.
    rewrite run_stages_app in E. cbn [run_stages run_stage] in E.
    unfold bind at 1 in E.
    rewrite (translate_in_passthrough W l _ _ Hl) in E. unfold ret at 1 in E.
    subst rest.
    destruct (run_stages_effect _ _ _ _ _ _ _ _ _ _ _ E) as (_ & Hk).
    destruct (Hk TranslateIn) as [H1 H2]; [cbn; intuition discriminate|].
    rewrite H1, H2. split; reflexivity. }
  destruct Hasr as [A1 A2].
  destruct o1; do 3 eexists; (split; [reflexivity|]); cbn;
    (split; [exact A1|split; [exact A2|exact Hen]]).
Qed.


(** *** Handles a stage does not touch *)

Lemma run_stage_keeps_detector a t l o k f tr r f' tr' :
  k <> IntentDetection ->
  run_stage W a t l o k f tr = (r, f', tr') ->
  _intent_detector (self f') = _intent_detector (self f).
Proof.
  intros Hk H. destruct k; try congruence; cbn [run_stage] in H;
    unfold stage_asr, stage_translate_in, stage_llm,
           stage_translate_out, stage_tts, on_self, assign in H;
    unfold_loaders_in H; run_inv; reflexivity.
Qed.

Lemma run_stage_keeps_llm a t l o k f tr r f' tr' :
  k <> LLM ->
  run_stage W a t l o k f tr = (r, f', tr') ->
  _llm (self f') = _llm (self f).
Proof.
  intros Hk H. destruct k; try congruence; cbn [run_stage] in H;
    unfold stage_asr, stage_translate_in, stage_intent,
           stage_translate_out, stage_tts, on_self, assign in H;
    unfold_loaders_in H; run_inv; reflexivity.
Qed.

Lemma stage_intent_disabled f tr :
  detect_intent (self f) = false -> stage_intent W f tr = (Ok tt, f, tr).
Proof. intros Hd. unfold stage_intent. unfold_eff. rewrite Hd. reflexivity. Qed.

Lemma run_stages_detector_off a t l o ks : forall f tr r f' tr',
  detect_intent (self f) = false ->
  run_stages W a t l o ks f tr = (r, f', tr') ->
  _intent_detector (self f') = _intent_detector (self f) /\
  same_fields IntentDetection (result f') (result f).
Proof.
  induction ks as [|k ks IH]; intros f tr r f' tr' Hoff H.
  - inversion H; subst. split; [reflexivity|apply same_fields_refl].
  - cbn [run_stages] in H. unfold bind in H.
    destruct (run_stage W a t l o k f tr) as [[o1 f1] tr1] eqn:E.
    assert (K : _intent_detector (self f1) = _intent_detector (self f) /\
                same_fields IntentDetection (result f1) (result f) /\
                detect_intent (self f1) = false).
    { destruct (stage_eq k IntentDetection) as [->|Hne].
      - cbn [run_stage] in E. rewrite (stage_intent_disabled _ _ Hoff) in E.
        inversion E; subst. split; [reflexivity|]. split; [apply same_fields_refl|exact Hoff].
      - split; [eapply run_stage_keeps_detector; eauto|]. split.
        + destruct (run_stage_effect _ _ _ _ _ _ _ _ _ _ _ E) as (_ & Hf & _).
          apply Hf. congruence.
        + destruct (run_stage_grows _ _ _ _ _ _ _ _ _ _ E) as [Hc _].
          unfold same_config in Hc. destruct Hc as (_ & _ & _ & _ & _ & Hc).
          congruence. }
    destruct K as (K1 & K2 & K3).
    destruct o1.
    + destruct (IH _ _ _ _ _ K3 H) as [I1 I2].
      split; [congruence|]. eapply same_fields_trans; eauto.
    + inversion H; subst. auto.
Qed.

(** With intent detection disabled, [process] leaves the intent fields at
    their defaults and the detector attribute as it was: no detector is
    constructed and none is called. *)
Theorem disabled_detection_is_skipped a t l o p tr :
  detect_intent p = false ->
  exists r p' tr',
    process W a t l o p tr = (Ok r, p', tr') /\
    same_fields IntentDetection r (new_result a) /\
    _intent_detector p' = _intent_detector p.
Proof.
  intros Hoff. rewrite process_unfold, process_body_stages. cbv zeta.
  destruct (run_stages W a t l o all_stages _ _) as [[o1 f1] tr1] eqn:E.
  destruct (run_stages_detector_off _ _ _ _ _ _ _ _ _ _ (Hoff : detect_intent (self {| self := p; result := new_result a |}) = false) E) as [K1 K2].
  cbn [self result] in K1, K2.
  destruct o1; do 3 eexists; (split; [reflexivity|]); (split; [|exact K1]);
    (eapply same_fields_trans; [|exact K2]); cbn; repeat split.
Qed.


(** *** Durations *)

Lemma elapsed_nonneg (start now : Q) : (start <= now)%Q -> (0 <= elapsed_ms start now)%Q.
Proof.
  intros H. unfold elapsed_ms. apply Qmult_le_0_compat; [|discriminate].
  apply -> Qle_minus_iff. exact H.
Qed.

Local Abbreviation any := (fun _ : Call => True).

Ltac trace_ext :=
  repeat match goal with
  | E : ?m ?s ?tr = (_, _, ?tr') |- _ =>
      is_var tr';
      let K := fresh "K" in
      assert (K : emits any m)
        by (first [ apply extends_loaders | apply emits_on_handle;
                    first [ apply extends_qwen_chat | apply extends_detector_detect
                          | unfold transcribe_text, ml_to_en, en_to_ml, translate,
                                   synthesize_audio; emits_auto ] ]);
      destruct (K _ _ _ _ _ E) as [? [-> _]]; clear K
  end.

Lemma run_stage_times a t l o k f tr r f' tr' :
  monotone_clock W ->
  run_stage W a t l o k f tr = (r, f', tr') ->
  times_nonneg (result f) -> times_nonneg (result f').
Proof.
  intros Hmono H (T1 & T2 & T3 & T4 & T5).
  destruct k; cbn [run_stage] in H;
    unfold stage_asr, stage_translate_in, stage_intent, stage_llm,
           stage_translate_out, stage_tts, on_self, assign in H;
    unfold bind, zoom, modify, clock, call, get, ret, raise in H;
    run_inv; trace_ext; unfold times_nonneg; cbn;
    repeat split; try assumption; try discriminate;
    apply elapsed_nonneg; rewrite <- ?app_assoc; apply Hmono.
Qed.

Lemma run_stages_times a t l o ks : forall f tr r f' tr',
  monotone_clock W ->
  run_stages W a t l o ks f tr = (r, f', tr') ->
  times_nonneg (result f) -> times_nonneg (result f').
Proof.
  induction ks as [|k ks IH]; intros f tr r f' tr' Hmono H T.
  - inversion H; subst. exact T.
  - cbn [run_stages] in H. unfold bind in H.
    destruct (run_stage W a t l o k f tr) as [[o1 f1] tr1] eqn:E.
    pose proof (run_stage_times _ _ _ _ _ _ _ _ _ _ Hmono E T) as T1.
    destruct o1; [eauto|]. inversion H; subst. exact T1.
Qed.

(** With a clock that never runs backwards, no duration that [process]
    reports is negative: neither one of the five stage durations nor the
    total, whether the call succeeded or a stage raised. *)
Theorem durations_are_not_negative a t l o p tr :
  monotone_clock W ->
  exists r p' tr',
    process W a t l o p tr = (Ok r, p', tr') /\
    times_nonneg r /\ (0 <= total_time_ms r)%Q.
Proof.
  intros Hmono. rewrite process_unfold, process_body_stages. cbv zeta.
  destruct (run_stages W a t l o all_stages _ _) as [[o1 f1] tr1] eqn:E.
  assert (T0 : times_nonneg (result {| self := p; result := new_result a |})).
  { unfold times_nonneg; cbn. repeat split; discriminate. }
  pose proof (run_stages_times _ _ _ _ _ _ _ _ _ _ Hmono E T0) as T.
  destruct (extends_stages W _ _ _ _ _ _ _ _ _ _ E) as [new [-> _]].
  destruct T as (T1 & T2 & T3 & T4 & T5).
  destruct o1; do 3 eexists; (split; [reflexivity|]); unfold times_nonneg; cbn;
    (split; [repeat split; assumption|]);
    apply elapsed_nonneg; rewrite <- ?app_assoc; apply Hmono.
Qed.

(** *** The conversation memory *)

Lemma run_stages_keep_llm a t l o ks : forall f tr r f' tr',
  ~ In LLM ks ->
  run_stages W a t l o ks f tr = (r, f', tr') ->
  _llm (self f') = _llm (self f).
Proof.
  induction ks as [|k ks IH]; intros f tr r f' tr' Hk H.
  - inversion H; subst. reflexivity.
  - cbn [run_stages] in H. unfold bind in H.
    destruct (run_stage W a t l o k f tr) as [[o1 f1] tr1] eqn:E.
    assert (K : _llm (self f1) = _llm (self f)).
    { eapply run_stage_keeps_llm; [|exact E]. intros ->. apply Hk. now left. }
    destruct o1.
    + rewrite <- K. eapply IH; [|exact H]. intro; apply Hk; now right.
    + inversion H; subst. exact K.
Qed.

Lemma load_llm_memory p tr p' tr' :
  _load_llm W p tr = (Ok tt, p', tr') ->
  exists m, _llm p' = Some m /\
    Qwen.conversation_history m = history_of p /\
    Qwen.max_memory_messages m = bound_of p.
Proof.
  intros H. unfold history_of, bound_of.
  unfold _load_llm in H. unfold bind at 1 in H. unfold get at 1 in H.
  destruct (_llm p) as [m|] eqn:Em.
  - inversion H; subst. eauto.
  - unfold bind, on_handle, Qwen.set_system_prompt in H.
    unfold modify, ask in H.
    destruct (import_from W tr "..llm") as [[]|msg]; [|discriminate H].
    cbn [_llm set_llm] in H.
    match type of H with context [Qwen.load_model W ?m0 tr] =>
      destruct (Qwen.load_model W m0 tr) as [[o1 m1] tr1] eqn:E end.
    destruct (QwenFacts.load_model_keeps_history _ _ _ _ _ _ E) as [Kh Kn].
    destruct o1; inversion H; subst. cbn [_llm set_llm]. eauto.
Qed.

Lemma stage_llm_memory f tr f' tr' :
  stage_llm W f tr = (Ok tt, f', tr') ->
  let h := history_of (self f)
           ++ [mkMessage "user" (english_text (result f));
               mkMessage "assistant" (english_response (result f'))] in
  english_text (result f') = english_text (result f) /\
  exists m, _llm (self f') = Some m /\
    Qwen.conversation_history m =
      if (Z.of_nat (List.length h) >? bound_of (self f) * 2)%Z
      then slice_from (- bound_of (self f) * 2) h else h.
Proof.
  intros H. cbv zeta. unfold stage_llm, on_self, assign in H.
  unfold bind at 1 in H. unfold clock, call in H.
  unfold bind at 1 in H. unfold zoom at 1 in H.
  destruct (_load_llm W (self f) (tr ++ [CPerfCounter])) as [[o1 p1] tr1] eqn:E1.
  destruct o1 as [[]|]; [|discriminate H].
  destruct (load_llm_memory _ _ _ _ E1) as (m & Hm & Hh & Hn).
  unfold bind at 1 in H. unfold get at 1 in H.
  unfold bind at 1 in H. unfold zoom, on_handle in H.
  cbn [self result set_self] in H. rewrite Hm in H.
  destruct (Qwen.chat W _ 256 true m tr1) as [[o2 m2] tr2] eqn:E2.
  destruct o2 as [resp|]; [|discriminate H].
  destruct (QwenMore.chat_history_exact _ _ _ _ _ _ _ _ E2) as [_ Hx].
  unfold bind, modify, ret in H. inversion H; subst. cbn.
  split; [reflexivity|]. exists m2. split; [reflexivity|].
  rewrite <- Hh, <- Hn. exact Hx.
Qed.

(** A call of [process] that succeeds records its turn in the history of
    the model object: the English input and the English reply are appended
    as a user and an assistant message, and the history is cut to its last
    [2N] messages when it is longer than that. *)
Theorem successful_call_records_the_turn a t l o p tr r p' tr' :
  process W a t l o p tr = (Ok r, p', tr') ->
  success r = true ->
  let h := history_of p
           ++ [mkMessage "user" (english_text r);
               mkMessage "assistant" (english_response r)] in
  exists m, _llm p' = Some m /\
    Qwen.conversation_history m =
      if (Z.of_nat (List.length h) >? bound_of p * 2)%Z
      then slice_from (- bound_of p * 2) h else h.
Proof.
  intros H Hs. cbv zeta.
  rewrite process_unfold, process_body_stages in H. cbv zeta in H.
  change all_stages with ([ASR; TranslateIn; IntentDetection] ++ [LLM] ++ [TranslateOut; TTS]) in H.
  rewrite run_stages_app in H.
  destruct (run_stages W a t l o [ASR; TranslateIn; IntentDetection] _ _)
    as [[o1 f1] tr1] eqn:E1.
  assert (N0 : ~ In LLM [ASR; TranslateIn; IntentDetection]) by (cbn; intuition discriminate).
  pose proof (run_stages_keep_llm _ _ _ _ _ _ _ _ _ _ N0 E1) as K1. cbn [self] in K1.
  destruct (run_stages_effect _ _ _ _ _ _ _ _ _ _ _ E1) as ((_ & _ & S1 & _) & _).
  cbn [result] in S1.
  destruct o1 as [[]|]; [|inversion H; subst; cbn in Hs; congruence].
  rewrite run_stages_app in H.
  destruct (run_stages W a t l o [LLM] f1 tr1) as [[o2 f2] tr2] eqn:E2.
  cbn [run_stages run_stage] in E2. unfold bind, ret in E2.
  destruct (stage_llm W f1 tr1) as [[o2' f2'] tr2'] eqn:E2'.
  destruct (run_stage_effect W a t l o LLM _ _ _ _ _ E2') as ((_ & _ & S2 & _) & _).
  destruct o2' as [[]|]; inversion E2; subst; clear E2;
    [|inversion H; subst; cbn in Hs; congruence].
  destruct (stage_llm_memory _ _ _ _ E2') as (Ke & m & Hm & Hh).
  destruct (run_stages W a t l o [TranslateOut; TTS] f2 tr2) as [[o3 f3] tr3] eqn:E3.
  assert (N1 : ~ In LLM [TranslateOut; TTS]) by (cbn; intuition discriminate).
  assert (N2 : ~ In TranslateIn [TranslateOut; TTS]) by (cbn; intuition discriminate).
  pose proof (run_stages_keep_llm _ _ _ _ _ _ _ _ _ _ N1 E3) as K3.
  destruct (run_stages_effect _ _ _ _ _ _ _ _ _ _ _ E3) as ((_ & _ & S3 & _) & F3).
  destruct (F3 LLM N1) as [R3 _].
  destruct (F3 TranslateIn N2) as [T3 _].
  destruct o3 as [[]|]; inversion H; subst; cbn in Hs; [|congruence].
  cbn [english_text english_response set_total_time_ms set_success self result].
  exists m. split; [congruence|].
  unfold history_of, bound_of in *. rewrite K1 in Hh.
  rewrite R3, T3, Ke. exact Hh.
Qed.

(** [clear_conversation] never raises and calls nothing.  With a model
    object it empties the history and leaves everything else as it was, so
    the next prompt holds the system prompt and the new input only; with no
    model object it does nothing. *)
Theorem clear_conversation_forgets p tr :
  exists p',
    clear_conversation p tr = (Ok tt, p', tr) /\
    grows p p' /\
    _asr p' = _asr p /\ _translator p' = _translator p /\
    _tts p' = _tts p /\ _intent_detector p' = _intent_detector p /\
    match _llm p with
    | None => _llm p' = None
    | Some m =>
        exists m', _llm p' = Some m' /\ history_of p' = [] /\
          Qwen.system_prompt m' = Qwen.system_prompt m /\
          Qwen.max_memory_messages m' = Qwen.max_memory_messages m /\
          Qwen.model_loaded m' = Qwen.model_loaded m /\
          forall user_input,
            Qwen._build_messages m' user_input =
            [mkMessage "system" (Qwen.system_prompt m); mkMessage "user" user_input]
    end.
Proof.
  unfold clear_conversation, history_of. unfold bind, get, on_handle.
  destruct (_llm p) as [m|] eqn:Em.
  - unfold Qwen.clear_history, modify. rewrite Em. eexists. split; [reflexivity|].
    split; [|cbn; repeat split].
    + unfold grows, same_config. cbn. rewrite Em. tauto.
    + eexists. split; [reflexivity|]. repeat split.
      intros u. unfold Qwen._build_messages, slice_from. cbn.
      rewrite skipn_nil. reflexivity.
  - exists p. split; [reflexivity|]. split; [apply grows_refl|]. rewrite Em. repeat split.
Qed.

End Facts.

Import Scenario.

Lemma load_components_idempotent_witness :
  load_components calm loaded [CPerfCounter] = (Ok tt, loaded, [CPerfCounter]).
Proof.
  refine (load_components_idempotent calm fresh [] loaded _ _ [CPerfCounter]).
  cbv. reflexivity.
Defined.

(** The recogniser model cannot be loaded: the handle stays, and the next
    call of the loader does not try again.  In the tree as shipped the
    import of the language model raises: nothing is stored. *)
Lemma failed_load_is_not_retried_witness :
  (exists p' tr',
     _load_asr (no_whisper "CUDA out of memory") fresh [] =
       (Raised "CUDA out of memory", p', tr') /\
     is_set (_asr p') = true /\
     _load_asr (no_whisper "CUDA out of memory") p' [] = (Ok tt, p', [])) /\
  _load_llm (no_llm_package "cannot import name 'QwenLLM'") fresh [] =
    (Raised "cannot import name 'QwenLLM'", fresh, []).
Proof.
  split.
  - do 2 eexists.
    assert (H : _load_asr (no_whisper "CUDA out of memory") fresh [] =
                (Raised "CUDA out of memory",
                 set_asr fresh (Some {| whisper_model_size := asr_model_size fresh;
                                        whisper_device := device fresh |}),
                 [CWhisperLoad (asr_model_size fresh) (device fresh)])) by reflexivity.
    split; [exact H|].
    destruct (proj1 (failed_load_is_not_retried (no_whisper "CUDA out of memory")
                       fresh [] "CUDA out of memory" _ _) eq_refl H) as [Hs Hl].
    split; [exact Hs|apply Hl].
  - assert (H : exists p' tr',
                  _load_llm (no_llm_package "cannot import name 'QwenLLM'") fresh [] =
                  (Raised "cannot import name 'QwenLLM'", p', tr'))
      by (do 2 eexists; reflexivity).
    destruct H as (p' & tr' & H).
    destruct (proj2 (proj2 (failed_load_is_not_retried
                              (no_llm_package "cannot import name 'QwenLLM'")
                              fresh [] "cannot import name 'QwenLLM'" p' tr')) H)
      as (_ & Hp & Ht).
    rewrite H, Hp, Ht. reflexivity.
Defined.

Lemma process_keeps_engines_witness :
  exists r p' tr',
    @process PyStr.ascii_text calm None (Some "hello how are you") "en" None loaded []
      = (r, p', tr') /\
    grows loaded p'.
Proof.
  do 3 eexists. split; [cbv; reflexivity|].
  eapply (@process_keeps_engines PyStr.ascii_text calm None (Some "hello how are you")
            "en" None loaded []).
  cbv. reflexivity.
Defined.

Lemma unknown_asr_engine_fails_audio_witness :
  exists r tr',
    @process PyStr.ascii_text calm (Some "question.wav") None "ml" None
             (init "vosk" "small" "1.5b" "mms" "cuda" true) [] =
      (Ok r, init "vosk" "small" "1.5b" "mms" "cuda" true, tr') /\
    success r = false /\ error r = Some "Unknown ASR engine: vosk".
Proof.
  do 2 eexists. split.
  - apply (@unknown_asr_engine_fails_audio PyStr.ascii_text calm (Some "question.wav")
             None "ml" None (init "vosk" "small" "1.5b" "mms" "cuda" true) []);
      reflexivity.
  - split; reflexivity.
Defined.

Lemma text_input_is_passed_through_witness :
  exists r p' tr',
    @process_text PyStr.ascii_text calm "what is the time" "en" None loaded [] =
      (Ok r, p', tr') /\
    malayalam_text r = "what is the time" /\ english_text r = "what is the time".
Proof.
  destruct (@text_input_is_passed_through PyStr.ascii_text calm "what is the time"
              "en" None loaded [] eq_refl) as (r & p' & tr' & H & Hm & _ & He).
  exists r, p', tr'. split; [exact H|]. split; [exact Hm|]. apply He. reflexivity.
Defined.

Lemma disabled_detection_is_skipped_witness :
  exists r p' tr',
    @process PyStr.ascii_text calm None (Some "what is the time") "en" None
             (init_default false) [] = (Ok r, p', tr') /\
    intent_type r = "" /\ _intent_detector p' = None.
Proof.
  destruct (@disabled_detection_is_skipped PyStr.ascii_text calm None
              (Some "what is the time") "en" None (init_default false) [] eq_refl)
    as (r & p' & tr' & H & (Ht & _) & Hd).
  exists r, p', tr'. split; [exact H|]. split; [exact Ht|exact Hd].
Defined.

Lemma ticking_is_monotone : monotone_clock calm.
Proof.
  intros tr new. unfold calm, world, perf_counter, ticking, Qle. cbn.
  rewrite length_app. lia.
Qed.

Lemma durations_are_not_negative_witness :
  exists r p' tr',
    @process PyStr.ascii_text calm None (Some "what is the time") "ml" None fresh [] =
      (Ok r, p', tr') /\
    times_nonneg r /\ (0 <= total_time_ms r)%Q.
Proof.
  exact (@durations_are_not_negative PyStr.ascii_text calm None
           (Some "what is the time") "ml" None fresh [] ticking_is_monotone).
Defined.

(** Two calls in a row on a fresh orchestrator: the first records its turn
    in an empty history. *)
Lemma successful_call_records_the_turn_witness :
  exists r p' tr' m,
    @process PyStr.ascii_text calm None (Some "how are you") "en" None fresh [] =
      (Ok r, p', tr') /\
    _llm p' = Some m /\
    Qwen.conversation_history m =
      [mkMessage "user" "how are you"; mkMessage "assistant" "I am fine, thank you."].
Proof.
  assert (H : exists r p' tr',
    @process PyStr.ascii_text calm None (Some "how are you") "en" None fresh [] =
      (Ok r, p', tr') /\ success r = true /\ english_text r = "how are you" /\
    english_response r = "I am fine, thank you.").
  { do 3 eexists. split; [cbv; reflexivity|]. repeat split. }
  destruct H as (r & p' & tr' & H & Hs & He & Hr).
  destruct (@successful_call_records_the_turn PyStr.ascii_text calm None
              (Some "how are you") "en" None fresh [] r p' tr' H Hs) as (m & Hm & Hh).
  exists r, p', tr', m. split; [exact H|]. split; [exact Hm|].
  rewrite Hh, He, Hr. reflexivity.
Defined.

End PipelineMore.

(* ------------------------------------------------------------------ *)
(** ** More on the agent graph *)

Module AgentsMore.
Import Agents AgentsFacts.

Section Facts.
Context {text_ops : PyStr.TextOps}.
Variable unrouted : option string -> AgentState -> Outcome AgentState.

(** What [process] answers when the graph was compiled.  The classifier
    yields one of four intents (never [unknown]).  For an information
    query, a task and general chat the reply is the fragment of the one
    handler wired to that intent, and only that fragment.  For the
    smart-home intent the table of conditional edges has no entry: no
    handler and no aggregate step of the repository runs, the outcome is
    whatever the graph runtime does with the unknown key. *)
Theorem graph_process_by_intent input lang :
  let st := _classify_intent (initial_state input lang) in
  let reply text :=
    Ok {| reply_response := Some text; reply_intent := intent st;
          reply_language := lang |} in
  (intent st = Some "information_query" \/ intent st = Some "task_management" \/
   intent st = Some "smart_home" \/ intent st = Some "general_chat") /\
  (intent st = Some "information_query" ->
   process unrouted (setup true init) input lang
   = reply ("[Info Agent] Processing query: " ++ input)%string) /\
  (intent st = Some "task_management" ->
   process unrouted (setup true init) input lang
   = reply ("[Task Agent] Processing task request: " ++ input)%string) /\
  (intent st = Some "general_chat" ->
   process unrouted (setup true init) input lang
   = reply ("[Chat Agent] I understand you said: " ++ input)%string) /\
  (intent st = Some "smart_home" ->
   process unrouted (setup true init) input lang
   = match unrouted (Some "smart_home") st with
     | Ok result =>
         Ok {| reply_response := final_response result;
               reply_intent := intent result;
               reply_language := language result |}
     | Raised e => Raised e
     end).
Proof.
  cbv zeta. unfold process. cbn [graph setup]. unfold invoke.
  cbn [node_action routes]. unfold _route_to_agent.
  unfold _classify_intent. cbn [intent set_intent user_input initial_state].
  repeat match goal with |- context [if ?c then _ else _] => destruct c end;
    cbn [value];
    (split; [auto|]);
    repeat split; intros H; try discriminate H; reflexivity.
Qed.

End Facts.

(** [turn on the fan] is a smart-home request: with the graph compiled the
    outcome is the runtime's, here an error on the unknown key. *)
Lemma graph_process_by_intent_witness :
  @process PyStr.ascii_text (fun _ _ => Raised "'smart_home'")
           (setup true init) "turn on the fan" "en"
  = Raised "'smart_home'"
  /\ @process PyStr.ascii_text (fun _ _ => Raised "'smart_home'")
              (setup true init) "remind me at noon" "en"
     = Ok {| reply_response := Some "[Task Agent] Processing task request: remind me at noon";
             reply_intent := Some "task_management";
             reply_language := "en" |}.
Proof.
  pose proof (@graph_process_by_intent PyStr.ascii_text
                (fun _ _ => Raised "'smart_home'") "turn on the fan" "en")
    as (_ & _ & _ & _ & Hhome).
  pose proof (@graph_process_by_intent PyStr.ascii_text
                (fun _ _ => Raised "'smart_home'") "remind me at noon" "en")
    as (_ & _ & Htask & _).
  split; [exact (Hhome eq_refl)|exact (Htask eq_refl)].
Defined.

End AgentsMore.

(* ------------------------------------------------------------------ *)
(** ** Facts about dictionaries *)

Module PyDictFacts.
Import PyDict.

Lemma get_set_same {V} (d : dict V) k v : get (set d k v) k = Some v.
Proof.
  induction d as [|[k' v'] d IH]; cbn.
  - now rewrite String.eqb_refl.
  - destruct (String.eqb k' k) eqn:E; cbn; rewrite E; [reflexivity|exact IH].
Qed.

Lemma get_set_other {V} (d : dict V) k v k' :
  k' <> k -> get (set d k v) k' = get d k'.
Proof.
  intros Hne. induction d as [|[k0 v0] d IH]; cbn.
  - destruct (String.eqb_spec k k'); [congruence|reflexivity].
  - destruct (String.eqb_spec k0 k) as [->|Hk]; cbn.
    + destruct (String.eqb_spec k k'); [congruence|reflexivity].
    + destruct (String.eqb_spec k0 k'); [reflexivity|exact IH].
Qed.

Lemma mem_set_same {V} (d : dict V) k v : mem (set d k v) k = true.
Proof. unfold mem. now rewrite get_set_same. Qed.

Lemma mem_set_keeps {V} (d : dict V) k v k' :
  mem d k' = true -> mem (set d k v) k' = true.
Proof.
  intros H. destruct (String.eqb_spec k' k) as [->|Hne].
  - apply mem_set_same.
  - unfold mem in *. now rewrite get_set_other.
Qed.

Lemma mem_set_inv {V} (d : dict V) k v k' :
  mem (set d k v) k' = true -> k' = k \/ mem d k' = true.
Proof.
  intros H. destruct (String.eqb_spec k' k) as [->|Hne]; [now left|].
  right. unfold mem in *. now rewrite get_set_other in H.
Qed.

Lemma keys_set_fresh {V} (d : dict V) k v :
  mem d k = false -> keys (set d k v) = keys d ++ [k].
Proof.
  unfold mem, keys. induction d as [|[k' v'] d IH]; cbn; [reflexivity|].
  destruct (String.eqb k' k) eqn:E; [discriminate|]. cbn. intros H. now rewrite IH.
Qed.

Lemma keys_set_present {V} (d : dict V) k v :
  mem d k = true -> keys (set d k v) = keys d.
Proof.
  unfold mem, keys. induction d as [|[k' v'] d IH]; cbn; [discriminate|].
  destruct (String.eqb k' k) eqn:E; cbn; [reflexivity|]. intros H. now rewrite IH.
Qed.

End PyDictFacts.

(* ------------------------------------------------------------------ *)
(** ** Facts about the translator *)

Module TranslationFacts.
Import Translation PyDictFacts.

Section Facts.
Context {text_ops : PyStr.TextOps}.
Variable R : Runtime.

(** Case analysis on one round of the loading loop. *)
Ltac load_cases H :=
  unfold load_direction in H;
  repeat match type of H with
  | context [PyDict.mem ?d ?k] => destruct (PyDict.mem d k) eqn:?
  | context [PyDict.get MODELS ?k] => destruct (PyDict.get MODELS k) eqn:?
  | context [tokenizer_from_pretrained R ?l ?m] =>
      destruct (tokenizer_from_pretrained R l m)
  | context [model_from_pretrained R ?l ?m] => destruct (model_from_pretrained R l m)
  | context [model_to R ?l ?m ?t] => destruct (model_to R l m t)
  | context [model_eval R ?l ?m] => destruct (model_eval R l m)
  end;
  cbv zeta in H; inversion H; subst; clear H.

Lemma load_direction_loaded direction self log :
  PyDict.mem (models self) direction = true ->
  load_direction R direction self log = (Ok tt, self, log).
Proof. intros H. unfold load_direction. now rewrite H. Qed.

Lemma load_direction_models direction self log o self' log' :
  load_direction R direction self log = (o, self', log') ->
  (forall k, PyDict.mem (models self) k = true -> PyDict.mem (models self') k = true) /\
  (o = Ok tt -> PyDict.mem (models self') direction = true).
Proof.
  intros H. load_cases H; cbn [models device tokenizers];
    (split; [intros k Hk | intros Ho]); try discriminate; try assumption;
    repeat match goal with
    | |- context [if ?c then _ else _] => destruct c
    end; cbn [models];
    first [ now apply mem_set_keeps | apply mem_set_same | assumption ].
Qed.

Lemma load_each_models directions : forall self log o self' log',
  load_each R directions self log = (o, self', log') ->
  (forall k, PyDict.mem (models self) k = true -> PyDict.mem (models self') k = true) /\
  (o = Ok tt -> forall d, In d directions -> PyDict.mem (models self') d = true).
Proof.
  induction directions as [|d ds IH]; intros self log o self' log' H.
  - inversion H; subst. split; [auto|]. intros _ d [].
  - cbn [load_each] in H.
    destruct (load_direction R d self log) as [[o1 self1] log1] eqn:E.
    destruct (load_direction_models _ _ _ _ _ _ E) as [G1 L1].
    destruct o1 as [[]|].
    + destruct (IH _ _ _ _ _ H) as [G2 L2]. split; [auto|].
      intros Ho k [<-|Hk]; [apply G2, L1; reflexivity|now apply L2].
    + inversion H; subst. split; [exact G1|discriminate].
Qed.

Lemma load_each_noop directions : forall self log,
  (forall d, In d directions -> PyDict.mem (models self) d = true) ->
  load_each R directions self log = (Ok tt, self, log).
Proof.
  induction directions as [|d ds IH]; intros self log H; [reflexivity|].
  cbn [load_each]. rewrite load_direction_loaded by (apply H; now left).
  apply IH. intros k Hk. apply H. now right.
Qed.

(** [load_models] is idempotent: once a call for some directions has
    completed, a later call for the same directions asks nothing of the
    libraries and changes nothing. *)
Theorem load_models_idempotent directions self log self' log' :
  load_models R directions self log = (Ok tt, self', log') ->
  forall later, load_models R directions self' later = (Ok tt, self', later).
Proof.
  unfold load_models. intros H later.
  apply load_each_noop. now apply (load_each_models _ _ _ _ _ _ H).
Qed.

(** *** Consistency of the two dictionaries *)

Lemma load_direction_consistent direction self log o self' log' :
  consistent self ->
  load_direction R direction self log = (o, self', log') ->
  consistent self'.
Proof.
  intros C H. load_cases H; try exact C;
    repeat match goal with
    | |- context [if ?c then _ else _] => destruct c
    end; try exact C;
    intros d id; cbn [models tokenizers device];
    (destruct (String.eqb_spec d direction) as [->|Hne];
     [ rewrite !get_set_same; intros Hid; inversion Hid; subst; auto
     | rewrite !get_set_other by exact Hne; apply C ]).
Qed.

Lemma load_each_consistent directions : forall self log o self' log',
  consistent self ->
  load_each R directions self log = (o, self', log') ->
  consistent self'.
Proof.
  induction directions as [|d ds IH]; intros self log o self' log' C H.
  - inversion H; subst. exact C.
  - cbn [load_each] in H.
    destruct (load_direction R d self log) as [[o1 self1] log1] eqn:E.
    pose proof (load_direction_consistent _ _ _ _ _ _ C E) as C1.
    destruct o1 as [[]|]; [eauto|]. inversion H; subst. exact C1.
Qed.

Lemma init_consistent dev : consistent {| device := dev; models := []; tokenizers := [] |}.
Proof. intros d id H. discriminate H. Qed.

Lemma direction_of_known source_lang :
  exists model_id, PyDict.get MODELS (direction_of source_lang) = Some model_id.
Proof. unfold direction_of. destruct (String.eqb source_lang "en"); eexists; reflexivity. Qed.

(** [translate] on a direction that is loaded: nothing is loaded and the
    object is unchanged, whether the generation completes or raises.  One
    generation is asked of the model of the direction, on the text tagged
    with the source code, with the target code forced; the direction
    depends on the source language only, so a pair of two Indian languages
    is sent to the model that translates into English. *)
Theorem translate_on_loaded_direction text source_lang target_lang max_length self log :
  consistent self ->
  PyDict.mem (models self) (direction_of source_lang) = true ->
  exists model_id,
    PyDict.get MODELS (direction_of source_lang) = Some model_id /\
    let input_text := (lang_code source_lang ++ " " ++ text)%string in
    let on_cuda := String.eqb (device self) "cuda" in
    translate R text source_lang target_lang max_length self log =
    (match generate R log model_id model_id input_text (lang_code target_lang)
                    max_length on_cuda with
     | Ok translated => Ok (without_tag (lang_code target_lang) translated)
     | Raised e => Raised e
     end,
     self,
     log ++ [EGenerate model_id model_id input_text (lang_code target_lang)
                       max_length on_cuda]).
Proof.
  intros C Hm. unfold PyDict.mem in Hm.
  destruct (PyDict.get (models self) (direction_of source_lang)) as [id|] eqn:Eg;
    [|discriminate Hm].
  destruct (C _ _ Eg) as [Ht Hk]. exists id. split; [exact Ht|]. cbv zeta.
  unfold translate. cbv zeta. unfold PyDict.mem. rewrite Eg. cbv beta iota.
  rewrite Eg, Hk.
  destruct (generate R log id id _ _ max_length _); reflexivity.
Qed.

(** A translator stays consistent under [load_models] and [translate],
    whether they complete or raise: every loaded model is the one the table
    names for its direction, and its tokenizer is loaded with it. *)
Theorem translator_stays_consistent self :
  consistent self ->
  (forall directions log o self' log',
     load_models R directions self log = (o, self', log') -> consistent self') /\
  (forall text source_lang target_lang max_length log o self' log',
     translate R text source_lang target_lang max_length self log = (o, self', log') ->
     consistent self').
Proof.
  intros C. split.
  - intros ds log o self' log' H. unfold load_models in H.
    eapply load_each_consistent; eauto.
  - intros text src tgt n log o self' log' H. unfold translate in H. cbv zeta in H.
    destruct (PyDict.mem (models self) (direction_of src)).
    + repeat match type of H with
      | context [match ?x with _ => _ end] => destruct x
      end; inversion H; subst; exact C.
    + destruct (load_models R (Some [direction_of src]) self log) as [[o1 self1] log1] eqn:E.
      assert (C1 : consistent self1).
      { unfold load_models in E. eapply load_each_consistent; eauto. }
      repeat match type of H with
      | context [match ?x with _ => _ end] => destruct x
      end; inversion H; subst; exact C1.
Qed.

(** *** The device *)

Lemma load_direction_device direction self log o self' log' :
  load_direction R direction self log = (o, self', log') ->
  (device self' = device self \/ device self' = "cpu") /\
  (PyDict.mem (models self) direction = false -> o = Ok tt ->
   device self' = "cuda" \/ device self' = "cpu").
Proof.
  intros H. unfold load_direction in H.
  destruct (PyDict.mem (models self) direction) eqn:Em.
  - inversion H; subst. split; [auto|discriminate].
  - destruct (String.eqb_spec (device self) "cuda") as [Hd|Hd];
    load_cases H; cbn [device andb];
      repeat match goal with
      | |- context [if ?c then _ else _] => destruct c
      end; cbn [device]; split; auto; try discriminate.
Qed.

(** [load_models] never moves a translator to CUDA: afterwards the device
    is what it was, or [cpu].  And once a direction was loaded the device
    is [cuda] or [cpu]: any other device name given to the constructor is
    replaced by [cpu] (and the model put on the CPU). *)
Theorem load_models_device directions self log o self' log' :
  load_models R directions self log = (o, self', log') ->
  (device self' = device self \/ device self' = "cpu") /\
  (forall d, PyDict.mem (models self) d = false ->
             PyDict.mem (models self') d = true ->
             device self' = "cuda" \/ device self' = "cpu").
Proof.
  unfold load_models.
  generalize (match directions with
              | Some (d :: ds) => d :: ds
              | _ => ["en-indic"; "indic-en"]
              end).
  intros ds. revert self log o self' log'.
  induction ds as [|d ds IH]; intros self log o self' log' H.
  - inversion H; subst. split; [auto|]. intros d H0 H1. congruence.
  - cbn [load_each] in H.
    destruct (load_direction R d self log) as [[o1 self1] log1] eqn:E.
    destruct (load_direction_device _ _ _ _ _ _ E) as [D1 N1].
    assert (F1 : forall k, PyDict.mem (models self) k = false ->
                           PyDict.mem (models self1) k = true ->
                           device self1 = "cuda" \/ device self1 = "cpu").
    { intros k Hk Hk1. unfold load_direction in E.
      destruct (PyDict.mem (models self) d) eqn:Em.
      - inversion E; subst. congruence.
      - destruct o1 as [[]|].
        + apply N1; auto.
        + exfalso. load_cases E; cbn [models] in Hk1;
            repeat match type of Hk1 with
            | context [if ?c then _ else _] => destruct c
            end; cbn [models] in Hk1; congruence. }
    destruct o1 as [[]|].
    + destruct (IH _ _ _ _ _ H) as [D2 N2]. split.
      * destruct D2 as [D2|D2]; [rewrite D2; exact D1|now right].
      * intros k Hk Hk'.
        destruct (PyDict.mem (models self1) k) eqn:Ek1.
        -- destruct (F1 k Hk Ek1) as [Hc|Hc];
             destruct D2 as [D2|D2]; rewrite ?D2; auto.
        -- exact (N2 k Ek1 Hk').
    + inversion H; subst. split; [exact D1|exact F1].
Qed.

(** *** Unknown directions *)

(** A direction that is not in the table fails with the [KeyError] of
    [self.MODELS[direction]], before anything is asked of the libraries
    for it: the directions before it are loaded, it and those after it are
    not. *)
Theorem load_models_unknown_direction before direction after self log self1 log1 :
  consistent self ->
  PyDict.get MODELS direction = None ->
  load_each R before self log = (Ok tt, self1, log1) ->
  load_models R (Some (before ++ direction :: after)) self log =
  (Raised (key_error (py_repr R) direction), self1, log1).
Proof.
  intros C Hd Hb.
  assert (E : load_each R (before ++ direction :: after) self log =
              (Raised (key_error (py_repr R) direction), self1, log1)).
  { revert self log C Hb. induction before as [|b bs IH]; intros self log C Hb.
    - inversion Hb; subst. cbn [app load_each]. unfold load_direction.
      destruct (PyDict.mem (models self1) direction) eqn:Em.
      + unfold PyDict.mem in Em.
        destruct (PyDict.get (models self1) direction) as [id|] eqn:Eg; [|discriminate].
        destruct (C _ _ Eg) as [Ht _]. congruence.
      + rewrite Hd. reflexivity.
    - cbn [app load_each] in *.
      destruct (load_direction R b self log) as [[o2 self2] log2] eqn:E2.
      pose proof (load_direction_consistent _ _ _ _ _ _ C E2) as C2.
      destruct o2 as [[]|]; [|discriminate Hb]. now apply IH. }
  unfold load_models. destruct before; exact E.
Qed.

End Facts.
End TranslationFacts.

(* ------------------------------------------------------------------ *)
(** ** Facts about the unified speech engine *)

Module TtsFacts.
Import Tts PyDictFacts.

Lemma engine_for_with_engine self b e k :
  engine_for (with_engine self b e) k = engine_for self k.
Proof. reflexivity. Qed.

Lemma init_well_keyed b d k : well_keyed (init b d k).
Proof. intros x e H. discriminate H. Qed.

Section Facts.
Variable R : Runtime.

(** What [_get_engine] does to the object. *)
Lemma get_engine_effect b self log o self' log' :
  _get_engine R b self log = (o, self', log') ->
  default_backend self' = default_backend self /\
  device self' = device self /\ kwargs self' = kwargs self /\
  (well_keyed self -> well_keyed self') /\
  (forall k, PyDict.mem (_engines self) k = true ->
             PyDict.mem (_engines self') k = true) /\
  (forall k, PyDict.mem (_engines self') k = true ->
             k = b \/ PyDict.mem (_engines self) k = true) /\
  (forall e, o = Ok e -> PyDict.get (_engines self') b = Some e).
Proof.
  intros H. unfold _get_engine in H.
  destruct (PyDict.get (_engines self) b) as [e0|] eqn:Eg.
  - inversion H; subst. repeat split; auto. intros e He. inversion He; subst. exact Eg.
  - destruct (engine_for self b) as [e1|] eqn:Ef.
    + destruct (construct R log e1) as [[]|msg]; inversion H; subst.
      * cbn [with_engine default_backend device kwargs _engines].
        repeat split.
        -- intros W k e Hk. cbn [with_engine _engines] in Hk.
           change (engine_for self k = Some e).
           destruct (String.eqb_spec k b) as [->|Hne].
           ++ rewrite get_set_same in Hk. inversion Hk; subst. exact Ef.
           ++ rewrite get_set_other in Hk by exact Hne. apply (W _ _ Hk).
        -- intros k Hk. now apply mem_set_keeps.
        -- intros k Hk. now apply mem_set_inv in Hk.
        -- intros e He. inversion He; subst. apply get_set_same.
      * repeat split; auto. discriminate.
    + inversion H; subst. repeat split; auto. discriminate.
Qed.

Lemma get_engine_cached b self log e :
  PyDict.get (_engines self) b = Some e ->
  _get_engine R b self log = (Ok e, self, log).
Proof. intros H. unfold _get_engine. now rewrite H. Qed.

Lemma synthesize_effect text lang backend out self log o self' log' :
  synthesize R text lang backend out self log = (o, self', log') ->
  (default_backend self' = default_backend self /\
   forall k, engine_for self' k = engine_for self k) /\
  (well_keyed self -> well_keyed self') /\
  (forall k, PyDict.mem (_engines self) k = true ->
             PyDict.mem (_engines self') k = true) /\
  (forall r, o = Ok r ->
     Tts.text r = text /\ language r = lang /\
     Tts.backend r = chosen self backend /\
     exists e, PyDict.get (_engines self') (chosen self backend) = Some e /\
               sample_rate r = match sample_rate_of e with
                               | Some rate => rate
                               | None => 22050%Z
                               end).
Proof.
  intros H. unfold synthesize in H. cbv zeta in H.
  destruct (_get_engine R (chosen self backend) self log) as [[o1 self1] log1] eqn:E.
  destruct (get_engine_effect _ _ _ _ _ _ E) as (D0 & D1 & D2 & W & G & _ & L).
  assert (D : default_backend self1 = default_backend self /\
              forall k, engine_for self1 k = engine_for self k).
  { split; [exact D0|]. intros k. unfold engine_for. now rewrite D1, D2. }
  destruct o1 as [e|msg].
  - destruct (engine_synthesize R _ e text lang out) as [a|msg]; inversion H; subst;
      (split; [exact D|]); (split; [exact W|]); (split; [exact G|]).
    + intros r Hr. inversion Hr; subst. cbn. repeat split. exists e. auto.
    + discriminate.
  - inversion H; subst. split; [exact D|]. split; [exact W|]. split; [exact G|].
    discriminate.
Qed.

(** Each backend is constructed at most once: after a synthesis that
    completed, a later synthesis with the same backend constructs nothing
    and leaves the engine object as it is.  It reads the clock, asks the
    cached backend, and reads the clock again when the backend answered. *)
Theorem backend_is_constructed_once text lang backend out self log r self' log' :
  synthesize R text lang backend out self log = (Ok r, self', log') ->
  forall text2 lang2 out2 later,
  exists e o,
    synthesize R text2 lang2 backend out2 self' later =
    (o, self',
     later ++ [EPerfCounter; ESynthesize e text2 lang2 out2]
           ++ match o with Ok _ => [EPerfCounter] | Raised _ => [] end).
Proof.
  intros H text2 lang2 out2 later.
  destruct (synthesize_effect _ _ _ _ _ _ _ _ _ H) as ((D & _) & _ & _ & L).
  destruct (L r eq_refl) as (_ & _ & _ & e & He & _).
  exists e. unfold synthesize. cbv zeta.
  assert (Hc : chosen self' backend = chosen self backend)
    by (unfold chosen; now rewrite D).
  rewrite Hc, (get_engine_cached _ _ _ _ He).
  destruct (engine_synthesize R _ e text2 lang2 out2) as [a|msg];
    [eexists (Ok _)|exists (Raised msg)]; rewrite <- ?app_assoc; reflexivity.
Qed.

(** A backend name outside [mms], [cartesia], [indic] is refused with a
    [ValueError] before anything is constructed or asked; the engine
    object is unchanged. *)
Theorem unknown_backend_is_refused text lang backend out self log :
  well_keyed self ->
  engine_for self (chosen self backend) = None ->
  synthesize R text lang backend out self log =
  (Raised ("Unknown backend: " ++ chosen self backend)%string, self, log).
Proof.
  intros W Hn. unfold synthesize. cbv zeta.
  unfold _get_engine.
  destruct (PyDict.get (_engines self) (chosen self backend)) as [e|] eqn:Eg.
  - rewrite (W _ _ Eg) in Hn. discriminate.
  - rewrite Hn. reflexivity.
Qed.

(** The sample rate of a result is that of the backend class: 16000 for
    [mms], 24000 for [cartesia], and the default 22050 for [indic], whose
    class sets no [sample_rate].  A synthesis that completes has used one
    of these three backends. *)
Theorem reported_sample_rate text lang backend out self log r self' log' :
  well_keyed self ->
  synthesize R text lang backend out self log = (Ok r, self', log') ->
  (Tts.backend r = "mms" /\ sample_rate r = 16000%Z) \/
  (Tts.backend r = "cartesia" /\ sample_rate r = 24000%Z) \/
  (Tts.backend r = "indic" /\ sample_rate r = 22050%Z).
Proof.
  intros W H.
  destruct (synthesize_effect _ _ _ _ _ _ _ _ _ H) as (_ & W' & _ & L).
  destruct (L r eq_refl) as (_ & _ & Hb & e & He & Hs).
  pose proof (W' W _ _ He) as Hf. rewrite Hs, Hb. unfold engine_for in Hf.
  destruct (String.eqb_spec (chosen self backend) "mms") as [->|_].
  { inversion Hf; subst. left. split; reflexivity. }
  destruct (String.eqb_spec (chosen self backend) "cartesia") as [->|_].
  { inversion Hf; subst. right; left. split; reflexivity. }
  destruct (String.eqb_spec (chosen self backend) "indic") as [->|_]; [|discriminate].
  inversion Hf; subst. right; right. split; reflexivity.
Qed.

(** *** A/B comparison *)




End Facts.
End TtsFacts.

Module TranslationExamples.
Import Translation TranslationFacts Scenario.

Lemma load_models_idempotent_witness :
  load_models (host true) (Some ["indic-en"; "en-indic"]) preloaded [ECudaIsAvailable]
  = (Ok tt, preloaded, [ECudaIsAvailable]).
Proof.
  refine (load_models_idempotent (host true) (Some ["indic-en"; "en-indic"])
            {| device := "cuda"; models := []; tokenizers := [] |} []
            preloaded _ _ [ECudaIsAvailable]).
  reflexivity.
Defined.

Lemma preloaded_consistent : consistent preloaded.
Proof.
  apply (load_each_consistent (host true) ["indic-en"; "en-indic"]
           {| device := "cuda"; models := []; tokenizers := [] |} [] (Ok tt) preloaded
           [ETokenizerFromPretrained "ai4bharat/indictrans2-indic-en-1B";
            EModelFromPretrained "ai4bharat/indictrans2-indic-en-1B";
            ECudaIsAvailable;
            EModelTo "ai4bharat/indictrans2-indic-en-1B" "cuda";
            EModelEval "ai4bharat/indictrans2-indic-en-1B";
            ETokenizerFromPretrained "ai4bharat/indictrans2-en-indic-1B";
            EModelFromPretrained "ai4bharat/indictrans2-en-indic-1B";
            ECudaIsAvailable;
            EModelTo "ai4bharat/indictrans2-en-indic-1B" "cuda";
            EModelEval "ai4bharat/indictrans2-en-indic-1B"]).
  - apply init_consistent.
  - reflexivity.
Qed.

(** Malayalam to Hindi goes to the model that translates into English,
    with the Hindi tag forced; the tag is removed from the output. *)
Lemma translate_on_loaded_direction_witness :
  @translate PyStr.ascii_text (host true) "namaskaram" "ml" "hi" 256 preloaded [] =
  (Ok "<mal_Mlym namaskaram>", preloaded,
   [EGenerate "ai4bharat/indictrans2-indic-en-1B" "ai4bharat/indictrans2-indic-en-1B"
              "mal_Mlym namaskaram" "hin_Deva" 256 true]).
Proof.
  destruct (@translate_on_loaded_direction PyStr.ascii_text (host true)
              "namaskaram" "ml" "hi" 256 preloaded [] preloaded_consistent eq_refl)
    as (id & Hid & H).
  inversion Hid; subst. exact H.
Defined.

Lemma translator_stays_consistent_witness :
  exists o self' log',
    @translate PyStr.ascii_text (host false) "hello" "en" "ml" 256
               {| device := "cuda"; models := []; tokenizers := [] |} []
    = (o, self', log') /\
    consistent self'.
Proof.
  do 3 eexists. split; [vm_compute; reflexivity|].
  eapply (proj2 (@translator_stays_consistent PyStr.ascii_text (host false) _
                   (init_consistent "cuda")) "hello" "en" "ml" 256%Z []).
  vm_compute. reflexivity.
Defined.

(** A device name other than [cuda] ends as [cpu]. *)
Lemma load_models_device_witness :
  exists self' log',
    load_models (host true) None {| device := "mps"; models := []; tokenizers := [] |} []
    = (Ok tt, self', log') /\
    device self' = "cpu".
Proof.
  do 2 eexists. split; [vm_compute; reflexivity|].
  destruct (load_models_device (host true) None
              {| device := "mps"; models := []; tokenizers := [] |} []
              (Ok tt) _ _ eq_refl) as [Hkept Hnew].
  destruct (Hnew "en-indic" eq_refl eq_refl) as [K|K]; [|exact K].
  destruct Hkept as [H|H]; [|exact H].
  cbn in H, K. congruence.
Defined.

Lemma load_models_unknown_direction_witness :
  exists self' log',
    load_models (host true) (Some ["indic-en"; "hi-en"; "en-indic"])
                {| device := "cuda"; models := []; tokenizers := [] |} []
    = (Raised "'hi-en'", self', log') /\
    PyDict.keys (models self') = ["indic-en"].
Proof.
  do 2 eexists. split.
  - apply (load_models_unknown_direction (host true) ["indic-en"] "hi-en" ["en-indic"]
             {| device := "cuda"; models := []; tokenizers := [] |} []).
    + apply init_consistent.
    + reflexivity.
    + reflexivity.
  - reflexivity.
Defined.

End TranslationExamples.

Module TtsExamples.
Import Tts TtsFacts Scenario.

Lemma backend_is_constructed_once_witness :
  exists r self' log' e o,
    synthesize offline "namaskaram" "ml" None None (init "mms" "cuda" []) []
    = (Ok r, self', log') /\
    synthesize offline "nanni" "ml" None None self' log'
    = (o, self', log' ++ [EPerfCounter; ESynthesize e "nanni" "ml" None]
                      ++ match o with Ok _ => [EPerfCounter] | Raised _ => [] end).
Proof.
  do 3 eexists.
  assert (H : synthesize offline "namaskaram" "ml" None None (init "mms" "cuda" []) []
              = (Ok _, _, _)) by (vm_compute; reflexivity).
  destruct (backend_is_constructed_once offline _ _ _ _ _ _ _ _ _ H
              "nanni" "ml" None
              [EConstruct (MMSTTS "cuda"); EPerfCounter;
               ESynthesize (MMSTTS "cuda") "namaskaram" "ml" None; EPerfCounter])
    as (e & o & H2).
  exists e, o. split; [exact H|exact H2].
Defined.

Lemma unknown_backend_is_refused_witness :
  synthesize offline "namaskaram" "ml" (Some "espeak") None (init "mms" "cuda" []) []
  = (Raised "Unknown backend: espeak", init "mms" "cuda" [], []).
Proof.
  apply (unknown_backend_is_refused offline "namaskaram" "ml" (Some "espeak") None
           (init "mms" "cuda" []) []).
  - apply init_well_keyed.
  - reflexivity.
Defined.

Lemma reported_sample_rate_witness :
  exists r self' log',
    synthesize offline "namaskaram" "ml" (Some "indic") None (init "mms" "cuda" []) []
    = (Ok r, self', log') /\
    sample_rate r = 22050%Z.
Proof.
  do 3 eexists. split; [vm_compute; reflexivity|].
  destruct (reported_sample_rate offline "namaskaram" "ml" (Some "indic") None
              (init "mms" "cuda" []) [] _ _ _ (init_well_keyed _ _ _) eq_refl)
    as [[Hb _]|[[Hb _]|[_ Hs]]]; [discriminate Hb|discriminate Hb|exact Hs].
Defined.


End TtsExamples.
